(** * A 2D drawing program: the interaction core of [GraphicsApp]

    Shallow embedding of [Source.cpp]: the shape classes, the GUI buttons
    with their hit test, and the event loop of [GraphicsApp] (tool selection,
    two-click placement, undo, clear, save, the 'C' key).

    Numbers.  Mouse positions are C++ [int]s, modelled by [Z]; no arithmetic
    is done on them.  The coordinates of an [sf::Vector2f], the bounds of a
    button and the radius of a circle are [float]s, modelled as IEEE 754
    binary32 values with the operations of [SpecFloat]; the radius is
    computed in [double] (binary64), as [std::pow] and [std::sqrt] do. *)

From Stdlib Require Import ZArith List Bool String Lia.
From Stdlib Require Import Floats.SpecFloat.
Import ListNotations.
Local Open Scope Z_scope.

(** ** Floating point: [float] is binary32, [double] is binary64 *)

Module Float.

Definition float := spec_float.
Definition double := spec_float.

(** Conversion of an [int] to [float]. *)
Definition of_Z (n : Z) : float := binary_normalize 24 128 n 0 false.

(** The mathematical integer mantissa of a finite value, with its sign. *)
Definition signed_mantissa (s : bool) (m : positive) : Z :=
  cond_Zopp s (Zpos m).

(** Promotion of a [float] to [double] (exact). *)
Definition to_double (f : float) : double :=
  match f with
  | S754_finite s m e => binary_normalize 53 1024 (signed_mantissa s m) e s
  | _ => f
  end.

(** Narrowing of a [double] to [float] (round to nearest, ties to even). *)
Definition of_double (d : double) : float :=
  match d with
  | S754_finite s m e => binary_normalize 24 128 (signed_mantissa s m) e s
  | _ => d
  end.

(** [+], [-], [<=] and [<] on [float]. *)
Definition add (a b : float) : float := SFadd 24 128 a b.
Definition sub (a b : float) : float := SFsub 24 128 a b.
Definition leb (a b : float) : bool := SFleb a b.
Definition ltb (a b : float) : bool := SFltb a b.

(** [std::min(a, b)] and [std::max(a, b)]. *)
Definition min (a b : float) : float := if ltb b a then b else a.
Definition max (a b : float) : float := if ltb a b then b else a.

(** [std::pow(d, 2)], [+] and [std::sqrt] on [double]: the square is the
    correctly rounded product of [d] with itself. *)
Definition dpow2 (d : double) : double := SFmul 53 1024 d d.
Definition dadd (a b : double) : double := SFadd 53 1024 a b.
Definition dsqrt (d : double) : double := SFsqrt 53 1024 d.

(** Sign bit clear and not a NaN: [+0], a positive finite value or [+inf]. *)
Definition nonneg (f : spec_float) : bool :=
  match f with
  | S754_zero s | S754_infinity s | S754_finite s _ _ => negb s
  | S754_nan => false
  end.

(** A finite value [f] is [m * 2^e]; [f * f = n] for an integer [n] reads
    [m^2 * 4^e = n], stated without fractions. *)
Definition square_is (f : spec_float) (n : Z) : Prop :=
  match f with
  | S754_zero _ => n = 0
  | S754_finite _ m e =>
      if 0 <=? e then Zpos m * Zpos m * 4 ^ e = n
      else Zpos m * Zpos m = n * 4 ^ (- e)
  | _ => False
  end.

(** A value that is not a NaN and carries the sign [s]. *)
Definition signed (s : bool) (f : spec_float) : Prop :=
  match f with
  | S754_zero s' | S754_infinity s' | S754_finite s' _ _ => s' = s
  | S754_nan => False
  end.

(** The number of binary digits of a positive integer. *)
Definition digits (n : Z) : Z := Z.log2 n + 1.

(** The normalised representation, at precision [prec], of the positive
    integer [n] with sign [s]: the mantissa is [n] shifted to [prec] digits. *)
Definition canonical (prec : Z) (s : bool) (n : Z) : spec_float :=
  S754_finite s (Z.to_pos (n * 2 ^ (prec - digits n))) (digits n - prec).

End Float.

(** ** The part of SFML the program relies on *)

Module Vector2i.
Record t := mk { x : Z; y : Z }.
End Vector2i.

Module Vector2f.
Record t := mk { x : Float.float; y : Float.float }.

(** [sf::Vector2f(a, b)] for two [int]s. *)
Definition of_ints (a b : Z) : t := mk (Float.of_Z a) (Float.of_Z b).

(** [a - b]. *)
Definition sub (a b : t) : t :=
  mk (Float.sub (x a) (x b)) (Float.sub (y a) (y b)).
End Vector2f.

(** [sf::Vector2f(v)] for an integer vector [v]. *)
Definition toVector2f (v : Vector2i.t) : Vector2f.t :=
  Vector2f.of_ints (Vector2i.x v) (Vector2i.y v).

Record Color := mkColor { r : Z; g : Z; b : Z; a : Z }.

Definition White : Color := mkColor 255 255 255 255.

Record FloatRect := mkRect {
  left : Float.float;
  top : Float.float;
  width : Float.float;
  height : Float.float }.

(** [sf::Rect<float>::contains]: the left and top edges belong to the
    rectangle, the right and bottom edges do not. *)
Definition contains (rect : FloatRect) (p : Vector2f.t) : bool :=
  let minX := Float.min (left rect) (Float.add (left rect) (width rect)) in
  let maxX := Float.max (left rect) (Float.add (left rect) (width rect)) in
  let minY := Float.min (top rect) (Float.add (top rect) (height rect)) in
  let maxY := Float.max (top rect) (Float.add (top rect) (height rect)) in
  Float.leb minX (Vector2f.x p) && Float.ltb (Vector2f.x p) maxX &&
  Float.leb minY (Vector2f.y p) && Float.ltb (Vector2f.y p) maxY.

(** One iteration of [while (window.pollEvent(event))] sees the event taken
    from the queue and may query the devices: [mousePosition] is what
    [sf::Mouse::getPosition(window)] returns during that iteration, [keyC]
    what [sf::Keyboard::isKeyPressed(sf::Keyboard::C)] returns.  The mouse
    button of a press is not looked at by the program and is left out. *)
Inductive Event :=
| Closed
| MouseButtonPressed (mouseButton_x mouseButton_y : Z)
| OtherEvent.

Record Input := mkInput {
  event : Event;
  mousePosition : Vector2i.t;
  keyC : bool }.

(** ** Shapes *)

(** The three classes derived from [Shape], with the arguments of their
    constructors.  A rectangle and a circle are outlined (thickness 2, in
    [color]) on a transparent fill; both vertices of a line get [color]. *)
Inductive Shape :=
| Line (start end_ : Vector2f.t) (color : Color)
| Rectangle (position size : Vector2f.t) (color : Color)
| Circle (position : Vector2f.t) (radius : Float.float) (color : Color).

Module ShapeType.
Inductive t := None | Line | Rectangle | Circle.

Definition eqb (s1 s2 : t) : bool :=
  match s1, s2 with
  | None, None | Line, Line | Rectangle, Rectangle | Circle, Circle => true
  | _, _ => false
  end.
End ShapeType.

(** The tool a committed shape was drawn with. *)
Definition shapeType (s : Shape) : ShapeType.t :=
  match s with
  | Line _ _ _ => ShapeType.Line
  | Rectangle _ _ _ => ShapeType.Rectangle
  | Circle _ _ _ => ShapeType.Circle
  end.

(** ** Buttons *)

Record Button := mkButton {
  buttonPosition : Vector2f.t;
  buttonSize : Vector2f.t;
  buttonText : string }.

(** [buttonShape.getGlobalBounds()]: the button's rectangle has no outline
    and no transform other than the translation to its position. *)
Definition getGlobalBounds (btn : Button) : FloatRect :=
  mkRect (Vector2f.x (buttonPosition btn)) (Vector2f.y (buttonPosition btn))
         (Vector2f.x (buttonSize btn)) (Vector2f.y (buttonSize btn)).

Definition isClicked (btn : Button) (mousePos : Vector2i.t) : bool :=
  contains (getGlobalBounds btn) (toVector2f mousePos).

(** The six buttons, as the constructor of [GraphicsApp] places them; they
    are never changed afterwards. *)
Definition lineButton : Button :=
  mkButton (Vector2f.of_ints 10 10) (Vector2f.of_ints 100 50) "Line".
Definition rectButton : Button :=
  mkButton (Vector2f.of_ints 120 10) (Vector2f.of_ints 100 50) "Rectangle".
Definition circleButton : Button :=
  mkButton (Vector2f.of_ints 230 10) (Vector2f.of_ints 100 50) "Circle".
Definition clearButton : Button :=
  mkButton (Vector2f.of_ints 340 10) (Vector2f.of_ints 100 50) "Clear".
Definition saveButton : Button :=
  mkButton (Vector2f.of_ints 450 10) (Vector2f.of_ints 100 50) "Save".
Definition undoButton : Button :=
  mkButton (Vector2f.of_ints 560 10) (Vector2f.of_ints 100 50) "Undo".

(** ** The application state *)

(** The mutable members of [GraphicsApp], together with the two pieces of
    the outside world it acts on: whether the window is open, and the
    drawing last written to [drawing.png] (the shapes rendered into it). *)
Record GraphicsApp := mkApp {
  window_isOpen : bool;
  shapes : list Shape;
  currentColor : Color;
  currentShapeType : ShapeType.t;
  isDrawing : bool;
  startPos : Vector2f.t;
  undoStack : list Shape;
  drawing_png : option (list Shape) }.

Definition initial : GraphicsApp :=
  mkApp true [] White ShapeType.None false (Vector2f.of_ints 0 0) [] None.

Definition set_window_isOpen (v : bool) (app : GraphicsApp) : GraphicsApp :=
  mkApp v (shapes app) (currentColor app) (currentShapeType app)
        (isDrawing app) (startPos app) (undoStack app) (drawing_png app).

Definition set_shapes (v : list Shape) (app : GraphicsApp) : GraphicsApp :=
  mkApp (window_isOpen app) v (currentColor app) (currentShapeType app)
        (isDrawing app) (startPos app) (undoStack app) (drawing_png app).

Definition set_currentShapeType (v : ShapeType.t) (app : GraphicsApp) : GraphicsApp :=
  mkApp (window_isOpen app) (shapes app) (currentColor app) v
        (isDrawing app) (startPos app) (undoStack app) (drawing_png app).

Definition set_isDrawing (v : bool) (app : GraphicsApp) : GraphicsApp :=
  mkApp (window_isOpen app) (shapes app) (currentColor app) (currentShapeType app)
        v (startPos app) (undoStack app) (drawing_png app).

Definition set_startPos (v : Vector2f.t) (app : GraphicsApp) : GraphicsApp :=
  mkApp (window_isOpen app) (shapes app) (currentColor app) (currentShapeType app)
        (isDrawing app) v (undoStack app) (drawing_png app).

Definition set_undoStack (v : list Shape) (app : GraphicsApp) : GraphicsApp :=
  mkApp (window_isOpen app) (shapes app) (currentColor app) (currentShapeType app)
        (isDrawing app) (startPos app) v (drawing_png app).

Definition set_drawing_png (v : option (list Shape)) (app : GraphicsApp) : GraphicsApp :=
  mkApp (window_isOpen app) (shapes app) (currentColor app) (currentShapeType app)
        (isDrawing app) (startPos app) (undoStack app) v.

(** ** [std::vector] operations used on [shapes] and [undoStack] *)

Definition push_back {A} (v : list A) (elem : A) : list A := v ++ [elem].

Fixpoint back {A} (v : list A) : option A :=
  match v with
  | [] => None
  | [elem] => Some elem
  | _ :: rest => back rest
  end.

Definition pop_back {A} (v : list A) : list A := removelast v.

Definition empty {A} (v : list A) : bool :=
  match v with [] => true | _ => false end.

(** ** The handlers of [GraphicsApp::handleEvents] *)

(** [window.close()]. *)
Definition close (app : GraphicsApp) : GraphicsApp :=
  set_window_isOpen false app.

(** [shapes.clear(); undoStack.clear();], the body shared by the Clear
    button and the 'C' key. *)
Definition clear (app : GraphicsApp) : GraphicsApp :=
  set_undoStack [] (set_shapes [] app).

(** The body of the Undo button:
    [if (!shapes.empty()) { undoStack.push_back(shapes.back()); shapes.pop_back(); }] *)
Definition undo (app : GraphicsApp) : GraphicsApp :=
  if negb (empty (shapes app)) then
    match back (shapes app) with
    | Some last_shape =>
        set_shapes (pop_back (shapes app))
          (set_undoStack (push_back (undoStack app) last_shape) app)
    | None => app
    end
  else app.

(** [saveDrawing()]: the shapes are drawn on a black texture of the size of
    the window, which is written to [drawing.png]. *)
Definition saveDrawing (app : GraphicsApp) : GraphicsApp :=
  set_drawing_png (Some (shapes app)) app.

(** [std::sqrt(std::pow(endPos.x - startPos.x, 2) + std::pow(endPos.y - startPos.y, 2))]
    assigned to a [float]: the differences are [float]s, [std::pow] of a
    [float] and an [int] computes in [double], and so do the sum and the
    square root; the result is narrowed to [float]. *)
Definition circleRadius (startPos endPos : Vector2f.t) : Float.float :=
  let dx := Float.sub (Vector2f.x endPos) (Vector2f.x startPos) in
  let dy := Float.sub (Vector2f.y endPos) (Vector2f.y startPos) in
  Float.of_double
    (Float.dsqrt (Float.dadd (Float.dpow2 (Float.to_double dx))
                             (Float.dpow2 (Float.to_double dy)))).

(** The first branch of the mouse handler ([!isDrawing]): the buttons are
    tested one after the other on the queried cursor position, then the
    click starts a placement if a tool is selected. *)
Definition clickWhenIdle (mousePos : Vector2i.t) (app : GraphicsApp) : GraphicsApp :=
  if isClicked lineButton mousePos then
    set_currentShapeType ShapeType.Line app
  else if isClicked rectButton mousePos then
    set_currentShapeType ShapeType.Rectangle app
  else if isClicked circleButton mousePos then
    set_currentShapeType ShapeType.Circle app
  else if isClicked clearButton mousePos then
    clear app
  else if isClicked undoButton mousePos then
    undo app
  else if isClicked saveButton mousePos then
    saveDrawing app
  else if negb (ShapeType.eqb (currentShapeType app) ShapeType.None) then
    set_isDrawing true (set_startPos (toVector2f mousePos) app)
  else app.

(** The second branch ([isDrawing]): the coordinates stored in the event
    are the end point. *)
Definition clickWhenDrawing (endPos : Vector2f.t) (app : GraphicsApp) : GraphicsApp :=
  let pushed :=
    match currentShapeType app with
    | ShapeType.Line =>
        set_shapes (push_back (shapes app)
                      (Line (startPos app) endPos (currentColor app))) app
    | ShapeType.Rectangle =>
        let size := Vector2f.sub endPos (startPos app) in
        set_shapes (push_back (shapes app)
                      (Rectangle (startPos app) size (currentColor app))) app
    | ShapeType.Circle =>
        let radius := circleRadius (startPos app) endPos in
        set_shapes (push_back (shapes app)
                      (Circle (startPos app) radius (currentColor app))) app
    | ShapeType.None => app
    end in
  set_isDrawing false (set_currentShapeType ShapeType.None pushed).

(** [if (event.type == sf::Event::MouseButtonPressed) { ... }] for an event
    of that type: [mousePos] is the queried cursor position, [ex] and [ey]
    are [event.mouseButton.x] and [event.mouseButton.y]. *)
Definition onMouseButtonPressed (mousePos : Vector2i.t) (ex ey : Z)
    (app : GraphicsApp) : GraphicsApp :=
  if negb (isDrawing app) then clickWhenIdle mousePos app
  else clickWhenDrawing (Vector2f.of_ints ex ey) app.

(** [if (sf::Keyboard::isKeyPressed(sf::Keyboard::C)) { ... }] *)
Definition onKeyC (pressed : bool) (app : GraphicsApp) : GraphicsApp :=
  if pressed then clear app else app.

(** The body of the [while (window.pollEvent(event))] loop. *)
Definition pollBody (inp : Input) (app : GraphicsApp) : GraphicsApp :=
  let app1 :=
    match event inp with
    | Closed => close app
    | _ => app
    end in
  let app2 :=
    match event inp with
    | MouseButtonPressed ex ey =>
        onMouseButtonPressed (mousePosition inp) ex ey app1
    | _ => app1
    end in
  onKeyC (keyC inp) app2.

(** [handleEvents()] on the events waiting in the queue: [pollEvent] hands
    out the next event as long as there is one and the window is open. *)
Fixpoint handleEvents (queue : list Input) (app : GraphicsApp) : GraphicsApp :=
  match queue with
  | [] => app
  | inp :: rest =>
      if window_isOpen app then handleEvents rest (pollBody inp app)
      else app
  end.

(** [run()]: one call of [handleEvents] per frame while the window is open;
    [drawShapes] only reads the state. *)
Fixpoint run (frames : list (list Input)) (app : GraphicsApp) : GraphicsApp :=
  match frames with
  | [] => app
  | queue :: rest =>
      if window_isOpen app then run rest (handleEvents queue app)
      else app
  end.

(** What [drawShapes] puts on the screen on top of the buttons and the
    instructions: the committed shapes, in insertion order. *)
Definition drawShapes (app : GraphicsApp) : list Shape := shapes app.

(** ** Vocabulary of the specification *)

(** The three interaction states. *)
Definition Idle (app : GraphicsApp) : Prop :=
  isDrawing app = false /\ currentShapeType app = ShapeType.None.

Definition ToolSelected (app : GraphicsApp) : Prop :=
  isDrawing app = false /\ currentShapeType app <> ShapeType.None.

Definition Placing (app : GraphicsApp) : Prop :=
  isDrawing app = true /\ currentShapeType app <> ShapeType.None.

(** The pending click: the start point, present while [isDrawing]. *)
Definition pendingClick (app : GraphicsApp) : option Vector2f.t :=
  if isDrawing app then Some (startPos app) else None.

(** A position that hits none of the six buttons. *)
Definition hitsNoButton (p : Vector2i.t) : bool :=
  negb (isClicked lineButton p) && negb (isClicked rectButton p) &&
  negb (isClicked circleButton p) && negb (isClicked clearButton p) &&
  negb (isClicked undoButton p) && negb (isClicked saveButton p).

(** A position that hits one of the three tool buttons. *)
Definition hitsToolButton (p : Vector2i.t) : bool :=
  isClicked lineButton p || isClicked rectButton p || isClicked circleButton p.

(** The iteration on [inp] in state [app] is a tool button press. *)
Definition isToolButtonPress (app : GraphicsApp) (inp : Input) : bool :=
  match event inp with
  | MouseButtonPressed _ _ =>
      window_isOpen app && negb (isDrawing app) && hitsToolButton (mousePosition inp)
  | _ => false
  end.

(** A click whose queried cursor position and stored coordinates agree, with
    the 'C' key up. *)
Definition clickAt (px py : Z) : Input :=
  mkInput (MouseButtonPressed px py) (Vector2i.mk px py) false.

(** The shape the second click commits, by tool. *)
Definition committed (app : GraphicsApp) (endPos : Vector2f.t) (s : Shape) : Prop :=
  match currentShapeType app with
  | ShapeType.Line => s = Line (startPos app) endPos (currentColor app)
  | ShapeType.Rectangle =>
      s = Rectangle (startPos app) (Vector2f.sub endPos (startPos app))
            (currentColor app)
  | ShapeType.Circle =>
      s = Circle (startPos app) (circleRadius (startPos app) endPos) (currentColor app)
  | ShapeType.None => False
  end.

(** The point a shape is anchored at: the first argument of its
    constructor, which the handler takes from [startPos]. *)
Definition startOf (s : Shape) : Vector2f.t :=
  match s with
  | Line start _ _ => start
  | Rectangle position _ _ => position
  | Circle position _ _ => position
  end.

(** The buttons with their actions, in the order the handler tests them. *)
Definition buttonActions : list (Button * (GraphicsApp -> GraphicsApp)) :=
  [(lineButton, set_currentShapeType ShapeType.Line);
   (rectButton, set_currentShapeType ShapeType.Rectangle);
   (circleButton, set_currentShapeType ShapeType.Circle);
   (clearButton, clear);
   (undoButton, undo);
   (saveButton, saveDrawing)].

(** What a click does when no button is hit. *)
Definition canvasClick (mousePos : Vector2i.t) (app : GraphicsApp) : GraphicsApp :=
  if negb (ShapeType.eqb (currentShapeType app) ShapeType.None)
  then set_isDrawing true (set_startPos (toVector2f mousePos) app)
  else app.

(** [circleRadius] on two points whose coordinate differences are the
    integers [dx] and [dy]. *)
Definition radiusOfDifferences (dx dy : Z) : Float.float :=
  Float.of_double
    (Float.dsqrt (Float.dadd (Float.dpow2 (Float.to_double (Float.of_Z dx)))
                             (Float.dpow2 (Float.to_double (Float.of_Z dy))))).

(** ** States used in the examples, each reached from [initial] by clicks *)

(** The Line button has been pressed. *)
Definition lineSelected : GraphicsApp :=
  handleEvents [clickAt 60 35] initial.

(** The Rectangle button has been pressed and the canvas clicked at
    [(300, 300)]. *)
Definition placingRectangle : GraphicsApp :=
  handleEvents [clickAt 130 30; clickAt 300 300] initial.

(** The Circle button has been pressed and the canvas clicked at [(0, 0)]. *)
Definition placingCircle : GraphicsApp :=
  handleEvents [clickAt 240 30; clickAt 0 0] initial.

(** Two lines have been placed. *)
Definition twoLines : GraphicsApp :=
  handleEvents [clickAt 60 35; clickAt 100 100; clickAt 200 200;
                clickAt 60 35; clickAt 300 300; clickAt 400 400] initial.

(** Two lines have been placed, the second one undone, the Rectangle button
    pressed and the canvas clicked at [(300, 300)]. *)
Definition placingWithHistory : GraphicsApp :=
  handleEvents [clickAt 600 30; clickAt 130 30; clickAt 300 300] twoLines.

(** The two lines of [twoLines]. *)
Definition firstLine : Shape :=
  Line (Vector2f.of_ints 100 100) (Vector2f.of_ints 200 200) White.
Definition secondLine : Shape :=
  Line (Vector2f.of_ints 300 300) (Vector2f.of_ints 400 400) White.

(** ** Vocabulary of the further properties *)

(** The six buttons, in the order the handler tests them. *)
Definition buttons : list Button := map fst buttonActions.

(** The colour a shape has been constructed with. *)
Definition colorOf (s : Shape) : Color :=
  match s with
  | Line _ _ color | Rectangle _ _ color | Circle _ _ color => color
  end.

(** An iteration of the loop whose event is a mouse press. *)
Definition isPress (inp : Input) : bool :=
  match event inp with
  | MouseButtonPressed _ _ => true
  | _ => false
  end.

(** An iteration of the loop whose event closes the window. *)
Definition isClosing (inp : Input) : bool :=
  match event inp with
  | Closed => true
  | _ => false
  end.

(** The iteration on [inp] in state [app] is a press with the cursor on the
    Save button while no placement is under way. *)
Definition isSavePress (app : GraphicsApp) (inp : Input) : bool :=
  match event inp with
  | MouseButtonPressed _ _ =>
      negb (isDrawing app) && isClicked saveButton (mousePosition inp)
  | _ => false
  end.

(** A point inside the bounds of one of the buttons. *)
Definition onAButton (v : Vector2f.t) : bool :=
  existsb (fun btn => contains (getGlobalBounds btn) v) buttons.

(** The integer a float stands for, when it stands for one: a finite value
    [m * 2^e] with [e >= 0], or with [e < 0] and [m] a multiple of
    [2^(-e)]. *)
Definition integerValue (f : Float.float) : option Z :=
  match f with
  | S754_zero _ => Some 0
  | S754_finite s m e =>
      if 0 <=? e then Some (cond_Zopp s (Zpos m * 2 ^ e))
      else if Zpos m mod 2 ^ (- e) =? 0
           then Some (cond_Zopp s (Zpos m / 2 ^ (- e)))
           else None
  | _ => None
  end.

(** What a state has cost in mouse presses: three for each shape on the
    canvas or on the undo stack, one for a selected tool, one for a pending
    click. *)
Definition pressesSpent (app : GraphicsApp) : nat :=
  (3 * (List.length (shapes app) + List.length (undoStack app))
   + (if ShapeType.eqb (currentShapeType app) ShapeType.None then 0 else 1)
   + (if isDrawing app then 1 else 0))%nat.

(** Everything the state holds has the colour [c]: the current colour, the
    shapes of the canvas, of the undo stack and of the saved drawing. *)
Definition uniform (c : Color) (app : GraphicsApp) : Prop :=
  currentColor app = c /\
  Forall (fun s => colorOf s = c) (shapes app) /\
  Forall (fun s => colorOf s = c) (undoStack app) /\
  (forall saved, drawing_png app = Some saved ->
     Forall (fun s => colorOf s = c) saved).

(** No start point lies on a button: neither the pending one nor that of a
    shape of the canvas or of the undo stack. *)
Definition startsOffButtons (app : GraphicsApp) : Prop :=
  (isDrawing app = true -> onAButton (startPos app) = false) /\
  Forall (fun s => onAButton (startOf s) = false) (shapes app) /\
  Forall (fun s => onAButton (startOf s) = false) (undoStack app).

(** * Properties *)

(** ** Vectors *)

Section VectorFacts.
Context {A : Type}.
Implicit Types (v : list A) (e : A).

Lemma back_push_back v e : back (push_back v e) = Some e.
Proof.
  unfold push_back. induction v as [|h t IH]; [reflexivity|].
  simpl. rewrite IH. destruct t; reflexivity.
Qed.

Lemma pop_back_push_back v e : pop_back (push_back v e) = v.
Proof. unfold pop_back, push_back. apply removelast_last. Qed.

Lemma empty_push_back v e : empty (push_back v e) = false.
Proof. unfold push_back. destruct v; reflexivity. Qed.

Lemma empty_true v : empty v = true -> v = [].
Proof. destruct v; [reflexivity | discriminate]. Qed.

Lemma length_push_back v e :
  List.length (push_back v e) = S (List.length v).
Proof. unfold push_back. rewrite length_app. simpl. lia. Qed.
End VectorFacts.

(** ** Floating-point facts *)

Module FloatFacts.
Import Float.

Section Rounding.
Variables prec emax : Z.

Lemma iter_pos_invariant {A} (P : A -> Prop) (f : A -> A) :
  (forall a, P a -> P (f a)) ->
  forall n a, P a -> P (iter_pos f n a).
Proof.
  intros Hf. induction n as [n IH | n IH |]; intros a Ha; simpl.
  - apply IH, IH, Hf, Ha.
  - apply IH, IH, Ha.
  - apply Hf, Ha.
Qed.

Lemma shr_1_nonneg mrs : 0 <= shr_m mrs -> 0 <= shr_m (shr_1 mrs).
Proof.
  destruct mrs as [m r0 s0]. simpl.
  destruct m as [|[p|p|]|p]; simpl; lia.
Qed.

Lemma shr_nonneg mrs e n : 0 <= shr_m mrs -> 0 <= shr_m (fst (shr mrs e n)).
Proof.
  intros H. unfold shr. destruct n as [|p|p]; simpl; try exact H.
  apply (iter_pos_invariant (fun mrs => 0 <= shr_m mrs)); [|exact H].
  apply shr_1_nonneg.
Qed.

Lemma shr_record_of_loc_m m l : shr_m (shr_record_of_loc m l) = m.
Proof. destruct l as [|[| |]]; reflexivity. Qed.

Lemma shr_fexp_nonneg m e l :
  0 <= m -> 0 <= shr_m (fst (shr_fexp prec emax m e l)).
Proof.
  intros H. unfold shr_fexp. apply shr_nonneg.
  rewrite shr_record_of_loc_m. exact H.
Qed.

Lemma round_nearest_even_nonneg m l : 0 <= m -> 0 <= round_nearest_even m l.
Proof.
  intros H. unfold round_nearest_even.
  destruct l as [|[| |]]; try destruct (Z.even m); lia.
Qed.

(** Rounding keeps the sign it is given and never makes a NaN. *)
Lemma binary_round_aux_signed s m e l :
  0 <= m -> signed s (binary_round_aux prec emax s m e l).
Proof.
  intros H. unfold binary_round_aux.
  pose proof (shr_fexp_nonneg m e l H) as H1.
  destruct (shr_fexp prec emax m e l) as [mrs' e']. simpl in H1.
  pose proof (shr_fexp_nonneg
              (round_nearest_even (shr_m mrs') (loc_of_shr_record mrs'))
              e' loc_Exact (round_nearest_even_nonneg _ _ H1)) as H2.
  destruct (shr_fexp prec emax _ e' loc_Exact) as [mrs'' e'']. simpl in H2.
  destruct (shr_m mrs'') as [|p|p]; simpl.
  - reflexivity.
  - destruct (e'' <=? emax - prec); reflexivity.
  - lia.
Qed.

Lemma binary_round_signed s m e : signed s (binary_round prec emax s m e).
Proof.
  unfold binary_round. destruct (shl_align _ _ _) as [mz ez].
  apply binary_round_aux_signed. lia.
Qed.

Lemma binary_normalize_signed m e :
  0 <= m -> signed false (binary_normalize prec emax m e false).
Proof.
  intros H. destruct m as [|p|p]; simpl;
  [reflexivity | apply binary_round_signed | lia].
Qed.

Lemma binary_normalize_not_nan m e s :
  binary_normalize prec emax m e s <> S754_nan.
Proof.
  destruct m as [|p|p]; simpl; [discriminate | |].
  - pose proof (binary_round_signed false p e) as H.
  intros E. rewrite E in H. exact H.
  - pose proof (binary_round_signed true p e) as H.
  intros E. rewrite E in H. exact H.
Qed.

Lemma SFmul_self_signed f :
  f <> S754_nan -> signed false (SFmul prec emax f f).
Proof.
  destruct f as [s|s| |s m e]; intros H; simpl.
  - destruct s; reflexivity.
  - destruct s; reflexivity.
  - congruence.
  - replace (xorb s s) with false by (destruct s; reflexivity).
  apply binary_round_aux_signed. lia.
Qed.

Lemma shl_align_pos m e e' : 0 < Zpos (fst (shl_align m e e')).
Proof. lia. Qed.

Lemma SFadd_signed f1 f2 :
  signed false f1 -> signed false f2 -> signed false (SFadd prec emax f1 f2).
Proof.
  destruct f1 as [s1|s1| |s1 m1 e1], f2 as [s2|s2| |s2 m2 e2];
  simpl; intros H1 H2; subst; try contradiction; try reflexivity.
  apply binary_normalize_signed. simpl. lia.
Qed.

Lemma SFsqrt_signed f :
  signed false f -> signed false (SFsqrt prec emax f).
Proof.
  destruct f as [s|s| |s m e]; simpl; intros H; subst;
  try contradiction; try reflexivity.
  destruct (SFsqrt_core_binary prec emax (Zpos m) e) as [[mz ez] lz] eqn:E.
  apply binary_round_aux_signed.
  unfold SFsqrt_core_binary in E.
  match type of E with
  | context [Z.sqrtrem ?n] =>
      pose proof (Z.sqrtrem_sqrt n) as Hs;
      destruct (Z.sqrtrem n) as [q rem]
  end.
  injection E as <- _ _. simpl in Hs. rewrite Hs. apply Z.sqrt_nonneg.
Qed.
End Rounding.

Lemma signed_nonneg f : signed false f <-> nonneg f = true.
Proof.
  destruct f as [s|s| |s m e]; simpl; try (destruct s; simpl; split; congruence).
  split; [intros [] | discriminate].
Qed.

Lemma of_Z_not_nan n : of_Z n <> S754_nan.
Proof. apply binary_normalize_not_nan. Qed.

Lemma to_double_not_nan f : f <> S754_nan -> to_double f <> S754_nan.
Proof.
  destruct f as [s|s| |s m e]; simpl; try congruence.
  intros _. apply binary_normalize_not_nan.
Qed.

Lemma of_double_signed d : signed false d -> signed false (of_double d).
Proof.
  destruct d as [s|s| |s m e]; simpl; try (intros; assumption).
  intros ->. apply binary_round_signed.
Qed.

(** *** Exact results

    When the exact result of an operation is an integer that fits in the
    mantissa, the operation returns its normalised representation. *)

Lemma digits2_pos_size p : digits2_pos p = Pos.size p.
Proof. induction p; simpl; congruence. Qed.

Lemma Zdigits2_digits p : Zdigits2 (Zpos p) = digits (Zpos p).
Proof.
  unfold digits. simpl Zdigits2. rewrite digits2_pos_size.
  destruct p; simpl; rewrite ?Pos2Z.inj_succ; lia.
Qed.

Lemma digits_shift n j : 0 < n -> 0 <= j -> digits (n * 2 ^ j) = digits n + j.
Proof. intros Hn Hj. unfold digits. rewrite Z.log2_mul_pow2 by lia. lia. Qed.

Lemma digits_pos n : 0 < n -> 1 <= digits n.
Proof. intros H. unfold digits. pose proof (Z.log2_nonneg n). lia. Qed.

Lemma digits_bound n d : 0 < n -> 0 <= d -> n < 2 ^ d -> digits n <= d.
Proof.
  intros Hn Hd H. unfold digits.
  assert (Z.log2 n < d) by (apply Z.log2_lt_pow2; assumption). lia.
Qed.

Lemma iter_xO_pow2 m n : Zpos (Pos.iter xO m n) = Zpos m * 2 ^ Zpos n.
Proof.
  induction n using Pos.peano_ind.
  - simpl. lia.
  - rewrite Pos.iter_succ, Pos2Z.inj_xO, IHn, Pos2Z.inj_succ, Z.pow_succ_r by lia.
    lia.
Qed.

Lemma iter_pos_iter {A} (f : A -> A) n a : iter_pos f n a = Pos.iter f a n.
Proof.
  revert a. induction n as [n IH | n IH |]; intros a; simpl.
  - rewrite !IH, !Pos.iter_swap. reflexivity.
  - rewrite !IH. reflexivity.
  - reflexivity.
Qed.

Lemma shr_exact m n :
  iter_pos shr_1 n (Build_shr_record (Zpos (Pos.iter xO m n)) false false)
  = Build_shr_record (Zpos m) false false.
Proof.
  rewrite iter_pos_iter. induction n using Pos.peano_ind.
  - reflexivity.
  - rewrite Pos.iter_succ_r, Pos.iter_succ. simpl shr_1. exact IHn.
Qed.

Section Exact.
Variables prec emax : Z.
Hypothesis Hprec : 2 <= prec.
Hypothesis Hemax : prec < emax.

Lemma fexp_digits d : 1 <= d -> fexp prec emax d = d - prec.
Proof. unfold fexp, emin. lia. Qed.

Lemma shr_fexp_exact m j T :
  0 < T -> digits T <= prec -> prec - digits T <= j -> Zpos m = T * 2 ^ j ->
  shr_fexp prec emax (Zpos m) (- j) loc_Exact
  = (Build_shr_record (T * 2 ^ (prec - digits T)) false false, digits T - prec).
Proof.
  intros HT Hd Hj Hm.
  pose proof (digits_pos T HT) as Hd1.
  assert (0 <= j) by lia.
  unfold shr_fexp. rewrite Zdigits2_digits, Hm, digits_shift by lia.
  replace (digits T + j + - j) with (digits T) by lia.
  rewrite fexp_digits by lia. cbn [shr_record_of_loc].
  unfold shr.
  destruct (digits T - prec - - j) as [|n|n] eqn:En; try lia.
  - replace (prec - digits T) with j by lia. f_equal. lia.
  - assert (Ej : j = (prec - digits T) + Zpos n) by lia.
    assert (0 < T * 2 ^ (prec - digits T)).
    { apply Z.mul_pos_pos; [lia | apply Z.pow_pos_nonneg; lia]. }
    assert (Em : T * 2 ^ j = Zpos (Pos.iter xO (Z.to_pos (T * 2 ^ (prec - digits T))) n)).
    { rewrite iter_xO_pow2, Z2Pos.id by lia. rewrite Ej at 1.
      rewrite Z.pow_add_r by lia. lia. }
    rewrite Em, shr_exact, Z2Pos.id by lia. f_equal. lia.
Qed.

Lemma binary_round_aux_exact s m j T :
  0 < T -> digits T <= prec -> prec - digits T <= j -> Zpos m = T * 2 ^ j ->
  binary_round_aux prec emax s (Zpos m) (- j) loc_Exact = canonical prec s T.
Proof.
  intros HT Hd Hj Hm.
  pose proof (digits_pos T HT) as Hd1.
  assert (Hpos : 0 < T * 2 ^ (prec - digits T)).
  { apply Z.mul_pos_pos; [lia | apply Z.pow_pos_nonneg; lia]. }
  unfold binary_round_aux. rewrite (shr_fexp_exact m j T) by assumption.
  cbn [shr_m loc_of_shr_record round_nearest_even].
  destruct (T * 2 ^ (prec - digits T)) as [|M|M] eqn:EM; try lia.
  replace (digits T - prec) with (- (prec - digits T)) by lia.
  rewrite (shr_fexp_exact M (prec - digits T) T)
    by (first [assumption | symmetry; assumption | lia]).
  rewrite EM. cbn [shr_m].
  replace (digits T - prec <=? emax - prec) with true
    by (symmetry; apply Z.leb_le; lia).
  unfold canonical. rewrite EM. reflexivity.
Qed.

Lemma shl_align_value m e e' :
  e' <= e -> Zpos (fst (shl_align m e e')) = Zpos m * 2 ^ (e - e') /\
             snd (shl_align m e e') = e'.
Proof.
  intros H. unfold shl_align.
  destruct (e' - e) as [|d|d] eqn:E; try lia; cbn [fst snd].
  - replace (e - e') with 0 by lia. split; lia.
  - rewrite iter_xO_pow2. replace (e - e') with (Zpos d) by lia. split; lia.
Qed.

Lemma binary_round_exact s m j T :
  0 < T -> digits T <= prec -> 0 <= j -> Zpos m = T * 2 ^ j ->
  binary_round prec emax s m (- j) = canonical prec s T.
Proof.
  intros HT Hd Hj Hm.
  pose proof (digits_pos T HT) as Hd1.
  unfold binary_round.
  change (Zpos (digits2_pos m)) with (Zdigits2 (Zpos m)).
  rewrite Zdigits2_digits, Hm, digits_shift by lia.
  replace (digits T + j + - j) with (digits T) by lia.
  rewrite fexp_digits by lia.
  destruct (Z_le_gt_dec (digits T - prec) (- j)) as [Hle | Hgt].
  - pose proof (shl_align_value m (- j) (digits T - prec) Hle) as [Hv He].
    destruct (shl_align m (- j) (digits T - prec)) as [mz ez].
    cbn [fst snd] in Hv, He. subst ez.
    replace (digits T - prec) with (- (prec - digits T)) by lia.
    apply binary_round_aux_exact; try assumption; try lia.
    rewrite Hv, Hm, <- Z.mul_assoc, <- Z.pow_add_r by lia. f_equal. f_equal. lia.
  - unfold shl_align.
    destruct (digits T - prec - - j) as [|d|d] eqn:E; try lia;
      apply binary_round_aux_exact; try assumption; lia.
Qed.

Lemma binary_normalize_exact T j szero :
  0 < T -> digits T <= prec -> 0 <= j ->
  binary_normalize prec emax (T * 2 ^ j) (- j) szero = canonical prec false T /\
  binary_normalize prec emax (- (T * 2 ^ j)) (- j) szero = canonical prec true T.
Proof.
  intros HT Hd Hj.
  assert (Hpos : 0 < T * 2 ^ j).
  { apply Z.mul_pos_pos; [lia | apply Z.pow_pos_nonneg; lia]. }
  destruct (T * 2 ^ j) as [|m|m] eqn:Em; try lia.
  simpl. split; apply binary_round_exact; auto.
Qed.

End Exact.

Lemma digits_square_le T : 0 < T -> digits (T * T) <= 2 * digits T.
Proof.
  intros HT. apply digits_bound; [nia | unfold digits; pose proof (Z.log2_nonneg T); lia |].
  assert (T < 2 ^ digits T).
  { unfold digits. apply Z.log2_spec in HT. lia. }
  replace (2 * digits T) with (digits T + digits T) by lia.
  rewrite Z.pow_add_r by (pose proof (digits_pos T HT); lia). nia.
Qed.

Lemma digits_square_ge T : 0 < T -> 2 * digits T - 1 <= digits (T * T).
Proof.
  intros HT. unfold digits.
  assert (2 * Z.log2 T <= Z.log2 (T * T)); [|lia].
  apply Z.log2_le_pow2; [nia|].
  pose proof (Z.log2_nonneg T).
  replace (2 * Z.log2 T) with (Z.log2 T + Z.log2 T) by lia.
  rewrite Z.pow_add_r by lia.
  apply Z.log2_spec in HT. nia.
Qed.

Lemma sqrtrem_square X : 0 <= X -> Z.sqrtrem (X * X) = (X, 0).
Proof.
  intros HX. pose proof (Z.sqrtrem_spec (X * X)) as H.
  destruct (Z.sqrtrem (X * X)) as [s0 r0].
  destruct H as [H1 H2]; [nia|].
  assert (s0 = X) by nia. subst s0. f_equal. lia.
Qed.

Lemma half_bounds n : 2 * (n / 2) <= n < 2 * (n / 2) + 2.
Proof.
  pose proof (Z.div_mod n 2 ltac:(lia)).
  pose proof (Z.mod_pos_bound n 2 ltac:(lia)). lia.
Qed.

Section Operations.
Variables prec emax : Z.
Hypothesis Hprec : 2 <= prec.
Hypothesis Hemax : prec < emax.

Lemma canonical_mantissa_value s T :
  0 < T -> digits T <= prec ->
  exists m, canonical prec s T = S754_finite s m (digits T - prec) /\
            Zpos m = T * 2 ^ (prec - digits T).
Proof.
  intros HT Hd. unfold canonical. eexists. split; [reflexivity|].
  rewrite Z2Pos.id; [reflexivity|].
  apply Z.mul_pos_pos; [lia | apply Z.pow_pos_nonneg; lia].
Qed.

Lemma SFmul_exact s T :
  0 < T -> digits (T * T) <= prec ->
  SFmul prec emax (canonical prec s T) (canonical prec s T) = canonical prec false (T * T).
Proof.
  intros HT Hd2.
  pose proof (digits_pos T HT). pose proof (digits_square_ge T HT).
  assert (Hd : digits T <= prec) by lia.
  destruct (canonical_mantissa_value s T HT Hd) as (m & -> & Hm).
  cbn [SFmul]. replace (xorb s s) with false by (destruct s; reflexivity).
  replace (digits T - prec + (digits T - prec))
    with (- (2 * (prec - digits T))) by lia.
  apply binary_round_aux_exact; try assumption; try nia.
  rewrite Pos2Z.inj_mul, Hm.
    replace (2 * (prec - digits T)) with ((prec - digits T) + (prec - digits T)) by lia.
    rewrite Z.pow_add_r by lia. ring.
Qed.

Lemma SFadd_exact A B :
  0 < A -> 0 < B -> digits (A + B) <= prec ->
  SFadd prec emax (canonical prec false A) (canonical prec false B) = canonical prec false (A + B).
Proof.
  intros HA HB Hd.
  pose proof (digits_pos A HA). pose proof (digits_pos B HB).
  assert (HdA : digits A <= digits (A + B)).
  { unfold digits. assert (Z.log2 A <= Z.log2 (A + B)) by (apply Z.log2_le_mono; lia). lia. }
  assert (HdB : digits B <= digits (A + B)).
  { unfold digits. assert (Z.log2 B <= Z.log2 (A + B)) by (apply Z.log2_le_mono; lia). lia. }
  destruct (canonical_mantissa_value false A HA ltac:(lia)) as (ma & -> & Hma).
  destruct (canonical_mantissa_value false B HB ltac:(lia)) as (mb & -> & Hmb).
  cbn [SFadd cond_Zopp].
  set (ez := Z.min (digits A - prec) (digits B - prec)).
  assert (Hez : ez <= digits A - prec /\ ez <= digits B - prec /\ ez <= 0)
    by (subst ez; lia).
  destruct (shl_align_value ma (digits A - prec) ez ltac:(lia)) as [Va _].
  destruct (shl_align_value mb (digits B - prec) ez ltac:(lia)) as [Vb _].
  rewrite Va, Vb, Hma, Hmb.
  replace (A * 2 ^ (prec - digits A) * 2 ^ (digits A - prec - ez) +
           B * 2 ^ (prec - digits B) * 2 ^ (digits B - prec - ez))
    with ((A + B) * 2 ^ (- ez)).
  - replace ez with (- - ez) at 2 by lia.
    apply binary_normalize_exact; try assumption; lia.
  - rewrite <- !Z.mul_assoc, <- !Z.pow_add_r by lia.
    replace (prec - digits A + (digits A - prec - ez)) with (- ez) by lia.
    replace (prec - digits B + (digits B - prec - ez)) with (- ez) by lia.
    ring.
Qed.

Lemma SFsqrt_exact k :
  0 < k -> digits (k * k) <= prec ->
  SFsqrt prec emax (canonical prec false (k * k)) = canonical prec false k.
Proof.
  intros Hk Hd2.
  pose proof (digits_pos k Hk). pose proof (digits_square_ge k Hk).
  pose proof (digits_square_le k Hk).
  assert (HK : 0 < k * k) by nia.
  pose proof (digits_pos (k * k) HK).
  destruct (canonical_mantissa_value false (k * k) HK Hd2) as (m & -> & Hm).
  cbn [SFsqrt]. unfold SFsqrt_core_binary.
  rewrite Zdigits2_digits, Hm, digits_shift by lia.
  replace (digits (k * k) + (prec - digits (k * k)) + (digits (k * k) - prec) + 1)
    with (digits (k * k) + 1) by lia.
  rewrite !Z.div2_div.
  set (h := (digits (k * k) + 1) / 2).
  assert (Hh : 2 * h <= digits (k * k) + 1 < 2 * h + 2)
    by (subst h; apply half_bounds).
  rewrite fexp_digits by lia.
  set (q := (digits (k * k) - prec) / 2).
  assert (Hq : 2 * q <= digits (k * k) - prec < 2 * q + 2)
    by (subst q; apply half_bounds).
  replace (Z.min (h - prec) q) with (h - prec) by lia.
  set (j := prec - h).
  assert (Hj : 0 <= j) by (subst j; lia).
  assert (Es : digits (k * k) - prec - 2 * (h - prec) = digits (k * k) - prec + 2 * j)
    by (subst j; lia).
  rewrite Es.
  assert (Hs : 0 < digits (k * k) - prec + 2 * j) by (subst j; lia).
  destruct (digits (k * k) - prec + 2 * j) as [|sh|sh] eqn:Esh; try lia.
  rewrite Z.shiftl_mul_pow2 by lia.
  replace (k * k * 2 ^ (prec - digits (k * k)) * 2 ^ Zpos sh)
    with ((k * 2 ^ j) * (k * 2 ^ j)).
  - assert (Hkj : 0 < k * 2 ^ j)
      by (apply Z.mul_pos_pos; [lia | apply Z.pow_pos_nonneg; lia]).
    rewrite sqrtrem_square by lia. cbn [Z.eqb].
    destruct (k * 2 ^ j) as [|mq|mq] eqn:Emq; try lia.
    replace (h - prec) with (- j) by (subst j; lia).
    apply binary_round_aux_exact; try assumption; try lia.
  - rewrite <- Esh.
    replace (k * k * 2 ^ (prec - digits (k * k)) * 2 ^ (digits (k * k) - prec + 2 * j))
      with (k * k * (2 ^ (prec - digits (k * k)) * 2 ^ (digits (k * k) - prec + 2 * j)))
      by ring.
    rewrite <- Z.pow_add_r by lia.
    replace (prec - digits (k * k) + (digits (k * k) - prec + 2 * j)) with (j + j) by lia.
    rewrite Z.pow_add_r by lia. ring.
Qed.

End Operations.

Lemma of_Z_exact n :
  0 < n -> digits n <= 24 ->
  of_Z n = canonical 24 false n /\ of_Z (- n) = canonical 24 true n.
Proof.
  intros Hn Hd. unfold of_Z.
  pose proof (binary_normalize_exact 24 128 ltac:(lia) ltac:(lia) n 0 false Hn Hd
                ltac:(lia)) as H.
  change (2 ^ 0) with 1 in H. rewrite Z.mul_1_r in H. exact H.
Qed.

Lemma to_double_exact s T :
  0 < T -> digits T <= 24 ->
  to_double (canonical 24 s T) = canonical 53 s T.
Proof.
  intros HT Hd.
  destruct (canonical_mantissa_value 24 s T HT Hd) as (m & -> & Hm).
  cbn [to_double]. unfold signed_mantissa.
  replace (digits T - 24) with (- (24 - digits T)) by lia.
  destruct (binary_normalize_exact 53 1024 ltac:(lia) ltac:(lia) T (24 - digits T) s
              HT ltac:(lia) ltac:(lia)) as [Hp Hn].
  rewrite <- Hm in Hp, Hn. destruct s; [exact Hn | exact Hp].
Qed.

Lemma of_double_exact T :
  0 < T -> digits T <= 24 ->
  of_double (canonical 53 false T) = canonical 24 false T.
Proof.
  intros HT Hd.
  destruct (canonical_mantissa_value 53 false T HT ltac:(lia)) as (m & -> & Hm).
  cbn [of_double]. unfold signed_mantissa. cbn [cond_Zopp].
  replace (digits T - 53) with (- (53 - digits T)) by lia.
  destruct (binary_normalize_exact 24 128 ltac:(lia) ltac:(lia) T (53 - digits T) false
              HT Hd ltac:(lia)) as [Hp _].
  rewrite <- Hm in Hp. exact Hp.
Qed.

(** *** Pixel coordinates

    Integers below 2^24 in magnitude are floats: the conversion is
    injective on them, and comparing, adding and subtracting the floats is
    comparing, adding and subtracting the integers. *)

Lemma of_Z_cases n :
  Z.abs n < 2 ^ 24 ->
  (n = 0 /\ of_Z n = S754_zero false) \/
  (0 < n /\ of_Z n = canonical 24 false n) \/
  (n < 0 /\ of_Z n = canonical 24 true (- n)).
Proof.
  intros Hb.
  destruct (Z.lt_trichotomy n 0) as [Hneg | [-> | Hpos]].
  - right. right. split; [exact Hneg|].
    assert (Hd : digits (- n) <= 24) by (apply digits_bound; lia).
    destruct (of_Z_exact (- n) ltac:(lia) Hd) as [_ H].
    rewrite Z.opp_involutive in H. exact H.
  - left. split; reflexivity.
  - right. left. split; [exact Hpos|].
    assert (Hd : digits n <= 24) by (apply digits_bound; lia).
    apply of_Z_exact; assumption.
Qed.

Lemma canonical_inj prec s1 s2 a b :
  0 < a -> 0 < b -> digits a <= prec -> digits b <= prec ->
  canonical prec s1 a = canonical prec s2 b -> s1 = s2 /\ a = b.
Proof.
  intros Ha Hb Hda Hdb E. unfold canonical in E.
  injection E as Es Em Ee. split; [exact Es|].
  assert (Ed : digits a = digits b) by lia. rewrite Ed in Em.
  assert (P : 0 < 2 ^ (prec - digits b)) by (apply Z.pow_pos_nonneg; lia).
  apply Z2Pos.inj in Em; nia.
Qed.

(** Distinct pixel coordinates are distinct floats. *)
Lemma of_Z_inj a b :
  Z.abs a < 2 ^ 24 -> Z.abs b < 2 ^ 24 -> of_Z a = of_Z b -> a = b.
Proof.
  intros Ha Hb E.
  assert (D : forall n, 0 < n -> n < 2 ^ 24 -> digits n <= 24)
    by (intros; apply digits_bound; lia).
  destruct (of_Z_cases a Ha) as [[-> Ea] | [[Pa Ea] | [Na Ea]]],
           (of_Z_cases b Hb) as [[-> Eb] | [[Pb Eb] | [Nb Eb]]];
    try rewrite Ea in E; try rewrite Eb in E; try reflexivity; try discriminate E.
  - apply canonical_inj in E; try apply D; lia.
  - apply canonical_inj in E; try apply D; lia.
Qed.

(** Float comparison of pixel coordinates is integer comparison. *)
Lemma digits_lt a b : 0 < a -> 0 < b -> digits a < digits b -> a < b.
Proof.
  intros Ha Hb H. unfold digits in H.
  pose proof (Z.log2_spec a Ha). pose proof (Z.log2_spec b Hb).
  assert (2 ^ Z.succ (Z.log2 a) <= 2 ^ Z.log2 b)
    by (apply Z.pow_le_mono_r; lia).
  lia.
Qed.

Lemma compare_canonical a b :
  0 < a -> 0 < b -> digits a <= 24 -> digits b <= 24 ->
  SFcompare (canonical 24 false a) (canonical 24 false b) = Some (a ?= b) /\
  SFcompare (canonical 24 true a) (canonical 24 true b) = Some (b ?= a).
Proof.
  intros Ha Hb Hda Hdb.
  destruct (canonical_mantissa_value 24 false a Ha Hda) as (ma & Ea & Hma).
  destruct (canonical_mantissa_value 24 false b Hb Hdb) as (mb & Eb & Hmb).
  assert (Ea' : canonical 24 true a = S754_finite true ma (digits a - 24)).
  { unfold canonical in *. injection Ea as <-. reflexivity. }
  assert (Eb' : canonical 24 true b = S754_finite true mb (digits b - 24)).
  { unfold canonical in *. injection Eb as <-. reflexivity. }
  rewrite Ea, Eb, Ea', Eb'. cbn [SFcompare].
  rewrite Pos.compare_cont_spec.
  replace (Pos.switch_Eq Eq (ma ?= mb)%positive) with (ma ?= mb)%positive
    by (destruct (ma ?= mb)%positive; reflexivity).
  change (Pos.compare ma mb) with (Zpos ma ?= Zpos mb).
  rewrite Hma, Hmb.
  destruct (Z.compare_spec (digits a - 24) (digits b - 24)) as [Ed | Ed | Ed].
  - assert (E : digits a = digits b) by lia. rewrite E.
    assert (P : 0 < 2 ^ (24 - digits b)) by (apply Z.pow_pos_nonneg; lia).
    rewrite <- (Zmult_compare_compat_r a b) by lia.
    split; [reflexivity|]. rewrite (Z.compare_antisym a b). reflexivity.
  - assert (a < b) by (apply digits_lt; lia).
    split; f_equal; [symmetry; apply Z.compare_lt_iff | symmetry; apply Z.compare_gt_iff]; lia.
  - assert (b < a) by (apply digits_lt; lia).
    split; f_equal; [symmetry; apply Z.compare_gt_iff | symmetry; apply Z.compare_lt_iff]; lia.
Qed.

Lemma compare_of_Z a b :
  Z.abs a < 2 ^ 24 -> Z.abs b < 2 ^ 24 ->
  SFcompare (of_Z a) (of_Z b) = Some (a ?= b).
Proof.
  intros Ha Hb.
  assert (D : forall n, 0 < n -> n < 2 ^ 24 -> digits n <= 24)
    by (intros; apply digits_bound; lia).
  destruct (of_Z_cases a Ha) as [[-> Ea] | [[Pa Ea] | [Na Ea]]],
           (of_Z_cases b Hb) as [[-> Eb] | [[Pb Eb] | [Nb Eb]]];
    try rewrite Ea; try rewrite Eb.
  - reflexivity.
  - unfold canonical. cbn [SFcompare]. f_equal. symmetry. apply Z.compare_lt_iff. lia.
  - unfold canonical. cbn [SFcompare]. f_equal. symmetry. apply Z.compare_gt_iff. lia.
  - unfold canonical. cbn [SFcompare]. f_equal. symmetry. apply Z.compare_gt_iff. lia.
  - apply compare_canonical; try apply D; lia.
  - unfold canonical. cbn [SFcompare]. f_equal. symmetry. apply Z.compare_gt_iff. lia.
  - unfold canonical. cbn [SFcompare]. f_equal. symmetry. apply Z.compare_lt_iff. lia.
  - unfold canonical. cbn [SFcompare]. f_equal. symmetry. apply Z.compare_lt_iff. lia.
  - destruct (compare_canonical (- a) (- b)) as [_ H]; try apply D; try lia.
    rewrite H. f_equal. rewrite Z.compare_opp. reflexivity.
Qed.

Lemma of_Z_finite n :
  n <> 0 -> Z.abs n < 2 ^ 24 ->
  exists s T m,
    of_Z n = S754_finite s m (digits T - 24) /\
    Zpos m = T * 2 ^ (24 - digits T) /\
    n = cond_Zopp s T /\ 0 < T /\ digits T <= 24.
Proof.
  intros Hn Hb.
  destruct (of_Z_cases n Hb) as [[-> _] | [[Hp E] | [Hm E]]]; [congruence | |].
  - assert (Hd : digits n <= 24) by (apply digits_bound; lia).
    destruct (canonical_mantissa_value 24 false n Hp Hd) as (m & Em & Hv).
    exists false, n, m. rewrite E. repeat split; assumption.
  - assert (Hd : digits (- n) <= 24) by (apply digits_bound; lia).
    destruct (canonical_mantissa_value 24 true (- n) ltac:(lia) Hd) as (m & Em & Hv).
    exists true, (- n), m. rewrite E. repeat split; try assumption; simpl; lia.
Qed.

Lemma binary_normalize_of_Z n j :
  Z.abs n < 2 ^ 24 -> 0 <= j ->
  binary_normalize 24 128 (n * 2 ^ j) (- j) false = of_Z n.
Proof.
  intros Hb Hj.
  destruct (of_Z_cases n Hb) as [[-> E] | [[Hp E] | [Hm E]]]; rewrite E.
  - reflexivity.
  - apply binary_normalize_exact; try lia. apply digits_bound; lia.
  - replace (n * 2 ^ j) with (- (- n * 2 ^ j)) by ring.
    apply binary_normalize_exact; try lia. apply digits_bound; lia.
Qed.

Lemma aligned_mantissa m T e ez :
  0 < T -> digits T <= 24 -> Zpos m = T * 2 ^ (24 - digits T) ->
  e = digits T - 24 -> ez <= e ->
  Zpos (fst (shl_align m e ez)) = T * 2 ^ (- ez).
Proof.
  intros HT Hd Hm -> Hez.
  destruct (shl_align_value m (digits T - 24) ez Hez) as [-> _].
  rewrite Hm, <- Z.mul_assoc, <- Z.pow_add_r by lia.
  f_equal. f_equal. lia.
Qed.

(** Adding and subtracting pixel coordinates in single precision is exact. *)
Lemma add_sub_of_Z a b :
  Z.abs a < 2 ^ 23 -> Z.abs b < 2 ^ 23 ->
  SFadd 24 128 (of_Z a) (of_Z b) = of_Z (a + b) /\
  SFsub 24 128 (of_Z a) (of_Z b) = of_Z (a - b).
Proof.
  intros Ha Hb.
  assert (P23 : 2 ^ 23 = 8388608) by reflexivity.
  assert (P24 : 2 ^ 24 = 16777216) by reflexivity.
  destruct (Z.eq_dec a 0) as [-> | Na]; [|destruct (Z.eq_dec b 0) as [-> | Nb]].
  - change (of_Z 0) with (S754_zero false). rewrite Z.add_0_l, Z.sub_0_l.
    destruct (Z.eq_dec b 0) as [-> | Nb]; [split; reflexivity|].
    destruct (of_Z_finite b Nb ltac:(lia)) as (s & T & m & E & Hm & Hv & HT & Hd).
    rewrite E. cbn [SFadd SFsub]. split; [reflexivity|].
    destruct (of_Z_cases (- b) ltac:(lia)) as [[Hz _] | [[Hp E'] | [Hn E']]];
      [lia | |]; rewrite E'; unfold canonical.
    + destruct s; simpl in Hv; [|lia].
      replace (- b) with T by lia. f_equal. lia.
    + destruct s; simpl in Hv; [lia|].
      replace (- - b) with T by lia. f_equal. lia.
  - change (of_Z 0) with (S754_zero false). rewrite Z.add_0_r, Z.sub_0_r.
    destruct (of_Z_finite a Na ltac:(lia)) as (s & T & m & E & Hm & Hv & HT & Hd).
    rewrite E. split; reflexivity.
  - destruct (of_Z_finite a Na ltac:(lia)) as (sa & Ta & ma & Ea & Hma & Hva & HTa & Hda).
    destruct (of_Z_finite b Nb ltac:(lia)) as (sb & Tb & mb & Eb & Hmb & Hvb & HTb & Hdb).
    rewrite Ea, Eb. cbn [SFadd SFsub].
    set (ez := Z.min (digits Ta - 24) (digits Tb - 24)).
    assert (Hez : ez <= digits Ta - 24 /\ ez <= digits Tb - 24 /\ ez <= 0)
      by (subst ez; lia).
    rewrite (aligned_mantissa ma Ta _ ez) by (auto; lia).
    rewrite (aligned_mantissa mb Tb _ ez) by (auto; lia).
    replace ez with (- - ez) at 3 6 by lia.
    split.
    + replace (cond_Zopp sa (Ta * 2 ^ (- ez)) + cond_Zopp sb (Tb * 2 ^ (- ez)))
        with ((a + b) * 2 ^ (- ez))
        by (rewrite Hva, Hvb; destruct sa, sb; simpl; ring).
      apply binary_normalize_of_Z; lia.
    + replace (cond_Zopp sa (Ta * 2 ^ (- ez)) - cond_Zopp sb (Tb * 2 ^ (- ez)))
        with ((a - b) * 2 ^ (- ez))
        by (rewrite Hva, Hvb; destruct sa, sb; simpl; ring).
      apply binary_normalize_of_Z; lia.
Qed.

End FloatFacts.

(** ** Hit tests *)

Lemma hitsNoButton_inv p :
  hitsNoButton p = true ->
  isClicked lineButton p = false /\ isClicked rectButton p = false /\
  isClicked circleButton p = false /\ isClicked clearButton p = false /\
  isClicked undoButton p = false /\ isClicked saveButton p = false.
Proof.
  unfold hitsNoButton. intros H.
  repeat (apply andb_prop in H; destruct H as [H ?]).
  repeat match goal with
         | E : negb _ = true |- _ => apply negb_true_iff in E
         end.
  repeat split; assumption.
Qed.

Lemma leb_of_Z a b :
  Z.abs a < 2 ^ 24 -> Z.abs b < 2 ^ 24 ->
  Float.leb (Float.of_Z a) (Float.of_Z b) = (a <=? b).
Proof.
  intros Ha Hb. unfold Float.leb, SFleb, Z.leb.
  rewrite FloatFacts.compare_of_Z by assumption.
  destruct (a ?= b); reflexivity.
Qed.

Lemma ltb_of_Z a b :
  Z.abs a < 2 ^ 24 -> Z.abs b < 2 ^ 24 ->
  Float.ltb (Float.of_Z a) (Float.of_Z b) = (a <? b).
Proof.
  intros Ha Hb. unfold Float.ltb, SFltb, Z.ltb.
  rewrite FloatFacts.compare_of_Z by assumption.
  destruct (a ?= b); reflexivity.
Qed.

(** The region of a button placed and sized in whole pixels, for a cursor
    in the pixel range. *)
Lemma isClicked_region L T W H text p :
  0 <= W -> 0 <= H ->
  Z.abs L < 2 ^ 22 -> Z.abs T < 2 ^ 22 -> W < 2 ^ 22 -> H < 2 ^ 22 ->
  Z.abs (Vector2i.x p) < 2 ^ 24 -> Z.abs (Vector2i.y p) < 2 ^ 24 ->
  isClicked (mkButton (Vector2f.of_ints L T) (Vector2f.of_ints W H) text) p = true
  <-> L <= Vector2i.x p < L + W /\ T <= Vector2i.y p < T + H.
Proof.
  intros HW HH HL HT HW' HH' Hx Hy.
  assert (P22 : 2 ^ 22 = 4194304) by reflexivity.
  assert (P23 : 2 ^ 23 = 8388608) by reflexivity.
  assert (P24 : 2 ^ 24 = 16777216) by reflexivity.
  unfold isClicked, contains, getGlobalBounds, toVector2f, Vector2f.of_ints.
  cbn [left top width height buttonPosition buttonSize Vector2f.x Vector2f.y].
  unfold Float.add.
  destruct (FloatFacts.add_sub_of_Z L W ltac:(lia) ltac:(lia)) as [-> _].
  destruct (FloatFacts.add_sub_of_Z T H ltac:(lia) ltac:(lia)) as [-> _].
  unfold Float.min, Float.max. rewrite !ltb_of_Z by lia.
  replace (L + W <? L) with false by (symmetry; apply Z.ltb_ge; lia).
  replace (T + H <? T) with false by (symmetry; apply Z.ltb_ge; lia).
  assert (MX : (if L <? L + W then Float.of_Z (L + W) else Float.of_Z L)
               = Float.of_Z (L + W)).
  { destruct (L <? L + W) eqn:E; [reflexivity|].
    apply Z.ltb_ge in E. f_equal. lia. }
  assert (MY : (if T <? T + H then Float.of_Z (T + H) else Float.of_Z T)
               = Float.of_Z (T + H)).
  { destruct (T <? T + H) eqn:E; [reflexivity|].
    apply Z.ltb_ge in E. f_equal. lia. }
  rewrite MX, MY, !leb_of_Z, !ltb_of_Z by lia.
  rewrite !andb_true_iff, !Z.leb_le, !Z.ltb_lt. lia.
Qed.

Lemma lineButton_hit p :
  Z.abs (Vector2i.x p) < 2 ^ 24 -> Z.abs (Vector2i.y p) < 2 ^ 24 ->
  isClicked lineButton p = true
  <-> 10 <= Vector2i.x p < 110 /\ 10 <= Vector2i.y p < 60.
Proof.
  intros Hx Hy. unfold lineButton.
  rewrite isClicked_region by (assumption || reflexivity || discriminate).
  lia.
Qed.

(** Distinct pixel positions are distinct float vectors. *)
Lemma toVector2f_inj p q :
  Z.abs (Vector2i.x p) < 2 ^ 24 -> Z.abs (Vector2i.y p) < 2 ^ 24 ->
  Z.abs (Vector2i.x q) < 2 ^ 24 -> Z.abs (Vector2i.y q) < 2 ^ 24 ->
  toVector2f p = toVector2f q -> p = q.
Proof.
  destruct p as [px py], q as [qx qy]. cbn [Vector2i.x Vector2i.y].
  intros Hpx Hpy Hqx Hqy E. unfold toVector2f, Vector2f.of_ints in E.
  cbn [Vector2i.x Vector2i.y] in E. injection E as Ex Ey.
  apply FloatFacts.of_Z_inj in Ex; [|assumption..].
  apply FloatFacts.of_Z_inj in Ey; [|assumption..].
  subst. reflexivity.
Qed.

(** A float at or above a positive constant is not below a smaller one. *)
Lemma leb_then_not_ltb m1 e1 m2 e2 f :
  e2 < e1 \/ (e2 = e1 /\ (m2 <= m1)%positive) ->
  Float.leb (S754_finite false m1 e1) f = true ->
  Float.ltb f (S754_finite false m2 e2) = false.
Proof.
  intros Hc. unfold Float.leb, Float.ltb, SFleb, SFltb.
  destruct f as [s|s| |s m e]; cbn [SFcompare]; try discriminate.
  - destruct s; [discriminate | reflexivity].
  - destruct s; [discriminate|].
    rewrite !Pos.compare_cont_spec.
    destruct (Z.compare_spec e1 e) as [E1 | E1 | E1]; try discriminate;
      destruct (Z.compare_spec e e2) as [E2 | E2 | E2]; try reflexivity; try lia.
    destruct (Pos.compare_spec m1 m) as [M1 | M1 | M1]; cbn [Pos.switch_Eq];
      try discriminate; intros _;
      destruct (Pos.compare_spec m m2) as [M2 | M2 | M2]; cbn [Pos.switch_Eq];
      try reflexivity; lia.
Qed.

(** The hit test of one of the six buttons, its bounds computed. *)
Ltac button_bounds :=
  unfold isClicked, contains, toVector2f, Vector2f.of_ints;
  cbn [getGlobalBounds lineButton rectButton circleButton clearButton
       saveButton undoButton left top width height buttonPosition buttonSize
       Vector2f.x Vector2f.y Vector2f.of_ints];
  repeat match goal with
         | |- context [Float.min ?a ?b] =>
             let v := eval vm_compute in (Float.min a b) in
             change (Float.min a b) with v
         | |- context [Float.max ?a ?b] =>
             let v := eval vm_compute in (Float.max a b) in
             change (Float.max a b) with v
         end.

(** A button is never hit together with a button on its left. *)
Ltac not_left_of :=
  intros Hit; button_bounds; revert Hit; button_bounds; intros Hit;
  repeat (apply andb_prop in Hit; destruct Hit as [Hit ?]);
  match goal with
  | |- _ && Float.ltb ?f ?c && _ && _ = false =>
      replace (Float.ltb f c) with false;
      [rewrite andb_false_r; reflexivity |
       symmetry; eapply leb_then_not_ltb; [|eassumption];
       first [left; lia | right; split; [reflexivity | lia]]]
  end.

Lemma clearButton_only p :
  isClicked clearButton p = true ->
  isClicked lineButton p = false /\ isClicked rectButton p = false /\
  isClicked circleButton p = false.
Proof.
  intros H. repeat split; revert H; not_left_of.
Qed.

Lemma undoButton_only p :
  isClicked undoButton p = true ->
  isClicked lineButton p = false /\ isClicked rectButton p = false /\
  isClicked circleButton p = false /\ isClicked clearButton p = false.
Proof.
  intros H. repeat split; revert H; not_left_of.
Qed.

(** ** The two branches of the mouse handler *)

Lemma ShapeType_eqb_None t :
  negb (ShapeType.eqb t ShapeType.None) = true <-> t <> ShapeType.None.
Proof. destruct t; simpl; split; congruence. Qed.

(** A click on the canvas with a tool selected starts a placement. *)
Lemma clickWhenIdle_canvas p app :
  hitsNoButton p = true -> currentShapeType app <> ShapeType.None ->
  clickWhenIdle p app = set_isDrawing true (set_startPos (toVector2f p) app).
Proof.
  intros Hp Ht. apply hitsNoButton_inv in Hp.
  destruct Hp as (H1 & H2 & H3 & H4 & H5 & H6).
  unfold clickWhenIdle. rewrite H1, H2, H3, H4, H5, H6.
  apply ShapeType_eqb_None in Ht. rewrite Ht. reflexivity.
Qed.

(** A click on the canvas with no tool selected does nothing. *)
Lemma clickWhenIdle_no_tool p app :
  hitsNoButton p = true -> currentShapeType app = ShapeType.None ->
  clickWhenIdle p app = app.
Proof.
  intros Hp Ht. apply hitsNoButton_inv in Hp.
  destruct Hp as (H1 & H2 & H3 & H4 & H5 & H6).
  unfold clickWhenIdle. rewrite H1, H2, H3, H4, H5, H6, Ht. reflexivity.
Qed.

Lemma clickWhenIdle_clear p app :
  isClicked clearButton p = true -> clickWhenIdle p app = clear app.
Proof.
  intros H. destruct (clearButton_only p H) as (H1 & H2 & H3).
  unfold clickWhenIdle. rewrite H1, H2, H3, H. reflexivity.
Qed.

Lemma clickWhenIdle_undo p app :
  isClicked undoButton p = true -> clickWhenIdle p app = undo app.
Proof.
  intros H. destruct (undoButton_only p H) as (H1 & H2 & H3 & H4).
  unfold clickWhenIdle. rewrite H1, H2, H3, H4, H. reflexivity.
Qed.

Lemma committed_shapeType app endPos s :
  committed app endPos s -> shapeType s = currentShapeType app.
Proof.
  unfold committed. destruct (currentShapeType app); intros H;
    [contradiction | subst s; reflexivity ..].
Qed.

Lemma clickWhenDrawing_commits endPos app :
  currentShapeType app <> ShapeType.None ->
  exists s,
    committed app endPos s /\
    clickWhenDrawing endPos app =
      set_isDrawing false
        (set_currentShapeType ShapeType.None
           (set_shapes (push_back (shapes app) s) app)).
Proof.
  intros Ht. unfold clickWhenDrawing, committed.
  destruct (currentShapeType app); [congruence | ..];
    eexists; (split; [reflexivity | reflexivity]).
Qed.

(** ** The event loop *)

Lemma handleEvents_closed queue app :
  window_isOpen app = false -> handleEvents queue app = app.
Proof. intros H. destruct queue; simpl; [|rewrite H]; reflexivity. Qed.

Lemma handleEvents_app queue1 queue2 app :
  handleEvents (queue1 ++ queue2) app
  = handleEvents queue2 (handleEvents queue1 app).
Proof.
  revert app. induction queue1 as [|inp rest IH]; intros app; [reflexivity|].
  simpl. destruct (window_isOpen app) eqn:Hopen; [apply IH|].
  symmetry. apply handleEvents_closed. exact Hopen.
Qed.

Lemma handleEvents_last queue inp app :
  handleEvents (queue ++ [inp]) app
  = if window_isOpen (handleEvents queue app)
    then pollBody inp (handleEvents queue app)
    else handleEvents queue app.
Proof. rewrite handleEvents_app. reflexivity. Qed.

(** The frames of [run] make one long queue. *)
Lemma run_concat frames app :
  run frames app = handleEvents (List.concat frames) app.
Proof.
  revert app. induction frames as [|queue rest IH]; intros app; [reflexivity|].
  simpl. rewrite handleEvents_app.
  destruct (window_isOpen app) eqn:Hopen; [apply IH|].
  rewrite (handleEvents_closed queue) by assumption.
  rewrite handleEvents_closed by assumption. reflexivity.
Qed.

Lemma handleEvents_cons inp queue app :
  window_isOpen app = true ->
  handleEvents (inp :: queue) app = handleEvents queue (pollBody inp app).
Proof. intros H. simpl. rewrite H. reflexivity. Qed.

Lemma pollBody_clickAt px py app :
  pollBody (clickAt px py) app = onMouseButtonPressed (Vector2i.mk px py) px py app.
Proof. reflexivity. Qed.

(** Where a list extended at its end is split. *)
Lemma snoc_split {A} (l : list A) (e : A) (l1 l2 : list A) :
  l ++ [e] = l1 ++ l2 ->
  (l2 = [] /\ l1 = l ++ [e]) \/ (exists l2', l2 = l2' ++ [e] /\ l = l1 ++ l2').
Proof.
  intros E. destruct l2 as [|h t].
  - left. rewrite app_nil_r in E. auto.
  - right. destruct (@exists_last _ (h :: t)) as (l2' & e' & E'); [discriminate|].
    rewrite E' in *. rewrite app_assoc in E. apply app_inj_tail in E.
    destruct E as [E1 E2]. subst. exists l2'. auto.
Qed.

(** ** The radius of a circle *)

Module RadiusFacts.
Import Float FloatFacts.

Lemma nan_dec (f : spec_float) : {f = S754_nan} + {f <> S754_nan}.
Proof. destruct f; [right; discriminate.. | left; reflexivity | right; discriminate]. Qed.

(** The square of a pixel difference, computed in double precision. *)
Lemma dpow2_of_Z n :
  n <> 0 -> Z.abs n < 2 ^ 24 ->
  dpow2 (to_double (of_Z n)) = canonical 53 false (n * n).
Proof.
  intros Hn Hb.
  assert (Habs : 0 < Z.abs n) by lia.
  assert (Hd : digits (Z.abs n) <= 24) by (apply digits_bound; lia).
  assert (Hd2 : digits (Z.abs n * Z.abs n) <= 53).
  { pose proof (digits_square_le _ Habs). lia. }
  destruct (of_Z_exact (Z.abs n) Habs Hd) as [Hp Hm].
  assert (E : exists s, of_Z n = canonical 24 s (Z.abs n)).
  { destruct (Z_lt_le_dec n 0).
    - exists true. rewrite <- Hm. f_equal. lia.
    - exists false. rewrite <- Hp. f_equal. lia. }
  destruct E as [s ->].
  rewrite to_double_exact by assumption.
  unfold dpow2. rewrite SFmul_exact by (assumption || lia).
  f_equal. lia.
Qed.

Lemma circleRadius_of_ints sx sy ex ey :
  Z.abs sx < 2 ^ 23 -> Z.abs sy < 2 ^ 23 ->
  Z.abs ex < 2 ^ 23 -> Z.abs ey < 2 ^ 23 ->
  circleRadius (Vector2f.of_ints sx sy) (Vector2f.of_ints ex ey)
  = radiusOfDifferences (ex - sx) (ey - sy).
Proof.
  intros Bsx Bsy Bex Bey.
  unfold circleRadius, radiusOfDifferences, Vector2f.of_ints, sub.
  cbn [Vector2f.x Vector2f.y].
  destruct (add_sub_of_Z ex sx Bex Bsx) as [_ ->].
  destruct (add_sub_of_Z ey sy Bey Bsy) as [_ ->].
  reflexivity.
Qed.

Lemma radiusOfDifferences_nonneg dx dy :
  nonneg (radiusOfDifferences dx dy) = true.
Proof.
  apply signed_nonneg. unfold radiusOfDifferences.
  apply of_double_signed, SFsqrt_signed.
  apply SFadd_signed; apply SFmul_self_signed;
    apply to_double_not_nan, of_Z_not_nan.
Qed.

Lemma radiusOfDifferences_exact dx dy k :
  Z.abs dx < 2 ^ 23 -> Z.abs dy < 2 ^ 23 -> 0 <= k ->
  dx * dx + dy * dy = k * k ->
  radiusOfDifferences dx dy = of_Z k.
Proof.
  unfold radiusOfDifferences. intros Hx Hy Hk E.
  assert (P23 : 2 ^ 23 = 8388608) by reflexivity.
  assert (P24 : 2 ^ 24 = 16777216) by reflexivity.
  assert (Hsum :
    k <> 0 ->
    dadd (dpow2 (to_double (of_Z dx))) (dpow2 (to_double (of_Z dy)))
    = canonical 53 false (k * k)).
  { intros Hk0. rewrite <- E.
    destruct (Z.eq_dec dx 0) as [Ex | Nx], (Z.eq_dec dy 0) as [Ey | Ny].
    - exfalso. rewrite Ex, Ey in E. nia.
    - rewrite Ex. change (dpow2 (to_double (of_Z 0))) with (S754_zero false).
      rewrite dpow2_of_Z by lia. reflexivity.
    - rewrite Ey. change (dpow2 (to_double (of_Z 0))) with (S754_zero false).
      rewrite dpow2_of_Z by lia. rewrite Z.add_0_r. reflexivity.
    - rewrite !dpow2_of_Z by lia. unfold dadd.
      apply SFadd_exact; try lia; try nia.
      apply digits_bound; [nia | lia |].
      assert (dx * dx < 2 ^ 46) by (change (2 ^ 46) with (8388608 * 8388608); nia).
      assert (dy * dy < 2 ^ 46) by (change (2 ^ 46) with (8388608 * 8388608); nia).
      change (2 ^ 53) with (128 * 2 ^ 46). lia. }
  destruct (Z.eq_dec k 0) as [-> | Hk0].
  - assert (dx = 0) by nia. assert (dy = 0) by nia.
    replace dx with 0 by auto. replace dy with 0 by auto. reflexivity.
  - rewrite (Hsum Hk0).
    assert (Hkk : k * k < 2 ^ 47).
    { rewrite <- E. change (2 ^ 47) with (2 * (8388608 * 8388608)). nia. }
    assert (Hk24 : k < 2 ^ 24).
    { change (2 ^ 47) with 140737488355328 in Hkk. nia. }
    assert (Hdk : digits k <= 24) by (apply digits_bound; lia).
    assert (Hdkk : digits (k * k) <= 53).
    { apply digits_bound; [nia | lia |]. change (2 ^ 53) with (64 * 2 ^ 47). lia. }
    unfold dsqrt. rewrite SFsqrt_exact by lia.
    rewrite of_double_exact by lia.
    symmetry. apply of_Z_exact; lia.
Qed.

Lemma pow4 j : 0 <= j -> 4 ^ j = 2 ^ j * 2 ^ j.
Proof. intros Hj. change 4 with (2 * 2). apply Z.pow_mul_l. Qed.

(** A float whose square is an integer [n] makes [n] a perfect square. *)
Lemma square_is_perfect_square f n :
  square_is f n -> exists k, 0 <= k /\ n = k * k.
Proof.
  assert (Descent : forall j, 0 <= j -> forall m,
             Zpos m * Zpos m = n * 4 ^ j -> exists k, 0 <= k /\ n = k * k).
  { intros j Hj. pattern j. apply natlike_ind; [| |exact Hj].
    - intros m E. exists (Zpos m). split; [lia|]. change (4 ^ 0) with 1 in E. lia.
    - intros i Hi IH m E. rewrite Z.pow_succ_r in E by exact Hi.
      destruct m as [m|m|]; try lia.
      apply (IH m). lia. }
  destruct f as [s|s| |s m e]; cbn [square_is]; try contradiction.
  - intros ->. exists 0. split; lia.
  - destruct (0 <=? e) eqn:He.
    + apply Z.leb_le in He. intros <-. exists (Zpos m * 2 ^ e).
      split; [apply Z.mul_nonneg_nonneg; [lia | apply Z.pow_nonneg; lia]|].
      rewrite pow4 by exact He. ring.
    + apply Z.leb_gt in He. apply Descent. lia.
Qed.

Lemma square_is_of_Z k :
  0 <= k -> k < 2 ^ 24 -> square_is (of_Z k) (k * k).
Proof.
  intros Hk Hb. destruct (Z.eq_dec k 0) as [-> | Hk0]; [reflexivity|].
  assert (Hpos : 0 < k) by lia.
  assert (Hd : digits k <= 24) by (apply digits_bound; lia).
  pose proof (digits_pos k Hpos) as Hd1.
  destruct (of_Z_exact k Hpos Hd) as [-> _].
  destruct (canonical_mantissa_value 24 false k Hpos Hd) as (m & -> & Hm).
  cbn [square_is]. rewrite Hm.
  destruct (0 <=? digits k - 24) eqn:He.
  - apply Z.leb_le in He. replace (digits k) with 24 by lia.
    change (2 ^ (24 - 24)) with 1. change (4 ^ (24 - 24)) with 1. ring.
  - replace (- (digits k - 24)) with (24 - digits k) by lia.
    rewrite pow4 by lia. ring.
Qed.

(** Within the range of pixel differences, the stored radius is the
    Euclidean distance exactly when that distance is an integer. *)
Lemma radiusOfDifferences_square_iff dx dy :
  Z.abs dx < 2 ^ 23 -> Z.abs dy < 2 ^ 23 ->
  square_is (radiusOfDifferences dx dy) (dx * dx + dy * dy)
  <-> exists k, 0 <= k /\ dx * dx + dy * dy = k * k.
Proof.
  intros Hx Hy. split; [apply square_is_perfect_square|].
  intros (k & Hk & E).
  rewrite (radiusOfDifferences_exact dx dy k Hx Hy Hk E), E.
  apply square_is_of_Z; [exact Hk|].
  assert (k * k < 2 ^ 47).
  { rewrite <- E. change (2 ^ 47) with (2 * (8388608 * 8388608)).
    change (2 ^ 23) with 8388608 in Hx, Hy. nia. }
  change (2 ^ 47) with 140737488355328 in H. change (2 ^ 24) with 16777216. nia.
Qed.

(** No floating-point value is the square root of 2. *)
Lemma square_is_not_2 (f : spec_float) : ~ square_is f 2.
Proof.
  intros H. apply square_is_perfect_square in H.
  destruct H as (k & Hk & E).
  assert (k = 0 \/ k = 1 \/ 2 <= k) as [-> | [-> | H2]] by lia; [lia | lia | nia].
Qed.

(** Whatever floats the two points hold, the radius is not a negative
    number: it is a NaN or has its sign bit clear. *)
Lemma circleRadius_never_negative startPos endPos :
  circleRadius startPos endPos = S754_nan \/
  nonneg (circleRadius startPos endPos) = true.
Proof.
  unfold circleRadius.
  set (dx := sub (Vector2f.x endPos) (Vector2f.x startPos)).
  set (dy := sub (Vector2f.y endPos) (Vector2f.y startPos)).
  destruct (nan_dec dx) as [Nx | Nx];
    [left; rewrite Nx; reflexivity|].
  destruct (nan_dec dy) as [Ny | Ny].
  { left. rewrite Ny. cbn [to_double dpow2 SFmul]. unfold dadd.
    destruct (dpow2 (to_double dx)); reflexivity. }
  right. apply signed_nonneg.
  apply of_double_signed, SFsqrt_signed.
  apply SFadd_signed; apply SFmul_self_signed;
    apply to_double_not_nan; assumption.
Qed.

End RadiusFacts.

(** ** C1 *)

(** C1.  In a state with a tool selected and no pending click, a click whose
    position [p] (the position the handler reads and tests) hits no button
    is recorded as the pending start, nothing else changing; the following
    click, with coordinates [(qx, qy)], appends exactly one shape to the
    canvas, of the type of the selected tool, with the geometry the tool
    derives from [p] and [(qx, qy)], both converted to [float]s: a line
    from [p] to [(qx, qy)], a rectangle at [p] of size [(qx, qy) - p], a
    circle at [p] whose radius is [circleRadius p (qx, qy)].  After that commit the tool selection is
    [None] and no click is pending. *)
Theorem two_click_placement
    (app : GraphicsApp) (p : Vector2i.t) (ex ey : Z) (cursor : Vector2i.t) (qx qy : Z) :
  ToolSelected app ->
  hitsNoButton p = true ->
  let app1 := onMouseButtonPressed p ex ey app in
  let app2 := onMouseButtonPressed cursor qx qy app1 in
  (pendingClick app1 = Some (toVector2f p) /\
   shapes app1 = shapes app /\
   currentShapeType app1 = currentShapeType app) /\
  (exists s,
     shapes app2 = shapes app ++ [s] /\
     shapeType s = currentShapeType app /\
     match currentShapeType app with
     | ShapeType.Line =>
         s = Line (toVector2f p) (Vector2f.of_ints qx qy) (currentColor app)
     | ShapeType.Rectangle =>
         s = Rectangle (toVector2f p)
               (Vector2f.sub (Vector2f.of_ints qx qy) (toVector2f p))
               (currentColor app)
     | ShapeType.Circle =>
         s = Circle (toVector2f p)
               (circleRadius (toVector2f p) (Vector2f.of_ints qx qy))
               (currentColor app)
     | ShapeType.None => False
     end) /\
  List.length (shapes app2) = S (List.length (shapes app)) /\
  undoStack app2 = undoStack app /\
  currentShapeType app2 = ShapeType.None /\
  pendingClick app2 = None.
Proof.
  intros [Hidle Htool] Hp app1 app2.
  assert (E1 : app1 = set_isDrawing true (set_startPos (toVector2f p) app)).
  { subst app1. unfold onMouseButtonPressed. rewrite Hidle. simpl.
    apply clickWhenIdle_canvas; assumption. }
  assert (Htool1 : currentShapeType app1 <> ShapeType.None)
    by (rewrite E1; exact Htool).
  destruct (clickWhenDrawing_commits (Vector2f.of_ints qx qy) app1 Htool1)
    as (s & Hs & E2).
  assert (E2' : app2 = clickWhenDrawing (Vector2f.of_ints qx qy) app1).
  { subst app2. unfold onMouseButtonPressed. rewrite E1. reflexivity. }
  rewrite E2 in E2'.
  split.
  - rewrite E1. unfold pendingClick. simpl. auto.
  - split.
    + exists s. split; [rewrite E2', E1; reflexivity|].
      split.
      * rewrite (committed_shapeType _ _ _ Hs), E1. reflexivity.
      * unfold committed in Hs. rewrite E1 in Hs.
        cbn [currentShapeType startPos currentColor set_isDrawing set_startPos] in Hs.
        exact Hs.
    + rewrite E2'. unfold pendingClick. simpl.
      rewrite length_push_back, E1. simpl. auto.
Qed.

(** The same two clicks seen from the event loop, the 'C' key being up
    during the second one. *)
Lemma two_click_placement_in_loop
    (app : GraphicsApp) (p : Vector2i.t) (ex ey : Z) (k : bool)
    (cursor : Vector2i.t) (qx qy : Z) :
  ToolSelected app ->
  hitsNoButton p = true ->
  let app1 := pollBody (mkInput (MouseButtonPressed ex ey) p k) app in
  let app2 := pollBody (mkInput (MouseButtonPressed qx qy) cursor false) app1 in
  pendingClick app1 = Some (toVector2f p) /\
  exists s,
    shapes app2 = shapes app1 ++ [s] /\
    shapeType s = currentShapeType app /\
    currentShapeType app2 = ShapeType.None /\
    pendingClick app2 = None.
Proof.
  intros [Hidle Htool] Hp app1 app2.
  assert (E1 : app1 = onKeyC k (set_isDrawing true (set_startPos (toVector2f p) app))).
  { subst app1. unfold pollBody, onMouseButtonPressed. cbn [event mousePosition keyC].
    rewrite Hidle. cbn [negb]. rewrite clickWhenIdle_canvas by assumption.
    reflexivity. }
  assert (Hd : isDrawing app1 = true) by (rewrite E1; destruct k; reflexivity).
  assert (Hs : startPos app1 = toVector2f p) by (rewrite E1; destruct k; reflexivity).
  assert (Ht : currentShapeType app1 = currentShapeType app)
    by (rewrite E1; destruct k; reflexivity).
  split; [unfold pendingClick; rewrite Hd, Hs; reflexivity|].
  destruct (clickWhenDrawing_commits (Vector2f.of_ints qx qy) app1) as (s & Hc & E).
  { rewrite Ht. exact Htool. }
  assert (E2 : app2 = clickWhenDrawing (Vector2f.of_ints qx qy) app1).
  { subst app2. unfold pollBody, onMouseButtonPressed. cbn [event mousePosition keyC].
    rewrite Hd. reflexivity. }
  exists s. rewrite E2, E. unfold pendingClick. simpl.
  rewrite (committed_shapeType _ _ _ Hc), Ht. auto.
Qed.

Lemma two_click_placement_witness :
  ToolSelected (set_currentShapeType ShapeType.Circle initial) /\
  hitsNoButton (Vector2i.mk 200 300) = true /\
  shapes (onMouseButtonPressed (Vector2i.mk 0 0) 203 304
            (onMouseButtonPressed (Vector2i.mk 200 300) 200 300
               (set_currentShapeType ShapeType.Circle initial)))
  = [Circle (Vector2f.of_ints 200 300) (Float.of_Z 5) White].
Proof.
  assert (H1 : ToolSelected (set_currentShapeType ShapeType.Circle initial))
    by (split; [reflexivity | discriminate]).
  assert (H2 : hitsNoButton (Vector2i.mk 200 300) = true) by reflexivity.
  split; [exact H1 | split; [exact H2 |]].
  destruct (two_click_placement _ _ 200 300 (Vector2i.mk 0 0) 203 304 H1 H2)
    as (_ & (s & Hs & _ & Hg) & _).
  rewrite Hs. cbn [currentShapeType set_currentShapeType initial] in Hg.
  rewrite Hg. vm_compute. reflexivity.
Defined.

(** ** C2 *)

(** C2.  In [Placing] the next click is the end point and no button region
    is tested: whatever the queried cursor position [mousePos] and the
    stored coordinates [(ex, ey)] are, also on a tool or command button, the
    handler appends the shape of the selected tool from the pending start
    to [(ex, ey)], selects no tool, clears nothing, undoes nothing, saves
    nothing, and leaves [Placing] with the tool reset to [None]. *)
Theorem placing_click_is_endpoint
    (app : GraphicsApp) (mousePos : Vector2i.t) (ex ey : Z) :
  Placing app ->
  let app' := onMouseButtonPressed mousePos ex ey app in
  (forall mousePos', onMouseButtonPressed mousePos' ex ey app = app') /\
  (exists s,
     committed app (Vector2f.of_ints ex ey) s /\
     shapeType s = currentShapeType app /\
     shapes app' = shapes app ++ [s]) /\
  undoStack app' = undoStack app /\
  drawing_png app' = drawing_png app /\
  window_isOpen app' = window_isOpen app /\
  currentColor app' = currentColor app /\
  currentShapeType app' = ShapeType.None /\
  pendingClick app' = None.
Proof.
  intros [Hd Ht] app'.
  assert (E : forall m, onMouseButtonPressed m ex ey app
                        = clickWhenDrawing (Vector2f.of_ints ex ey) app).
  { intros m. unfold onMouseButtonPressed. rewrite Hd. reflexivity. }
  destruct (clickWhenDrawing_commits (Vector2f.of_ints ex ey) app Ht) as (s & Hs & E').
  subst app'. split.
  - intros m'. rewrite !E. reflexivity.
  - rewrite E, E'. unfold pendingClick. simpl.
    repeat split; try reflexivity.
    exists s. repeat split; [exact Hs | exact (committed_shapeType _ _ _ Hs)].
Qed.

(** A rectangle is being placed from [(300, 300)], the canvas holds a line
    and the undo stack another: a click on the Clear button, at
    [(350, 20)], is the end point of the rectangle. *)
Lemma placing_click_is_endpoint_witness :
  Placing placingWithHistory /\
  isClicked clearButton (Vector2i.mk 350 20) = true /\
  shapes (onMouseButtonPressed (Vector2i.mk 350 20) 350 20 placingWithHistory)
  = [firstLine;
     Rectangle (Vector2f.of_ints 300 300) (Vector2f.of_ints 50 (-280)) White] /\
  undoStack (onMouseButtonPressed (Vector2i.mk 350 20) 350 20 placingWithHistory)
  = [secondLine].
Proof.
  assert (H : Placing placingWithHistory)
    by (split; vm_compute; [reflexivity | discriminate]).
  split; [exact H | split; [vm_compute; reflexivity |]].
  destruct (placing_click_is_endpoint _ (Vector2i.mk 350 20) 350 20 H)
    as (_ & (s & Hs & _ & Hshapes) & Hundo & _).
  rewrite Hshapes, Hundo. unfold committed in Hs.
  replace (currentShapeType placingWithHistory) with ShapeType.Rectangle in Hs
    by (vm_compute; reflexivity).
  rewrite Hs. split; vm_compute; reflexivity.
Defined.

(** ** C3 *)

Lemma undo_push_back app v s :
  shapes app = push_back v s ->
  undo app = set_shapes v (set_undoStack (push_back (undoStack app) s) app).
Proof.
  intros E. unfold undo.
  rewrite E, empty_push_back, back_push_back, pop_back_push_back. reflexivity.
Qed.

Lemma undo_empty app : shapes app = [] -> undo app = app.
Proof. intros E. unfold undo. rewrite E. reflexivity. Qed.

(** C3.  Undo on a non-empty canvas removes exactly its last shape [s] and
    pushes that [s] on the undo stack, nothing else changing; undo on an
    empty canvas changes nothing; from a canvas of two shapes [s1] then
    [s2], two undos empty the canvas and push [s2] then [s1], the order of
    removal; and outside [Placing] a click on the Undo button is that
    undo. *)
Theorem undo_moves_last_shape (app : GraphicsApp) :
  (shapes app <> [] ->
   exists v s,
     shapes app = v ++ [s] /\
     shapes (undo app) = v /\ undoStack (undo app) = undoStack app ++ [s] /\
     currentShapeType (undo app) = currentShapeType app /\
     isDrawing (undo app) = isDrawing app /\
     startPos (undo app) = startPos app /\
     drawing_png (undo app) = drawing_png app) /\
  (shapes app = [] -> undo app = app) /\
  (forall s1 s2, shapes app = [s1; s2] ->
     shapes (undo (undo app)) = [] /\
     undoStack (undo (undo app)) = undoStack app ++ [s2; s1]) /\
  (forall mousePos ex ey,
     isDrawing app = false -> isClicked undoButton mousePos = true ->
     onMouseButtonPressed mousePos ex ey app = undo app).
Proof.
  split; [|split; [|split]].
  - intros Hne. destruct (exists_last Hne) as (v & s & E).
    exists v, s. rewrite (undo_push_back app v s E). simpl.
    repeat split; try reflexivity. exact E.
  - apply undo_empty.
  - intros s1 s2 E.
    rewrite (undo_push_back app [s1] s2 E).
    rewrite (undo_push_back _ [] s1) by reflexivity.
    simpl. unfold push_back. rewrite <- app_assoc. auto.
  - intros mousePos ex ey Hd Hit. unfold onMouseButtonPressed.
    rewrite Hd. simpl. apply clickWhenIdle_undo. exact Hit.
Qed.

(** The scenario of the specification, from the initial state: two lines
    are placed and the Undo button is pressed twice. *)
Example undo_twice_scenario :
  handleEvents
    [clickAt 60 35; clickAt 100 100; clickAt 200 200;
     clickAt 60 35; clickAt 300 300; clickAt 400 400;
     clickAt 600 30; clickAt 600 30] initial
  = mkApp true [] White ShapeType.None false (Vector2f.of_ints 300 300)
      [Line (Vector2f.of_ints 300 300) (Vector2f.of_ints 400 400) White;
       Line (Vector2f.of_ints 100 100) (Vector2f.of_ints 200 200) White] None.
Proof. vm_compute. reflexivity. Qed.

Lemma undo_moves_last_shape_witness :
  shapes twoLines = [firstLine] ++ [secondLine] /\
  isDrawing twoLines = false /\
  isClicked undoButton (Vector2i.mk 600 30) = true /\
  shapes (onMouseButtonPressed (Vector2i.mk 600 30) 600 30 twoLines) = [firstLine] /\
  undoStack (onMouseButtonPressed (Vector2i.mk 600 30) 600 30 twoLines)
  = [secondLine].
Proof.
  assert (E : shapes twoLines = [firstLine] ++ [secondLine])
    by (vm_compute; reflexivity).
  assert (D : isDrawing twoLines = false) by (vm_compute; reflexivity).
  assert (B : isClicked undoButton (Vector2i.mk 600 30) = true)
    by (vm_compute; reflexivity).
  split; [exact E | split; [exact D | split; [exact B |]]].
  destruct (undo_moves_last_shape twoLines) as (Hlast & _ & _ & Hbutton).
  rewrite (Hbutton (Vector2i.mk 600 30) 600 30 D B).
  destruct Hlast as (v & s & E' & Hs & Hu & _);
    [rewrite E; discriminate|].
  rewrite E in E'. apply app_inj_tail in E'. destruct E' as [<- <-].
  rewrite Hs, Hu. split; vm_compute; reflexivity.
Defined.

(** ** C4 *)

(** C4.  The clear operation of the Clear button empties the canvas and the
    undo stack whatever they hold and touches nothing else; so undo
    followed by clear leaves both empty; and outside [Placing] a click on
    the Clear button is that operation. *)
Theorem clear_empties_canvas_and_undo_stack (app : GraphicsApp) :
  clear app = mkApp (window_isOpen app) [] (currentColor app)
                (currentShapeType app) (isDrawing app) (startPos app) []
                (drawing_png app) /\
  (shapes (clear (undo app)) = [] /\ undoStack (clear (undo app)) = []) /\
  (forall mousePos ex ey,
     isDrawing app = false -> isClicked clearButton mousePos = true ->
     onMouseButtonPressed mousePos ex ey app = clear app).
Proof.
  split; [reflexivity | split; [split; reflexivity |]].
  intros mousePos ex ey Hd Hit. unfold onMouseButtonPressed.
  rewrite Hd. simpl. apply clickWhenIdle_clear. exact Hit.
Qed.

(** Two lines, the Undo button, then the Clear button. *)
Lemma clear_empties_canvas_and_undo_stack_witness :
  isDrawing (undo twoLines) = false /\
  isClicked clearButton (Vector2i.mk 350 20) = true /\
  undoStack (undo twoLines) = [secondLine] /\
  shapes (onMouseButtonPressed (Vector2i.mk 350 20) 350 20 (undo twoLines)) = [] /\
  undoStack (onMouseButtonPressed (Vector2i.mk 350 20) 350 20 (undo twoLines)) = [].
Proof.
  assert (D : isDrawing (undo twoLines) = false) by (vm_compute; reflexivity).
  assert (B : isClicked clearButton (Vector2i.mk 350 20) = true)
    by (vm_compute; reflexivity).
  split; [exact D | split; [exact B | split; [vm_compute; reflexivity |]]].
  destruct (clear_empties_canvas_and_undo_stack (undo twoLines))
    as (_ & _ & Hbutton).
  rewrite (Hbutton (Vector2i.mk 350 20) 350 20 D B).
  split; reflexivity.
Defined.

(** ** C5 *)

(** A rectangle is being placed from [(300, 300)] when an event arrives
    with the 'C' key down: the click is still pending afterwards, so the key
    does not discard it. *)
Lemma clear_key_keeps_the_pending_click :
  Placing placingRectangle /\
  pendingClick (pollBody (mkInput OtherEvent (Vector2i.mk 300 300) true)
                  placingRectangle)
  = Some (Vector2f.of_ints 300 300) /\
  ~ pendingClick (pollBody (mkInput OtherEvent (Vector2i.mk 300 300) true)
                    placingRectangle)
    = None.
Proof.
  split; [split; vm_compute; [reflexivity | discriminate] |].
  split; vm_compute; [reflexivity | discriminate].
Qed.

(** C5 (amended).  The 'C' key empties the canvas and the undo stack in
    every state, whatever the event of the iteration is, and modifies no
    other field: in particular the pending click and the tool selection are
    both kept when it fires during a placement, and the next click then
    commits the shape on the emptied canvas. *)
Theorem clear_key_effect (app : GraphicsApp) :
  onKeyC true app = mkApp (window_isOpen app) [] (currentColor app)
                      (currentShapeType app) (isDrawing app) (startPos app) []
                      (drawing_png app) /\
  (forall inp, keyC inp = true ->
     shapes (pollBody inp app) = [] /\ undoStack (pollBody inp app) = []) /\
  (forall mousePos,
     pollBody (mkInput OtherEvent mousePos true) app = onKeyC true app) /\
  pendingClick (onKeyC true app) = pendingClick app /\
  currentShapeType (onKeyC true app) = currentShapeType app /\
  (Placing app -> forall mousePos ex ey,
     exists s,
       committed app (Vector2f.of_ints ex ey) s /\
       shapes (onMouseButtonPressed mousePos ex ey (onKeyC true app)) = [s]).
Proof.
  split; [reflexivity|]. split.
  - intros inp Hk. unfold pollBody. rewrite Hk. split; reflexivity.
  - split; [reflexivity|]. split; [reflexivity|]. split; [reflexivity|].
    intros [Hd Ht] mousePos ex ey.
    destruct (clickWhenDrawing_commits (Vector2f.of_ints ex ey) (onKeyC true app) Ht)
      as (s & Hs & E).
    exists s. split; [exact Hs|].
    unfold onMouseButtonPressed.
    replace (isDrawing (onKeyC true app)) with true by (symmetry; exact Hd).
    simpl negb. cbv iota. rewrite E. reflexivity.
Qed.

(** The completing click arrives with the 'C' key down: the rectangle is
    committed and wiped in the same iteration. *)
Lemma clear_key_effect_witness :
  keyC (mkInput (MouseButtonPressed 400 400) (Vector2i.mk 400 400) true) = true /\
  Placing placingWithHistory /\
  shapes (pollBody (mkInput (MouseButtonPressed 400 400) (Vector2i.mk 400 400) true)
            placingWithHistory) = [] /\
  shapes (onMouseButtonPressed (Vector2i.mk 400 400) 400 400
            (onKeyC true placingWithHistory))
  = [Rectangle (Vector2f.of_ints 300 300) (Vector2f.of_ints 100 100) White].
Proof.
  assert (H : Placing placingWithHistory)
    by (split; vm_compute; [reflexivity | discriminate]).
  split; [reflexivity | split; [exact H |]].
  destruct (clear_key_effect placingWithHistory) as (_ & Hany & _ & _ & _ & Hnext).
  destruct (Hany (mkInput (MouseButtonPressed 400 400) (Vector2i.mk 400 400) true)
              eq_refl) as [Hs _].
  split; [exact Hs|].
  destruct (Hnext H (Vector2i.mk 400 400) 400 400) as (s & Hc & Hshapes).
  rewrite Hshapes. unfold committed in Hc.
  replace (currentShapeType placingWithHistory) with ShapeType.Rectangle in Hc
    by (vm_compute; reflexivity).
  rewrite Hc. vm_compute. reflexivity.
Defined.

(** ** C6 *)

(** The tool selection and the pending click are only written by the mouse
    handler. *)
Lemma pollBody_tool_and_pending inp app :
  currentShapeType (pollBody inp app)
  = match event inp with
    | MouseButtonPressed ex ey =>
        currentShapeType (onMouseButtonPressed (mousePosition inp) ex ey app)
    | _ => currentShapeType app
    end /\
  isDrawing (pollBody inp app)
  = match event inp with
    | MouseButtonPressed ex ey =>
        isDrawing (onMouseButtonPressed (mousePosition inp) ex ey app)
    | _ => isDrawing app
    end.
Proof.
  unfold pollBody. destruct (event inp), (keyC inp); split; reflexivity.
Qed.

(** What one mouse press does to the selection and the pending click. *)
Lemma onMouseButtonPressed_selection mousePos ex ey app :
  let app' := onMouseButtonPressed mousePos ex ey app in
  (isDrawing app = true ->
     currentShapeType app' = ShapeType.None /\ isDrawing app' = false) /\
  (isDrawing app = false -> hitsToolButton mousePos = true ->
     currentShapeType app' <> ShapeType.None /\ isDrawing app' = false) /\
  (isDrawing app = false -> hitsToolButton mousePos = false ->
     currentShapeType app' = currentShapeType app /\
     (isDrawing app' = true -> currentShapeType app <> ShapeType.None)).
Proof.
  unfold onMouseButtonPressed, hitsToolButton. cbv zeta.
  split; [|split].
  - intros Hd. rewrite Hd. cbn [negb]. split; reflexivity.
  - intros Hd Hit. rewrite Hd. cbn [negb]. unfold clickWhenIdle.
    destruct (isClicked lineButton mousePos);
      [split; [discriminate | exact Hd]|].
    destruct (isClicked rectButton mousePos);
      [split; [discriminate | exact Hd]|].
    destruct (isClicked circleButton mousePos);
      [split; [discriminate | exact Hd]|].
    discriminate Hit.
  - intros Hd Hit. rewrite Hd. cbn [negb]. unfold clickWhenIdle.
    apply orb_false_iff in Hit. destruct Hit as [Hit H3].
    apply orb_false_iff in Hit. destruct Hit as [H1 H2].
    rewrite H1, H2, H3.
    destruct (isClicked clearButton mousePos);
      [split; [reflexivity | simpl; congruence]|].
    destruct (isClicked undoButton mousePos).
    { unfold undo. destruct (negb (empty (shapes app))), (back (shapes app));
        split; try reflexivity; simpl; congruence. }
    destruct (isClicked saveButton mousePos);
      [split; [reflexivity | simpl; congruence]|].
    destruct (currentShapeType app) eqn:Ht; simpl; rewrite ?Ht; split;
      try reflexivity; try discriminate; intros; congruence.
Qed.

(** One iteration of the loop, seen from the selection. *)
Lemma pollBody_selection inp app :
  window_isOpen app = true ->
  let app' := pollBody inp app in
  (isDrawing app = true -> currentShapeType app <> ShapeType.None ->
     isDrawing app' = true -> currentShapeType app' <> ShapeType.None) /\
  (isDrawing app = false ->
     isDrawing app' = true -> currentShapeType app' <> ShapeType.None) /\
  (isDrawing app' = false -> currentShapeType app' <> ShapeType.None ->
     isToolButtonPress app inp = true \/
     (isDrawing app = false /\ currentShapeType app' = currentShapeType app)).
Proof.
  intros Hopen app'.
  destruct (pollBody_tool_and_pending inp app) as [Et Ed].
  fold app' in Et, Ed. unfold isToolButtonPress. rewrite Hopen.
  revert Et Ed. destruct (event inp) as [|ex ey|]; intros Et Ed.
  - rewrite Et, Ed. split; [auto | split; [congruence|]].
    intros Hd _. right. split; [exact Hd | reflexivity].
  - destruct (onMouseButtonPressed_selection (mousePosition inp) ex ey app)
      as (Hplacing & Htool & Hother).
    rewrite Et, Ed. clear Et Ed. split; [|split].
    + intros Hd _ Hd'. destruct (Hplacing Hd) as [_ Hf]. congruence.
    + intros Hd Hd'.
      destruct (hitsToolButton (mousePosition inp)) eqn:Hit.
      * destruct (Htool Hd eq_refl) as [_ Hf]. congruence.
      * destruct (Hother Hd eq_refl) as [Hsame Hsel].
        rewrite Hsame. exact (Hsel Hd').
    + intros Hd' Ht'.
      destruct (isDrawing app) eqn:Hd.
      * destruct (Hplacing eq_refl) as [Hnone _]. congruence.
      * destruct (hitsToolButton (mousePosition inp)) eqn:Hit.
        -- left. reflexivity.
        -- right. destruct (Hother eq_refl eq_refl) as [Hsame _]. auto.
  - rewrite Et, Ed. split; [auto | split; [congruence|]].
    intros Hd _. right. split; [exact Hd | reflexivity].
Qed.

(** Line is selected and the Undo button is pressed: no click is pending,
    the last event was not a tool button press, and the selection is still
    Line.  So it does not hold that, a tool button press apart, every state
    without a pending click has the selection [None]. *)
Lemma selection_outlives_the_tool_press :
  isDrawing (handleEvents [clickAt 60 35; clickAt 600 30] initial) = false /\
  currentShapeType (handleEvents [clickAt 60 35; clickAt 600 30] initial)
  = ShapeType.Line /\
  isToolButtonPress (handleEvents [clickAt 60 35] initial) (clickAt 600 30) = false /\
  ~ (forall inputs inp,
       isDrawing (handleEvents (inputs ++ [inp]) initial) = false ->
       currentShapeType (handleEvents (inputs ++ [inp]) initial) = ShapeType.None \/
       isToolButtonPress (handleEvents inputs initial) inp = true).
Proof.
  assert (D : isDrawing (handleEvents ([clickAt 60 35] ++ [clickAt 600 30]) initial)
              = false) by (vm_compute; reflexivity).
  split; [vm_compute; reflexivity|].
  split; [vm_compute; reflexivity|].
  split; [vm_compute; reflexivity|].
  intros H.
  destruct (H [clickAt 60 35] (clickAt 600 30) D) as [E | E];
    vm_compute in E; discriminate E.
Qed.

(** C6 (amended).  In every state reached from the initial state, a pending
    click comes with a selected tool; and when no click is pending, the tool
    selection is [None] unless a tool button has been pressed and no
    placement has been started since: the selection made by the press stays
    through the command buttons, the key and the other events until the next
    placement.  The click that commits a shape resets the selection to
    [None] and clears the pending click. *)
Theorem tool_selection_invariant (inputs : list Input) :
  (isDrawing (handleEvents inputs initial) = true ->
   currentShapeType (handleEvents inputs initial) <> ShapeType.None) /\
  (isDrawing (handleEvents inputs initial) = false ->
   currentShapeType (handleEvents inputs initial) <> ShapeType.None ->
   exists before press after,
     inputs = before ++ press :: after /\
     isToolButtonPress (handleEvents before initial) press = true /\
     forall after1 after2, after = after1 ++ after2 ->
       isDrawing (handleEvents (before ++ press :: after1) initial) = false /\
       currentShapeType (handleEvents (before ++ press :: after1) initial)
       = currentShapeType (handleEvents inputs initial)) /\
  (forall inp ex ey,
     window_isOpen (handleEvents inputs initial) = true ->
     isDrawing (handleEvents inputs initial) = true ->
     event inp = MouseButtonPressed ex ey ->
     currentShapeType (handleEvents (inputs ++ [inp]) initial) = ShapeType.None /\
     isDrawing (handleEvents (inputs ++ [inp]) initial) = false).
Proof.
  split; [|split].
  - induction inputs as [|inp inputs IH] using rev_ind; [discriminate|].
    rewrite handleEvents_last.
    destruct (window_isOpen (handleEvents inputs initial)) eqn:Hopen; [|exact IH].
    destruct (pollBody_selection inp _ Hopen) as (Hkeep & Hstart & _).
    destruct (isDrawing (handleEvents inputs initial)) eqn:Hd.
    + apply Hkeep; [reflexivity | apply IH; reflexivity].
    + apply Hstart. reflexivity.
  - induction inputs as [|inp inputs IH] using rev_ind.
    { intros _ H. exfalso. apply H. reflexivity. }
    assert (Extend :
      isDrawing (handleEvents (inputs ++ [inp]) initial) = false ->
      isDrawing (handleEvents inputs initial) = false ->
      currentShapeType (handleEvents (inputs ++ [inp]) initial)
      = currentShapeType (handleEvents inputs initial) ->
      currentShapeType (handleEvents inputs initial) <> ShapeType.None ->
      exists before press after,
        inputs ++ [inp] = before ++ press :: after /\
        isToolButtonPress (handleEvents before initial) press = true /\
        forall after1 after2, after = after1 ++ after2 ->
          isDrawing (handleEvents (before ++ press :: after1) initial) = false /\
          currentShapeType (handleEvents (before ++ press :: after1) initial)
          = currentShapeType (handleEvents (inputs ++ [inp]) initial)).
    { intros Hd' Hd Hsame Ht.
      destruct (IH Hd Ht) as (before & press & after & E & Hpress & Hafter).
      exists before, press, (after ++ [inp]). split; [|split].
      - rewrite E, <- app_assoc. reflexivity.
      - exact Hpress.
      - intros after1 after2 Esplit.
        apply snoc_split in Esplit.
        destruct Esplit as [[_ ->] | (after2' & _ & Eafter)].
        + replace (before ++ press :: after ++ [inp]) with (inputs ++ [inp])
            by (rewrite E, <- app_assoc; reflexivity).
          split; [exact Hd' | reflexivity].
        + destruct (Hafter after1 after2' Eafter) as [H1 H2].
          split; [exact H1 | rewrite H2; symmetry; exact Hsame]. }
    intros Hd' Ht'. revert Extend Hd' Ht'. rewrite handleEvents_last.
    destruct (window_isOpen (handleEvents inputs initial)) eqn:Hopen.
    + intros Extend Hd' Ht'.
      destruct (pollBody_selection inp _ Hopen) as (_ & _ & Hfrom).
      destruct (Hfrom Hd' Ht') as [Hpress | [Hd Hsame]].
      * exists inputs, inp, []. split; [reflexivity | split; [exact Hpress|]].
        intros after1 after2 Esplit.
        symmetry in Esplit. apply app_eq_nil in Esplit.
        destruct Esplit as [-> _].
        rewrite handleEvents_last, Hopen. split; [exact Hd' | reflexivity].
      * apply Extend; [exact Hd' | exact Hd | exact Hsame | congruence].
    + intros Extend Hd' Ht'.
      apply Extend; [exact Hd' | exact Hd' | reflexivity | exact Ht'].
  - intros inp ex ey Hopen Hd Hev.
    rewrite handleEvents_last, Hopen.
    destruct (pollBody_tool_and_pending inp (handleEvents inputs initial))
      as [Et Ed].
    rewrite Hev in Et, Ed. rewrite Et, Ed.
    destruct (onMouseButtonPressed_selection (mousePosition inp) ex ey
                (handleEvents inputs initial)) as (Hplacing & _).
    exact (Hplacing Hd).
Qed.

(** Rectangle is selected, the Undo and Save buttons are pressed, then a
    click on the canvas starts a placement and the next click commits it. *)
Lemma tool_selection_invariant_witness :
  (isDrawing (handleEvents [clickAt 130 30; clickAt 600 30; clickAt 460 30] initial)
   = false /\
   currentShapeType
     (handleEvents [clickAt 130 30; clickAt 600 30; clickAt 460 30] initial)
   <> ShapeType.None) /\
  (window_isOpen
     (handleEvents [clickAt 130 30; clickAt 600 30; clickAt 460 30; clickAt 300 300]
        initial) = true /\
   isDrawing
     (handleEvents [clickAt 130 30; clickAt 600 30; clickAt 460 30; clickAt 300 300]
        initial) = true /\
   event (clickAt 350 20) = MouseButtonPressed 350 20) /\
  (exists before press after,
     [clickAt 130 30; clickAt 600 30; clickAt 460 30] = before ++ press :: after /\
     isToolButtonPress (handleEvents before initial) press = true) /\
  currentShapeType
    (handleEvents [clickAt 130 30; clickAt 600 30; clickAt 460 30; clickAt 300 300]
       initial)
  <> ShapeType.None /\
  currentShapeType
    (handleEvents
       ([clickAt 130 30; clickAt 600 30; clickAt 460 30; clickAt 300 300]
        ++ [clickAt 350 20]) initial)
  = ShapeType.None.
Proof.
  assert (D1 : isDrawing (handleEvents [clickAt 130 30; clickAt 600 30; clickAt 460 30]
                            initial) = false) by (vm_compute; reflexivity).
  assert (T1 : currentShapeType
                 (handleEvents [clickAt 130 30; clickAt 600 30; clickAt 460 30] initial)
               <> ShapeType.None) by (vm_compute; discriminate).
  assert (W2 : window_isOpen
                 (handleEvents [clickAt 130 30; clickAt 600 30; clickAt 460 30;
                                clickAt 300 300] initial) = true)
    by (vm_compute; reflexivity).
  assert (D2 : isDrawing
                 (handleEvents [clickAt 130 30; clickAt 600 30; clickAt 460 30;
                                clickAt 300 300] initial) = true)
    by (vm_compute; reflexivity).
  split; [split; [exact D1 | exact T1] |].
  split; [split; [exact W2 | split; [exact D2 | reflexivity]] |].
  split; [|split].
  - destruct (tool_selection_invariant
                [clickAt 130 30; clickAt 600 30; clickAt 460 30])
      as (_ & Hsel & _).
    destruct (Hsel D1 T1) as (before & press & after & E & Hpress & _).
    exists before, press, after. split; [exact E | exact Hpress].
  - destruct (tool_selection_invariant
                [clickAt 130 30; clickAt 600 30; clickAt 460 30; clickAt 300 300])
      as (Hpending & _).
    exact (Hpending D2).
  - destruct (tool_selection_invariant
                [clickAt 130 30; clickAt 600 30; clickAt 460 30; clickAt 300 300])
      as (_ & _ & Hcommit).
    destruct (Hcommit (clickAt 350 20) 350 20 W2 D2 eq_refl) as [Ht _].
    exact Ht.
Defined.

(** ** C7 *)

(** First match wins: the action taken is that of the first button of the
    list that is hit, and the canvas is the fallback. *)
Lemma clickWhenIdle_first_match mousePos app :
  clickWhenIdle mousePos app =
  match find (fun entry => isClicked (fst entry) mousePos) buttonActions with
  | Some (_, action) => action app
  | None => canvasClick mousePos app
  end.
Proof.
  unfold clickWhenIdle, buttonActions, canvasClick. cbn [find fst].
  repeat match goal with
         | |- context [isClicked ?btn mousePos] =>
             destruct (isClicked btn mousePos); [reflexivity|]
         end.
  reflexivity.
Qed.

(** The scenario as the specification gives it.  The Line button covers
    [10 <= x < 110], [10 <= y < 60], so the clicks at [(10, 10)] and at
    [(50, 50)] both hit it: each one selects Line again, nothing is placed. *)
Lemma line_scenario_clicks_hit_the_line_button :
  isClicked lineButton (Vector2i.mk 10 10) = true /\
  isClicked lineButton (Vector2i.mk 50 50) = true /\
  handleEvents [clickAt 60 35; clickAt 10 10; clickAt 50 50] initial
  = set_currentShapeType ShapeType.Line initial /\
  ~ (shapes (handleEvents [clickAt 60 35; clickAt 10 10; clickAt 50 50] initial)
     = [Line (Vector2f.of_ints 10 10) (Vector2f.of_ints 50 50) White] /\
     currentShapeType
       (handleEvents [clickAt 60 35; clickAt 10 10; clickAt 50 50] initial)
     = ShapeType.None).
Proof.
  split; [vm_compute; reflexivity|].
  split; [vm_compute; reflexivity|].
  split; [vm_compute; reflexivity|].
  intros [H _]. vm_compute in H. discriminate H.
Qed.

(** C7 (amended).  Each click outside [Placing] is tested against the
    buttons in the order Line, Rectangle, Circle, Clear, Undo, Save, the
    first match winning and the canvas being the fallback; the Line button
    is hit on [10 <= x < 110], [10 <= y < 60].  From the initial state,
    selecting Line and clicking at a point [p] that hits no button, then at
    a point [(qx, qy)], leaves exactly one shape on the canvas, the line
    from [p] to [(qx, qy)], with the tool selection reset to [None]. *)
Theorem line_scenario (sel p : Vector2i.t) (qx qy : Z) :
  isClicked lineButton sel = true ->
  hitsNoButton p = true ->
  (forall mousePos app,
     clickWhenIdle mousePos app =
     match find (fun entry => isClicked (fst entry) mousePos) buttonActions with
     | Some (_, action) => action app
     | None => canvasClick mousePos app
     end) /\
  (forall q,
     Z.abs (Vector2i.x q) < 2 ^ 24 -> Z.abs (Vector2i.y q) < 2 ^ 24 ->
     (isClicked lineButton q = true
      <-> 10 <= Vector2i.x q < 110 /\ 10 <= Vector2i.y q < 60)) /\
  handleEvents [clickAt (Vector2i.x sel) (Vector2i.y sel);
                clickAt (Vector2i.x p) (Vector2i.y p); clickAt qx qy] initial
  = mkApp true [Line (toVector2f p) (Vector2f.of_ints qx qy) White] White
      ShapeType.None false (toVector2f p) [] None.
Proof.
  intros Hsel Hp. split; [apply clickWhenIdle_first_match|].
  split; [apply lineButton_hit|].
  destruct sel as [sx sy], p as [px py]. cbn [Vector2i.x Vector2i.y].
  pose (selected := set_currentShapeType ShapeType.Line initial).
  pose (placing := set_isDrawing true
                     (set_startPos (toVector2f (Vector2i.mk px py)) selected)).
  assert (S1 : pollBody (clickAt sx sy) initial = selected).
  { rewrite pollBody_clickAt. unfold onMouseButtonPressed. cbn [isDrawing initial negb].
    unfold clickWhenIdle. rewrite Hsel. reflexivity. }
  assert (S2 : pollBody (clickAt px py) selected = placing).
  { rewrite pollBody_clickAt. unfold onMouseButtonPressed.
    change (isDrawing selected) with false. cbn [negb].
    apply clickWhenIdle_canvas; [exact Hp | discriminate]. }
  rewrite handleEvents_cons by reflexivity. rewrite S1.
  rewrite handleEvents_cons by reflexivity. rewrite S2.
  reflexivity.
Qed.

Lemma line_scenario_witness :
  isClicked lineButton (Vector2i.mk 60 35) = true /\
  hitsNoButton (Vector2i.mk 10 100) = true /\
  handleEvents [clickAt 60 35; clickAt 10 100; clickAt 50 50] initial
  = mkApp true [Line (Vector2f.of_ints 10 100) (Vector2f.of_ints 50 50) White] White
      ShapeType.None false (Vector2f.of_ints 10 100) [] None.
Proof.
  split; [reflexivity | split; [reflexivity |]].
  exact (proj2 (proj2 (line_scenario (Vector2i.mk 60 35) (Vector2i.mk 10 100) 50 50
                         eq_refl eq_refl))).
Defined.

(** ** C8 *)

(** In every state reached from [initial] the pending start is the float
    image of a cursor position. *)
Lemma pollBody_startPos inp app :
  startPos (pollBody inp app) = startPos app \/
  startPos (pollBody inp app) = toVector2f (mousePosition inp).
Proof.
  assert (K : forall k a, startPos (onKeyC k a) = startPos a)
    by (intros [|] a0; reflexivity).
  unfold pollBody. rewrite K.
  destruct (event inp) as [|ex ey|]; try (left; reflexivity).
  unfold onMouseButtonPressed.
  destruct (isDrawing app); cbn [negb].
  { left. unfold clickWhenDrawing.
    destruct (currentShapeType app); reflexivity. }
  unfold clickWhenIdle.
  repeat match goal with
         | |- context [isClicked ?btn (mousePosition inp)] =>
             destruct (isClicked btn (mousePosition inp)); [left; reflexivity|]
         end.
  destruct (isClicked undoButton (mousePosition inp)).
  { left. unfold undo.
    destruct (negb (empty (shapes app))), (back (shapes app)); reflexivity. }
  destruct (isClicked saveButton (mousePosition inp)); [left; reflexivity|].
  destruct (negb (ShapeType.eqb (currentShapeType app) ShapeType.None));
    [right | left]; reflexivity.
Qed.

Lemma startPos_is_a_cursor_position inputs :
  exists p, startPos (handleEvents inputs initial) = toVector2f p.
Proof.
  induction inputs as [|inp inputs IH] using rev_ind.
  - exists (Vector2i.mk 0 0). reflexivity.
  - rewrite handleEvents_last.
    destruct (window_isOpen (handleEvents inputs initial)); [|exact IH].
    destruct (pollBody_startPos inp (handleEvents inputs initial)) as [E | E];
      rewrite E; [exact IH | eexists; reflexivity].
Qed.

(** Circle is selected, the first click is at [(0, 0)] and the second at
    [(1, 1)]: the distance is the square root of 2, and the radius that is
    stored is the float [11863283 * 2^-23], whose square is not 2. *)
Lemma circle_radius_of_unit_diagonal :
  shapes (handleEvents [clickAt 240 30; clickAt 0 0; clickAt 1 1] initial)
  = [Circle (Vector2f.of_ints 0 0) (S754_finite false 11863283 (-23)) White] /\
  circleRadius (Vector2f.of_ints 0 0) (Vector2f.of_ints 1 1)
  = S754_finite false 11863283 (-23) /\
  ~ Float.square_is (circleRadius (Vector2f.of_ints 0 0) (Vector2f.of_ints 1 1))
      ((1 - 0) * (1 - 0) + (1 - 0) * (1 - 0)).
Proof.
  split; [vm_compute; reflexivity | split; [vm_compute; reflexivity |]].
  apply RadiusFacts.square_is_not_2.
Qed.

(** C8 (amended).  The click that completes the placement of a circle
    stores as radius the value of [circleRadius]: the square root of the sum
    of the squared coordinate differences, evaluated in double precision and
    rounded to single precision.  That value is never a negative number.
    When the start is a pixel position (as it is in every reachable state)
    and all coordinates are below 2^22 in magnitude, the radius is
    non-negative, it is the Euclidean distance itself exactly when that
    distance is an integer [k], and it is then the float [k]; otherwise it
    is a rounded value.  From [(0, 0)] to [(3, 4)] it is exactly 5. *)
Theorem circle_radius (app : GraphicsApp) (mousePos : Vector2i.t) (ex ey : Z) :
  (isDrawing app = true -> currentShapeType app = ShapeType.Circle ->
   shapes (onMouseButtonPressed mousePos ex ey app)
   = shapes app ++
     [Circle (startPos app)
        (circleRadius (startPos app) (Vector2f.of_ints ex ey))
        (currentColor app)]) /\
  (circleRadius (startPos app) (Vector2f.of_ints ex ey) = S754_nan \/
   Float.nonneg (circleRadius (startPos app) (Vector2f.of_ints ex ey)) = true) /\
  (forall sx sy,
     startPos app = Vector2f.of_ints sx sy ->
     Z.abs sx < 2 ^ 22 -> Z.abs sy < 2 ^ 22 ->
     Z.abs ex < 2 ^ 22 -> Z.abs ey < 2 ^ 22 ->
     Float.nonneg (circleRadius (startPos app) (Vector2f.of_ints ex ey)) = true /\
     (Float.square_is (circleRadius (startPos app) (Vector2f.of_ints ex ey))
        ((ex - sx) * (ex - sx) + (ey - sy) * (ey - sy))
      <-> exists k, 0 <= k /\
            (ex - sx) * (ex - sx) + (ey - sy) * (ey - sy) = k * k) /\
     (forall k, 0 <= k ->
        (ex - sx) * (ex - sx) + (ey - sy) * (ey - sy) = k * k ->
        circleRadius (startPos app) (Vector2f.of_ints ex ey) = Float.of_Z k)) /\
  circleRadius (Vector2f.of_ints 0 0) (Vector2f.of_ints 3 4) = Float.of_Z 5.
Proof.
  split; [|split; [|split]].
  - intros Hd Ht. unfold onMouseButtonPressed, clickWhenDrawing.
    rewrite Hd, Ht. reflexivity.
  - apply RadiusFacts.circleRadius_never_negative.
  - intros sx sy Hs Bsx Bsy Bex Bey.
    assert (P : 2 ^ 22 < 2 ^ 23) by reflexivity.
    rewrite Hs, RadiusFacts.circleRadius_of_ints by lia.
    assert (Bdx : Z.abs (ex - sx) < 2 ^ 23)
      by (change (2 ^ 23) with (2 * 2 ^ 22); lia).
    assert (Bdy : Z.abs (ey - sy) < 2 ^ 23)
      by (change (2 ^ 23) with (2 * 2 ^ 22); lia).
    split; [apply RadiusFacts.radiusOfDifferences_nonneg|].
    split; [apply RadiusFacts.radiusOfDifferences_square_iff; assumption|].
    intros k Hk E.
    apply RadiusFacts.radiusOfDifferences_exact; assumption.
  - vm_compute. reflexivity.
Qed.

(** Circle is selected and the first click is at [(0, 0)]; the second click
    is at [(3, 4)]. *)
Lemma circle_radius_witness :
  isDrawing placingCircle = true /\
  currentShapeType placingCircle = ShapeType.Circle /\
  startPos placingCircle = Vector2f.of_ints 0 0 /\
  shapes (onMouseButtonPressed (Vector2i.mk 3 4) 3 4 placingCircle)
  = [Circle (Vector2f.of_ints 0 0) (Float.of_Z 5) White].
Proof.
  split; [reflexivity | split; [reflexivity | split; [reflexivity |]]].
  destruct (circle_radius placingCircle (Vector2i.mk 3 4) 3 4)
    as (Hshape & _ & Hexact & _).
  rewrite (Hshape eq_refl eq_refl).
  destruct (Hexact 0 0 eq_refl eq_refl eq_refl eq_refl eq_refl) as (_ & _ & Hk).
  rewrite (Hk 5 ltac:(lia) eq_refl). reflexivity.
Defined.

(** ** C9 *)

(** C9.  The click that completes the placement of a rectangle stores the
    pending start as the origin and the componentwise difference of the
    end point and the start as the size; for pixel coordinates that is the
    difference of the integers, negative when the end lies left of or above
    the start; from [(10, 10)] to [(5, 5)] the origin is [(10, 10)] and the
    size [(-5, -5)]. *)
Theorem rectangle_geometry (app : GraphicsApp) (mousePos : Vector2i.t) (ex ey : Z) :
  (isDrawing app = true -> currentShapeType app = ShapeType.Rectangle ->
   shapes (onMouseButtonPressed mousePos ex ey app)
   = shapes app ++
     [Rectangle (startPos app)
        (Vector2f.mk (Float.sub (Float.of_Z ex) (Vector2f.x (startPos app)))
                     (Float.sub (Float.of_Z ey) (Vector2f.y (startPos app))))
        (currentColor app)]) /\
  (forall sx sy,
     isDrawing app = true -> currentShapeType app = ShapeType.Rectangle ->
     startPos app = Vector2f.of_ints sx sy ->
     Z.abs sx < 2 ^ 23 -> Z.abs sy < 2 ^ 23 ->
     Z.abs ex < 2 ^ 23 -> Z.abs ey < 2 ^ 23 ->
     shapes (onMouseButtonPressed mousePos ex ey app)
     = shapes app ++
       [Rectangle (Vector2f.of_ints sx sy) (Vector2f.of_ints (ex - sx) (ey - sy))
          (currentColor app)]) /\
  (isDrawing app = true -> currentShapeType app = ShapeType.Rectangle ->
   startPos app = Vector2f.of_ints 10 10 ->
   shapes (onMouseButtonPressed mousePos 5 5 app)
   = shapes app ++
     [Rectangle (Vector2f.of_ints 10 10) (Vector2f.of_ints (-5) (-5))
        (currentColor app)]).
Proof.
  assert (G : forall qx qy,
             isDrawing app = true -> currentShapeType app = ShapeType.Rectangle ->
             shapes (onMouseButtonPressed mousePos qx qy app)
             = shapes app ++
               [Rectangle (startPos app)
                  (Vector2f.sub (Vector2f.of_ints qx qy) (startPos app))
                  (currentColor app)]).
  { intros qx qy Hd Ht. unfold onMouseButtonPressed, clickWhenDrawing.
    rewrite Hd, Ht. reflexivity. }
  split; [apply G | split].
  - intros sx sy Hd Ht Hs Bsx Bsy Bex Bey. rewrite (G ex ey Hd Ht), Hs.
    unfold Vector2f.sub, Vector2f.of_ints, Float.sub.
    cbn [Vector2f.x Vector2f.y].
    destruct (FloatFacts.add_sub_of_Z ex sx Bex Bsx) as [_ ->].
    destruct (FloatFacts.add_sub_of_Z ey sy Bey Bsy) as [_ ->].
    reflexivity.
  - intros Hd Ht Hs. rewrite (G 5 5 Hd Ht), Hs. reflexivity.
Qed.

Lemma rectangle_geometry_witness :
  isDrawing placingRectangle = true /\
  currentShapeType placingRectangle = ShapeType.Rectangle /\
  startPos placingRectangle = Vector2f.of_ints 300 300 /\
  shapes (onMouseButtonPressed (Vector2i.mk 295 290) 295 290 placingRectangle)
  = [Rectangle (Vector2f.of_ints 300 300) (Vector2f.of_ints (-5) (-10)) White].
Proof.
  split; [reflexivity | split; [reflexivity | split; [reflexivity |]]].
  destruct (rectangle_geometry placingRectangle (Vector2i.mk 295 290) 295 290)
    as (_ & H & _).
  exact (H 300 300 eq_refl eq_refl eq_refl eq_refl eq_refl eq_refl eq_refl).
Defined.

(** The same placement made with clicks. *)
Example rectangle_flipped :
  shapes (handleEvents [clickAt 130 30; clickAt 300 300; clickAt 295 290] initial)
  = [Rectangle (Vector2f.of_ints 300 300) (Vector2f.of_ints (-5) (-10)) White].
Proof. vm_compute. reflexivity. Qed.

(** ** C10 *)

Lemma committed_startOf app endPos s :
  committed app endPos s -> startOf s = startPos app.
Proof.
  unfold committed. destruct (currentShapeType app); intros H;
    [contradiction | subst s; reflexivity ..].
Qed.

(** C10.  Outside [Placing] a click is handled from the queried cursor
    position alone: the coordinates stored in the event play no part, the
    buttons are tested on the cursor position, and it is the cursor position
    that becomes the pending start.  In [Placing] it is the reverse: the
    cursor position plays no part and the stored coordinates are the end
    point.  Hence, when the first click's stored coordinates differ from
    the cursor position queried for it (both in the pixel range, where
    distinct integers are distinct floats), the committed shape starts at
    the cursor position and not at the coordinates of the first click
    event. *)
Theorem start_from_cursor_end_from_event (app : GraphicsApp) :
  (isDrawing app = false ->
   forall mousePos ex ey,
     onMouseButtonPressed mousePos ex ey app = clickWhenIdle mousePos app /\
     (forall ex' ey',
        onMouseButtonPressed mousePos ex' ey' app
        = onMouseButtonPressed mousePos ex ey app) /\
     (isClicked lineButton mousePos = true ->
        currentShapeType (onMouseButtonPressed mousePos ex ey app) = ShapeType.Line) /\
     (hitsNoButton mousePos = true -> currentShapeType app <> ShapeType.None ->
        pendingClick (onMouseButtonPressed mousePos ex ey app)
        = Some (toVector2f mousePos))) /\
  (isDrawing app = true ->
   forall mousePos ex ey,
     onMouseButtonPressed mousePos ex ey app
     = clickWhenDrawing (Vector2f.of_ints ex ey) app /\
     (forall mousePos',
        onMouseButtonPressed mousePos' ex ey app
        = onMouseButtonPressed mousePos ex ey app)) /\
  (ToolSelected app ->
   forall mousePos ex ey cursor qx qy,
     hitsNoButton mousePos = true ->
     Z.abs (Vector2i.x mousePos) < 2 ^ 24 -> Z.abs (Vector2i.y mousePos) < 2 ^ 24 ->
     Z.abs ex < 2 ^ 24 -> Z.abs ey < 2 ^ 24 ->
     Vector2i.mk ex ey <> mousePos ->
     exists s,
       shapes (onMouseButtonPressed cursor qx qy
                 (onMouseButtonPressed mousePos ex ey app))
       = shapes app ++ [s] /\
       startOf s = toVector2f mousePos /\
       startOf s <> Vector2f.of_ints ex ey).
Proof.
  split; [|split].
  - intros Hd mousePos ex ey.
    assert (E : forall a b, onMouseButtonPressed mousePos a b app
                            = clickWhenIdle mousePos app).
    { intros a0 b0. unfold onMouseButtonPressed. rewrite Hd. reflexivity. }
    split; [apply E|]. split; [intros; rewrite !E; reflexivity|].
    rewrite E. split.
    + intros Hit. unfold clickWhenIdle. rewrite Hit. reflexivity.
    + intros Hp Ht. rewrite clickWhenIdle_canvas by assumption.
      unfold pendingClick. reflexivity.
  - intros Hd mousePos ex ey.
    assert (E : forall m, onMouseButtonPressed m ex ey app
                          = clickWhenDrawing (Vector2f.of_ints ex ey) app).
    { intros m. unfold onMouseButtonPressed. rewrite Hd. reflexivity. }
    split; [apply E | intros; rewrite !E; reflexivity].
  - intros Hsel mousePos ex ey cursor qx qy Hp Bx By Bex Bey Hne.
    destruct Hsel as [Hd Ht].
    assert (E1 : onMouseButtonPressed mousePos ex ey app
                 = set_isDrawing true (set_startPos (toVector2f mousePos) app)).
    { unfold onMouseButtonPressed. rewrite Hd. simpl.
      apply clickWhenIdle_canvas; assumption. }
    rewrite E1.
    destruct (clickWhenDrawing_commits (Vector2f.of_ints qx qy)
                (set_isDrawing true (set_startPos (toVector2f mousePos) app)) Ht)
      as (s & Hs & E2).
    exists s. unfold onMouseButtonPressed at 1. simpl isDrawing. simpl negb.
    cbv iota. rewrite E2. split; [reflexivity|].
    rewrite (committed_startOf _ _ _ Hs).
    cbn [startPos set_isDrawing set_startPos].
    split; [reflexivity|].
    intros Heq. apply Hne. symmetry.
    apply toVector2f_inj; assumption.
Qed.

(** The tool is Line, the first click is reported at [(300, 300)] while the
    cursor is found at [(310, 305)]: the line starts at [(310, 305)]. *)
Lemma start_from_cursor_end_from_event_witness :
  ToolSelected lineSelected /\
  hitsNoButton (Vector2i.mk 310 305) = true /\
  Vector2i.mk 300 300 <> Vector2i.mk 310 305 /\
  exists s,
    shapes (onMouseButtonPressed (Vector2i.mk 420 430) 400 400
              (onMouseButtonPressed (Vector2i.mk 310 305) 300 300 lineSelected))
    = shapes lineSelected ++ [s] /\
    startOf s = Vector2f.of_ints 310 305 /\
    startOf s <> Vector2f.of_ints 300 300.
Proof.
  assert (H1 : ToolSelected lineSelected)
    by (split; vm_compute; [reflexivity | discriminate]).
  assert (H3 : Vector2i.mk 300 300 <> Vector2i.mk 310 305) by discriminate.
  split; [exact H1 | split; [reflexivity | split; [exact H3 |]]].
  destruct (start_from_cursor_end_from_event lineSelected) as (_ & _ & H).
  exact (H H1 (Vector2i.mk 310 305) 300 300 (Vector2i.mk 420 430) 400 400
           eq_refl eq_refl eq_refl eq_refl eq_refl H3).
Defined.

Example cursor_moved_scenario :
  shapes (handleEvents
            [mkInput (MouseButtonPressed 60 35) (Vector2i.mk 60 35) false;
             mkInput (MouseButtonPressed 300 300) (Vector2i.mk 310 305) false;
             mkInput (MouseButtonPressed 400 400) (Vector2i.mk 420 430) false]
            initial)
  = [Line (Vector2f.of_ints 310 305) (Vector2f.of_ints 400 400) White].
Proof. vm_compute. reflexivity. Qed.

(** * Further properties of the code *)

(** ** The buttons *)

Lemma rectButton_only p :
  isClicked rectButton p = true -> isClicked lineButton p = false.
Proof. not_left_of. Qed.

Lemma circleButton_only p :
  isClicked circleButton p = true ->
  isClicked lineButton p = false /\ isClicked rectButton p = false.
Proof. intros H. split; revert H; not_left_of. Qed.

Lemma saveButton_only p :
  isClicked saveButton p = true ->
  isClicked lineButton p = false /\ isClicked rectButton p = false /\
  isClicked circleButton p = false /\ isClicked clearButton p = false.
Proof. intros H. repeat split; revert H; not_left_of. Qed.

Lemma undoButton_not_save p :
  isClicked undoButton p = true -> isClicked saveButton p = false.
Proof. not_left_of. Qed.

(** At most one of the six hit tests succeeds, whatever the position. *)
Lemma one_button_at_most p :
  match isClicked lineButton p, isClicked rectButton p, isClicked circleButton p,
        isClicked clearButton p, isClicked saveButton p, isClicked undoButton p with
  | true, false, false, false, false, false
  | false, true, false, false, false, false
  | false, false, true, false, false, false
  | false, false, false, true, false, false
  | false, false, false, false, true, false
  | false, false, false, false, false, true
  | false, false, false, false, false, false => True
  | _, _, _, _, _, _ => False
  end.
Proof.
  pose proof (rectButton_only p) as H2.
  pose proof (circleButton_only p) as H3.
  pose proof (clearButton_only p) as H4.
  pose proof (saveButton_only p) as H5.
  pose proof (undoButton_only p) as H6.
  pose proof (undoButton_not_save p) as H7.
  destruct (isClicked undoButton p).
  { destruct (H6 eq_refl) as (-> & -> & -> & ->). rewrite (H7 eq_refl). exact I. }
  destruct (isClicked saveButton p).
  { destruct (H5 eq_refl) as (-> & -> & -> & ->). exact I. }
  destruct (isClicked clearButton p).
  { destruct (H4 eq_refl) as (-> & -> & ->). exact I. }
  destruct (isClicked circleButton p).
  { destruct (H3 eq_refl) as (-> & ->). exact I. }
  destruct (isClicked rectButton p).
  { rewrite (H2 eq_refl). exact I. }
  destruct (isClicked lineButton p); exact I.
Qed.

(** The region of a button of the row, placed at height 10 and 50 high. *)
Lemma button_region L W text p :
  Z.abs L < 2 ^ 22 -> 0 <= W < 2 ^ 22 ->
  Z.abs (Vector2i.x p) < 2 ^ 24 -> Z.abs (Vector2i.y p) < 2 ^ 24 ->
  isClicked (mkButton (Vector2f.of_ints L 10) (Vector2f.of_ints W 50) text) p = true
  <-> L <= Vector2i.x p < L + W /\ 10 <= Vector2i.y p < 60.
Proof.
  intros HL HW Hx Hy.
  rewrite isClicked_region by (assumption || reflexivity || discriminate || lia).
  lia.
Qed.

(** X1.  The hit regions of the six buttons, for a cursor in the pixel
    range: each button is hit exactly on its 100 by 50 rectangle, the left
    and the top edge included and the right and the bottom edge excluded
    (the Line button on [10 <= x < 110], [10 <= y < 60], and so on every
    110 pixels); no button is hit above or below the row of buttons, left of
    the first button, in the 10 pixels between two buttons, or from
    [x = 660] on. *)
Theorem button_hit_regions (p : Vector2i.t) :
  Z.abs (Vector2i.x p) < 2 ^ 24 -> Z.abs (Vector2i.y p) < 2 ^ 24 ->
  (isClicked lineButton p = true
   <-> 10 <= Vector2i.x p < 110 /\ 10 <= Vector2i.y p < 60) /\
  (isClicked rectButton p = true
   <-> 120 <= Vector2i.x p < 220 /\ 10 <= Vector2i.y p < 60) /\
  (isClicked circleButton p = true
   <-> 230 <= Vector2i.x p < 330 /\ 10 <= Vector2i.y p < 60) /\
  (isClicked clearButton p = true
   <-> 340 <= Vector2i.x p < 440 /\ 10 <= Vector2i.y p < 60) /\
  (isClicked saveButton p = true
   <-> 450 <= Vector2i.x p < 550 /\ 10 <= Vector2i.y p < 60) /\
  (isClicked undoButton p = true
   <-> 560 <= Vector2i.x p < 660 /\ 10 <= Vector2i.y p < 60) /\
  (hitsNoButton p = true
   <-> Vector2i.y p < 10 \/ 60 <= Vector2i.y p \/ Vector2i.x p < 10 \/
       110 <= Vector2i.x p < 120 \/ 220 <= Vector2i.x p < 230 \/
       330 <= Vector2i.x p < 340 \/ 440 <= Vector2i.x p < 450 \/
       550 <= Vector2i.x p < 560 \/ 660 <= Vector2i.x p).
Proof.
  intros Hx Hy.
  assert (R : forall L text, 0 <= L < 1000 ->
            isClicked (mkButton (Vector2f.of_ints L 10) (Vector2f.of_ints 100 50) text) p
            = true
            <-> L <= Vector2i.x p < L + 100 /\ 10 <= Vector2i.y p < 60).
  { intros L text HL. apply button_region; try assumption.
    - change (2 ^ 22) with 4194304. lia.
    - split; [discriminate | reflexivity]. }
  pose proof (R 10 "Line"%string ltac:(lia)) as R1.
  pose proof (R 120 "Rectangle"%string ltac:(lia)) as R2.
  pose proof (R 230 "Circle"%string ltac:(lia)) as R3.
  pose proof (R 340 "Clear"%string ltac:(lia)) as R4.
  pose proof (R 450 "Save"%string ltac:(lia)) as R5.
  pose proof (R 560 "Undo"%string ltac:(lia)) as R6.
  fold lineButton in R1. fold rectButton in R2. fold circleButton in R3.
  fold clearButton in R4. fold saveButton in R5. fold undoButton in R6.
  repeat (split; [assumption|]).
  unfold hitsNoButton.
  rewrite !andb_true_iff, !negb_true_iff.
  rewrite <- !not_true_iff_false, R1, R2, R3, R4, R5, R6. lia.
Qed.

(** The right edge of the Line button and the bottom edge of the row. *)
Lemma button_hit_regions_witness :
  isClicked lineButton (Vector2i.mk 109 59) = true /\
  isClicked lineButton (Vector2i.mk 110 59) = false /\
  hitsNoButton (Vector2i.mk 110 59) = true /\
  hitsNoButton (Vector2i.mk 10 60) = true.
Proof.
  assert (B : forall x y, Z.abs x < 1000 -> Z.abs y < 1000 ->
              Z.abs (Vector2i.x (Vector2i.mk x y)) < 2 ^ 24 /\
              Z.abs (Vector2i.y (Vector2i.mk x y)) < 2 ^ 24).
  { intros x y Hx Hy. cbn [Vector2i.x Vector2i.y].
    change (2 ^ 24) with 16777216. lia. }
  destruct (B 109 59 ltac:(lia) ltac:(lia)) as [X1 Y1].
  destruct (B 110 59 ltac:(lia) ltac:(lia)) as [X2 Y2].
  destruct (B 10 60 ltac:(lia) ltac:(lia)) as [X3 Y3].
  destruct (button_hit_regions (Vector2i.mk 109 59) X1 Y1) as (L1 & _).
  destruct (button_hit_regions (Vector2i.mk 110 59) X2 Y2)
    as (L2 & _ & _ & _ & _ & _ & N2).
  destruct (button_hit_regions (Vector2i.mk 10 60) X3 Y3)
    as (_ & _ & _ & _ & _ & _ & N3).
  cbn [Vector2i.x Vector2i.y] in *.
  split; [apply L1; lia|].
  split; [apply not_true_iff_false; rewrite L2; lia|].
  split; [apply N2; lia | apply N3; lia].
Defined.

(** X2.  No position hits two buttons, whatever the integers of the
    position are; so the order in which the handler tests the buttons (Undo
    before Save, though Save is drawn to its left) never decides anything: a
    press on a button while no placement is under way runs the action of
    that button. *)
Theorem buttons_never_overlap (p : Vector2i.t) :
  (forall b1 b2, In b1 buttons -> In b2 buttons ->
     isClicked b1 p = true -> isClicked b2 p = true -> b1 = b2) /\
  (forall btn action app, In (btn, action) buttonActions ->
     isClicked btn p = true -> clickWhenIdle p app = action app).
Proof.
  pose proof (one_button_at_most p) as One.
  split.
  - intros b1 b2 In1 In2 Hit1 Hit2.
    unfold buttons, buttonActions in In1, In2. cbn [map fst In] in In1, In2.
    repeat match goal with
           | H : _ \/ _ |- _ => destruct H as [H | H]
           | H : False |- _ => contradiction H
           end; subst b1 b2; try reflexivity;
      rewrite Hit1, Hit2 in One;
      repeat match goal with
             | H : context [isClicked ?b p] |- _ => destruct (isClicked b p)
             end; contradiction One.
  - intros btn action app Hin Hit.
    rewrite clickWhenIdle_first_match.
    unfold buttonActions in Hin |- *. cbn [In] in Hin. cbn [find fst].
    repeat match goal with
           | H : _ \/ _ |- _ => destruct H as [H | H]
           | H : False |- _ => contradiction H
           end; injection Hin as <- <-; rewrite Hit in One |- *;
      repeat match goal with
             | H : context [isClicked ?b p] |- _ => destruct (isClicked b p)
             end; try contradiction One; reflexivity.
Qed.

(** A press on the Undo button, the fifth button tested. *)
Lemma buttons_never_overlap_witness :
  In (undoButton, undo) buttonActions /\
  isClicked undoButton (Vector2i.mk 600 30) = true /\
  clickWhenIdle (Vector2i.mk 600 30) twoLines = undo twoLines.
Proof.
  assert (I1 : In (undoButton, undo) buttonActions).
  { simpl. do 4 right. left. reflexivity. }
  assert (B : isClicked undoButton (Vector2i.mk 600 30) = true)
    by (vm_compute; reflexivity).
  split; [exact I1 | split; [exact B |]].
  destruct (buttons_never_overlap (Vector2i.mk 600 30)) as [_ H].
  exact (H undoButton undo twoLines I1 B).
Defined.

(** ** The conversion of the cursor position to [float]s *)

Lemma integerValue_canonical s T :
  0 < T -> Float.digits T <= 24 ->
  integerValue (Float.canonical 24 s T) = Some (cond_Zopp s T).
Proof.
  intros HT Hd.
  pose proof (FloatFacts.digits_pos T HT) as Hd1.
  destruct (FloatFacts.canonical_mantissa_value 24 s T HT Hd) as (m & -> & Hm).
  cbn [integerValue]. rewrite Hm.
  assert (P : 0 < 2 ^ (24 - Float.digits T)) by (apply Z.pow_pos_nonneg; lia).
  destruct (Z.leb_spec 0 (Float.digits T - 24)) as [He | He].
  - replace (24 - Float.digits T) with 0 by lia.
    replace (Float.digits T - 24) with 0 by lia.
    change (2 ^ 0) with 1. rewrite !Z.mul_1_r. reflexivity.
  - replace (- (Float.digits T - 24)) with (24 - Float.digits T) by lia.
    rewrite Z.mod_mul, Z.div_mul by lia. reflexivity.
Qed.

Lemma integerValue_of_Z n :
  Z.abs n < 2 ^ 24 -> integerValue (Float.of_Z n) = Some n.
Proof.
  intros Hb.
  destruct (FloatFacts.of_Z_cases n Hb) as [[-> ->] | [[Hp ->] | [Hn ->]]].
  - reflexivity.
  - rewrite integerValue_canonical; [reflexivity | lia |].
    apply FloatFacts.digits_bound; lia.
  - rewrite integerValue_canonical; [cbn [cond_Zopp]; f_equal; lia | lia |].
    apply FloatFacts.digits_bound; lia.
Qed.

(** X3.  [sf::Vector2f(mousePos)] loses nothing in the pixel range: for
    coordinates below 2^24 in magnitude each float of the converted vector
    stands for the integer it was made from, so the start point recorded for
    a placement is the cursor position itself and two cursor positions are
    converted to the same vector only if they are equal. *)
Theorem cursor_conversion_is_exact (p : Vector2i.t) :
  Z.abs (Vector2i.x p) < 2 ^ 24 -> Z.abs (Vector2i.y p) < 2 ^ 24 ->
  integerValue (Vector2f.x (toVector2f p)) = Some (Vector2i.x p) /\
  integerValue (Vector2f.y (toVector2f p)) = Some (Vector2i.y p) /\
  (forall q,
     Z.abs (Vector2i.x q) < 2 ^ 24 -> Z.abs (Vector2i.y q) < 2 ^ 24 ->
     toVector2f p = toVector2f q -> p = q).
Proof.
  intros Hx Hy. unfold toVector2f, Vector2f.of_ints. cbn [Vector2f.x Vector2f.y].
  split; [apply integerValue_of_Z, Hx|].
  split; [apply integerValue_of_Z, Hy|].
  intros q Hqx Hqy. apply toVector2f_inj; assumption.
Qed.

(** The bound is the best one: 2^24 + 1 is converted to 2^24. *)
Example cursor_conversion_rounds_from_2_24 :
  integerValue (Float.of_Z (2 ^ 24 + 1)) = Some (2 ^ 24).
Proof. vm_compute. reflexivity. Qed.

Lemma cursor_conversion_is_exact_witness :
  integerValue (Vector2f.x (toVector2f (Vector2i.mk 799 (-3)))) = Some 799 /\
  integerValue (Vector2f.y (toVector2f (Vector2i.mk 799 (-3)))) = Some (-3).
Proof.
  destruct (cursor_conversion_is_exact (Vector2i.mk 799 (-3))
              ltac:(reflexivity) ltac:(reflexivity)) as (Hx & Hy & _).
  split; [exact Hx | exact Hy].
Defined.

(** ** The actions of the handler *)

(** One iteration of the loop: the event, then the key. *)
Lemma pollBody_eq inp app :
  pollBody inp app =
  onKeyC (keyC inp)
    match event inp with
    | Closed => close app
    | MouseButtonPressed ex ey => onMouseButtonPressed (mousePosition inp) ex ey app
    | OtherEvent => app
    end.
Proof. unfold pollBody. destruct (event inp); reflexivity. Qed.

(** The two outcomes of the Undo button. *)
Lemma undo_cases app :
  (shapes app = [] /\ undo app = app) \/
  (exists v s, shapes app = v ++ [s] /\
     undo app = set_shapes v (set_undoStack (undoStack app ++ [s]) app)).
Proof.
  destruct (shapes app) as [|h t] eqn:E.
  - left. split; [reflexivity | apply undo_empty; exact E].
  - right. destruct (@exists_last _ (h :: t)) as (v & s & E'); [discriminate|].
    exists v, s. split; [exact E'|].
    apply undo_push_back. rewrite E. exact E'.
Qed.

(** The outcomes of a press while no placement is under way. *)
Lemma clickWhenIdle_cases p app :
  (exists t, t <> ShapeType.None /\ hitsToolButton p = true /\
     clickWhenIdle p app = set_currentShapeType t app) \/
  (isClicked clearButton p = true /\ clickWhenIdle p app = clear app) \/
  (isClicked undoButton p = true /\ clickWhenIdle p app = undo app) \/
  (isClicked saveButton p = true /\ clickWhenIdle p app = saveDrawing app) \/
  (hitsNoButton p = true /\ clickWhenIdle p app = canvasClick p app).
Proof.
  unfold clickWhenIdle, hitsToolButton, hitsNoButton, canvasClick.
  destruct (isClicked lineButton p).
  { left. exists ShapeType.Line. repeat split. discriminate. }
  destruct (isClicked rectButton p).
  { left. exists ShapeType.Rectangle. repeat split. discriminate. }
  destruct (isClicked circleButton p).
  { left. exists ShapeType.Circle. repeat split. discriminate. }
  right.
  destruct (isClicked clearButton p); [left; split; reflexivity|]. right.
  destruct (isClicked undoButton p); [left; split; reflexivity|]. right.
  destruct (isClicked saveButton p); [left; split; reflexivity|]. right.
  split; reflexivity.
Qed.

(** The two outcomes of the completing press: with no tool (a state the
    program does not reach) nothing is appended. *)
Lemma clickWhenDrawing_cases endPos app :
  (currentShapeType app = ShapeType.None /\
   clickWhenDrawing endPos app = set_isDrawing false app) \/
  (exists s, committed app endPos s /\
     clickWhenDrawing endPos app =
       set_isDrawing false
         (set_currentShapeType ShapeType.None
            (set_shapes (push_back (shapes app) s) app))).
Proof.
  destruct (currentShapeType app) eqn:Ht.
  - left. split; [reflexivity|]. unfold clickWhenDrawing. rewrite Ht.
    destruct app; simpl in *. subst. reflexivity.
  - right. apply clickWhenDrawing_commits. congruence.
  - right. apply clickWhenDrawing_commits. congruence.
  - right. apply clickWhenDrawing_commits. congruence.
Qed.

(** A property that every action of the handler keeps is kept by an
    iteration of the loop, and so by [handleEvents]. *)
Section Invariant.
Variable P : GraphicsApp -> Prop.
Hypothesis P_close : forall app, P app -> P (close app).
Hypothesis P_tool : forall t app,
  P app -> isDrawing app = false -> P (set_currentShapeType t app).
Hypothesis P_clear : forall app, P app -> P (clear app).
Hypothesis P_undo : forall app, P app -> isDrawing app = false -> P (undo app).
Hypothesis P_save : forall app,
  P app -> isDrawing app = false -> P (saveDrawing app).
Hypothesis P_start : forall p app,
  P app -> isDrawing app = false -> hitsNoButton p = true -> P (canvasClick p app).
Hypothesis P_commit : forall endPos app,
  P app -> isDrawing app = true -> P (clickWhenDrawing endPos app).

Lemma pollBody_invariant inp app : P app -> P (pollBody inp app).
Proof.
  intros H. rewrite pollBody_eq.
  assert (K : forall k a, P a -> P (onKeyC k a)).
  { intros [|] a0 Ha; [apply P_clear|]; exact Ha. }
  apply K. destruct (event inp) as [|ex ey|]; [apply P_close; exact H | | exact H].
  unfold onMouseButtonPressed. destruct (isDrawing app) eqn:Hd; cbn [negb].
  - apply P_commit; assumption.
  - destruct (clickWhenIdle_cases (mousePosition inp) app)
      as [(t & _ & _ & ->) | [[_ ->] | [[_ ->] | [[_ ->] | [Hn ->]]]]]; auto.
Qed.

Lemma handleEvents_invariant queue app : P app -> P (handleEvents queue app).
Proof.
  revert app. induction queue as [|inp rest IH]; intros app H; [exact H|].
  cbn [handleEvents]. destruct (window_isOpen app); [|exact H].
  apply IH, pollBody_invariant, H.
Qed.
End Invariant.

(** ** The canvas *)

(** X4.  One iteration of the loop changes the canvas at its end only:
    afterwards the canvas and the undo stack are as before, or both are
    empty, or the canvas has lost its last shape, which is then the last of
    the undo stack, or the canvas has one shape more at its end and the undo
    stack is as before, and this only on a mouse press that completes a
    placement.  The shapes below the last one are never changed or
    reordered, and a placement does not touch the undo stack. *)
Theorem canvas_changes_at_its_end (inp : Input) (app : GraphicsApp) :
  (shapes (pollBody inp app) = shapes app /\
   undoStack (pollBody inp app) = undoStack app) \/
  (shapes (pollBody inp app) = [] /\ undoStack (pollBody inp app) = []) \/
  (exists s, shapes app = shapes (pollBody inp app) ++ [s] /\
             undoStack (pollBody inp app) = undoStack app ++ [s]) \/
  (exists ex ey s,
     event inp = MouseButtonPressed ex ey /\ isDrawing app = true /\
     committed app (Vector2f.of_ints ex ey) s /\
     shapes (pollBody inp app) = shapes app ++ [s] /\
     undoStack (pollBody inp app) = undoStack app).
Proof.
  rewrite pollBody_eq.
  destruct (keyC inp); [right; left; split; reflexivity|].
  cbn [onKeyC].
  destruct (event inp) as [|ex ey|];
    [left; split; reflexivity | | left; split; reflexivity].
  unfold onMouseButtonPressed. destruct (isDrawing app) eqn:Hd; cbn [negb].
  - destruct (clickWhenDrawing_cases (Vector2f.of_ints ex ey) app)
      as [[_ ->] | (s & Hs & ->)]; [left; split; reflexivity|].
    right. right. right. exists ex, ey, s. repeat split; assumption.
  - destruct (clickWhenIdle_cases (mousePosition inp) app)
      as [(t & _ & _ & ->) | [[_ ->] | [[_ ->] | [[_ ->] | [_ ->]]]]].
    + left. split; reflexivity.
    + right. left. split; reflexivity.
    + destruct (undo_cases app) as [[_ ->] | (v & s & E & ->)];
        [left; split; reflexivity|].
      right. right. left. exists s. split; [exact E | reflexivity].
    + left. split; reflexivity.
    + left. unfold canvasClick. destruct (negb _); split; reflexivity.
Qed.

Lemma undo_keeps_the_interaction app :
  window_isOpen (undo app) = window_isOpen app /\
  isDrawing (undo app) = isDrawing app.
Proof.
  destruct (undo_cases app) as [[_ ->] | (v & s & _ & ->)]; split; reflexivity.
Qed.

Lemma undo_presses n u ex ey app :
  window_isOpen app = true -> isDrawing app = false ->
  isClicked undoButton u = true ->
  handleEvents (repeat (mkInput (MouseButtonPressed ex ey) u false) n) app
  = Nat.iter n undo app.
Proof.
  intros Hopen Hd Hu. revert app Hopen Hd.
  induction n as [|n IH]; intros app Hopen Hd; [reflexivity|].
  cbn [repeat]. rewrite handleEvents_cons by exact Hopen.
  assert (S : pollBody (mkInput (MouseButtonPressed ex ey) u false) app = undo app).
  { rewrite pollBody_eq. cbn [event keyC mousePosition onKeyC].
    unfold onMouseButtonPressed. rewrite Hd. cbn [negb].
    apply clickWhenIdle_undo. exact Hu. }
  rewrite S, Nat.iter_succ_r.
  destruct (undo_keeps_the_interaction app) as [Ho Hi].
  apply IH; congruence.
Qed.

(** X5.  Undo, [n] times: of a canvas of [len] shapes the first [len - n]
    stay (none when [n] exceeds [len]: the surplus undos do nothing), and
    the shapes taken off are appended to the undo stack, the last shape of
    the canvas first.  After a clear no undo brings anything back.  With the
    window open and no placement under way, [n] presses on the Undo button
    are [n] undos. *)
Theorem undo_n_times (n : nat) (app : GraphicsApp) :
  shapes (Nat.iter n undo app)
  = firstn (List.length (shapes app) - n) (shapes app) /\
  undoStack (Nat.iter n undo app)
  = undoStack app ++ rev (skipn (List.length (shapes app) - n) (shapes app)) /\
  Nat.iter n undo (clear app) = clear app /\
  (forall u ex ey,
     window_isOpen app = true -> isDrawing app = false ->
     isClicked undoButton u = true ->
     handleEvents (repeat (mkInput (MouseButtonPressed ex ey) u false) n) app
     = Nat.iter n undo app).
Proof.
  split; [|split; [|split]].
  - revert app. induction n as [|n IH]; intros app.
    + cbn [Nat.iter]. rewrite Nat.sub_0_r, firstn_all. reflexivity.
    + rewrite Nat.iter_succ_r.
      destruct (undo_cases app) as [[E ->] | (v & s & E & ->)].
      * rewrite IH, E. reflexivity.
      * rewrite IH. cbn [shapes set_shapes]. rewrite E, length_app.
        cbn [List.length].
        replace (List.length v + 1 - S n)%nat with (List.length v - n)%nat by lia.
        rewrite firstn_app.
        replace (List.length v - n - List.length v)%nat with 0%nat by lia.
        cbn [firstn]. symmetry. apply app_nil_r.
  - revert app. induction n as [|n IH]; intros app.
    + cbn [Nat.iter]. rewrite Nat.sub_0_r, skipn_all. cbn [rev].
      symmetry. apply app_nil_r.
    + rewrite Nat.iter_succ_r.
      destruct (undo_cases app) as [[E ->] | (v & s & E & ->)].
      * rewrite IH, E. reflexivity.
      * rewrite IH. cbn [shapes undoStack set_shapes set_undoStack].
        rewrite E, length_app. cbn [List.length].
        replace (List.length v + 1 - S n)%nat with (List.length v - n)%nat by lia.
        rewrite skipn_app.
        replace (List.length v - n - List.length v)%nat with 0%nat by lia.
        cbn [skipn]. rewrite rev_app_distr. cbn [rev List.app].
        rewrite <- app_assoc. reflexivity.
  - induction n as [|n IH]; [reflexivity|].
    rewrite Nat.iter_succ, IH. reflexivity.
  - intros u ex ey Hopen Hd Hu. apply undo_presses; assumption.
Qed.

(** Three presses on the Undo button with two lines on the canvas. *)
Lemma undo_n_times_witness :
  window_isOpen twoLines = true /\ isDrawing twoLines = false /\
  isClicked undoButton (Vector2i.mk 600 30) = true /\
  shapes (handleEvents (repeat (clickAt 600 30) 3) twoLines) = [] /\
  undoStack (handleEvents (repeat (clickAt 600 30) 3) twoLines)
  = [secondLine; firstLine].
Proof.
  assert (W : window_isOpen twoLines = true) by (vm_compute; reflexivity).
  assert (D : isDrawing twoLines = false) by (vm_compute; reflexivity).
  assert (B : isClicked undoButton (Vector2i.mk 600 30) = true)
    by (vm_compute; reflexivity).
  split; [exact W | split; [exact D | split; [exact B |]]].
  destruct (undo_n_times 3 twoLines) as (Hs & Hu & _ & Hp).
  unfold clickAt. rewrite (Hp (Vector2i.mk 600 30) 600 30 W D B), Hs, Hu.
  split; vm_compute; reflexivity.
Defined.

(** X6.  Place, then undo: from a state with a tool selected, a press on
    the canvas at [p], a second press and a press on the Undo button leave
    the canvas as it was before; the shape of the placement, which starts at
    [p], is the last of the undo stack, no tool is selected and no click is
    pending. *)
Theorem place_then_undo
    (app : GraphicsApp) (p cursor u : Vector2i.t) (ex ey qx qy ux uy : Z) :
  window_isOpen app = true -> ToolSelected app ->
  hitsNoButton p = true -> isClicked undoButton u = true ->
  exists s,
    committed (set_startPos (toVector2f p) app) (Vector2f.of_ints qx qy) s /\
    handleEvents [mkInput (MouseButtonPressed ex ey) p false;
                  mkInput (MouseButtonPressed qx qy) cursor false;
                  mkInput (MouseButtonPressed ux uy) u false] app
    = mkApp true (shapes app) (currentColor app) ShapeType.None false
        (toVector2f p) (undoStack app ++ [s]) (drawing_png app).
Proof.
  intros Hopen [Hd Ht] Hp Hu.
  destruct app as [w sh c t d sp us png].
  cbn [window_isOpen isDrawing currentShapeType] in Hopen, Hd, Ht. subst w d.
  cbn [shapes currentColor undoStack drawing_png].
  set (app1 := mkApp true sh c t true (toVector2f p) us png).
  destruct (clickWhenDrawing_commits (Vector2f.of_ints qx qy) app1 Ht)
    as (s & Hs & E2).
  exists s. split; [exact Hs|].
  set (app2 := mkApp true (sh ++ [s]) c ShapeType.None false (toVector2f p) us png).
  assert (S1 : pollBody (mkInput (MouseButtonPressed ex ey) p false)
                 (mkApp true sh c t false sp us png) = app1).
  { rewrite pollBody_eq. cbn [event keyC mousePosition onKeyC].
    unfold onMouseButtonPressed. cbn [isDrawing negb].
    rewrite clickWhenIdle_canvas by assumption. reflexivity. }
  assert (S2 : pollBody (mkInput (MouseButtonPressed qx qy) cursor false) app1 = app2).
  { rewrite pollBody_eq. cbn [event keyC mousePosition onKeyC].
    unfold onMouseButtonPressed. cbn [isDrawing app1 negb].
    rewrite E2. reflexivity. }
  assert (S3 : pollBody (mkInput (MouseButtonPressed ux uy) u false) app2
               = undo app2).
  { rewrite pollBody_eq. cbn [event keyC mousePosition onKeyC].
    unfold onMouseButtonPressed. cbn [isDrawing app2 negb].
    rewrite clickWhenIdle_undo by exact Hu. reflexivity. }
  rewrite handleEvents_cons, S1 by reflexivity.
  rewrite handleEvents_cons, S2 by reflexivity.
  rewrite handleEvents_cons, S3 by reflexivity.
  rewrite (undo_push_back app2 sh s) by reflexivity.
  reflexivity.
Qed.

(** Line is selected; a line is placed and undone. *)
Lemma place_then_undo_witness :
  window_isOpen lineSelected = true /\ ToolSelected lineSelected /\
  hitsNoButton (Vector2i.mk 300 300) = true /\
  isClicked undoButton (Vector2i.mk 600 30) = true /\
  shapes (handleEvents [clickAt 300 300; clickAt 400 400; clickAt 600 30] lineSelected)
  = [] /\
  List.length
    (undoStack (handleEvents [clickAt 300 300; clickAt 400 400; clickAt 600 30]
                  lineSelected)) = 1%nat.
Proof.
  assert (W : window_isOpen lineSelected = true) by (vm_compute; reflexivity).
  assert (T : ToolSelected lineSelected)
    by (split; vm_compute; [reflexivity | discriminate]).
  assert (P : hitsNoButton (Vector2i.mk 300 300) = true) by (vm_compute; reflexivity).
  assert (U : isClicked undoButton (Vector2i.mk 600 30) = true)
    by (vm_compute; reflexivity).
  split; [exact W | split; [exact T | split; [exact P | split; [exact U |]]]].
  destruct (place_then_undo lineSelected (Vector2i.mk 300 300) (Vector2i.mk 400 400)
              (Vector2i.mk 600 30) 300 300 400 400 600 30 W T P U) as (s & _ & E).
  unfold clickAt. rewrite E.
  cbn [shapes undoStack]. split; [vm_compute; reflexivity|].
  rewrite length_app. vm_compute. reflexivity.
Defined.

(** ** What the program never reads and never writes *)

(** The paths through one iteration of the loop, on a state given by its
    fields. *)
Ltac handler_steps :=
  cbv beta iota zeta delta
    [pollBody onMouseButtonPressed clickWhenIdle clickWhenDrawing onKeyC undo
     saveDrawing clear close
     window_isOpen shapes currentColor currentShapeType isDrawing startPos
     undoStack drawing_png set_window_isOpen set_shapes set_currentShapeType
     set_isDrawing set_startPos set_undoStack set_drawing_png].

Ltac iteration_paths inp :=
  unfold pollBody, onKeyC;
  destruct (event inp) as [|? ?|]; destruct (keyC inp); handler_steps;
  repeat (match goal with
          | |- context [if negb ?d then _ else _] => destruct d; cbn [negb]
          | |- context [isClicked ?b ?p] => destruct (isClicked b p)
          | |- context [ShapeType.eqb ?t _] => destruct t; cbn [ShapeType.eqb negb]
          | |- context [match ?t with ShapeType.None => _ | _ => _ end] =>
              destruct t
          | |- context [empty ?v] => destruct (empty v); cbn [negb]
          | |- context [back ?v] => destruct (back v)
          end; cbv beta iota).

Lemma pollBody_undoStack inp app u :
  exists u',
    pollBody inp (set_undoStack u app) = set_undoStack u' (pollBody inp app).
Proof.
  destruct app as [w sh c t d sp us png].
  iteration_paths inp; eexists; reflexivity.
Qed.

Lemma pollBody_drawing_png inp app f :
  exists f',
    pollBody inp (set_drawing_png f app) = set_drawing_png f' (pollBody inp app).
Proof.
  destruct app as [w sh c t d sp us png].
  iteration_paths inp; eexists; reflexivity.
Qed.

(** X7.  The undo stack and the saved drawing are written and never read:
    started with another undo stack, or with another content of
    [drawing.png], [handleEvents] ends in the same state up to that very
    field.  So nothing the program does, or shows, depends on what has been
    undone or saved: there is no redo. *)
Theorem undo_stack_and_file_are_never_read (queue : list Input) (app : GraphicsApp) :
  (forall u, exists u',
     handleEvents queue (set_undoStack u app)
     = set_undoStack u' (handleEvents queue app)) /\
  (forall f, exists f',
     handleEvents queue (set_drawing_png f app)
     = set_drawing_png f' (handleEvents queue app)).
Proof.
  revert app. induction queue as [|inp rest IH]; intros app.
  - split; intros v; exists v; reflexivity.
  - split.
    + intros u. cbn [handleEvents].
      change (window_isOpen (set_undoStack u app)) with (window_isOpen app).
      destruct (window_isOpen app); [|exists u; reflexivity].
      destruct (pollBody_undoStack inp app u) as (u1 & ->).
      apply IH.
    + intros f. cbn [handleEvents].
      change (window_isOpen (set_drawing_png f app)) with (window_isOpen app).
      destruct (window_isOpen app); [|exists f; reflexivity].
      destruct (pollBody_drawing_png inp app f) as (f1 & ->).
      apply IH.
Qed.

Lemma committed_colorOf app endPos s :
  committed app endPos s -> colorOf s = currentColor app.
Proof.
  unfold committed. destruct (currentShapeType app); intros H;
    [contradiction | subst s; reflexivity ..].
Qed.

Lemma handleEvents_uniform c queue app :
  uniform c app -> uniform c (handleEvents queue app).
Proof.
  apply handleEvents_invariant; clear app; unfold uniform.
  - intros app H. exact H.
  - intros t app H _. exact H.
  - intros app (Hc & _ & _ & Hf). repeat split; auto.
  - intros app (Hc & Hs & Hu & Hf) _.
    destruct (undo_cases app) as [[_ ->] | (v & s & E & ->)]; [auto|].
    cbn [currentColor shapes undoStack drawing_png set_shapes set_undoStack].
    rewrite E in Hs. apply Forall_app in Hs. destruct Hs as [Hv Hs].
    repeat split; auto. apply Forall_app. split; assumption.
  - intros app (Hc & Hs & Hu & Hf) _. repeat split; auto.
    intros saved E. injection E as <-. exact Hs.
  - intros p app H _ _. unfold canvasClick.
    destruct (negb _); exact H.
  - intros endPos app (Hc & Hs & Hu & Hf) _.
    destruct (clickWhenDrawing_cases endPos app) as [[_ ->] | (s & Hcm & ->)];
      [repeat split; auto|].
    cbn [currentColor shapes undoStack drawing_png set_shapes set_undoStack
         set_isDrawing set_currentShapeType].
    repeat split; auto. apply Forall_app. split; [exact Hs|].
    constructor; [|constructor].
    rewrite (committed_colorOf _ _ _ Hcm). exact Hc.
Qed.

(** X8.  The current colour is never written: whatever the events, it is
    white, as the constructor leaves it, and so is every shape of the
    canvas, of the undo stack and of the saved drawing. *)
Theorem every_shape_is_white (inputs : list Input) (s : Shape) :
  currentColor (handleEvents inputs initial) = White /\
  (In s (shapes (handleEvents inputs initial)) \/
   In s (undoStack (handleEvents inputs initial)) \/
   (exists saved, drawing_png (handleEvents inputs initial) = Some saved /\
                  In s saved) ->
   colorOf s = White).
Proof.
  assert (U : uniform White initial).
  { repeat split; try constructor. discriminate. }
  destruct (handleEvents_uniform White inputs initial U) as (Hc & Hs & Hu & Hf).
  split; [exact Hc|].
  intros [H | [H | (saved & E & H)]].
  - rewrite Forall_forall in Hs. apply Hs, H.
  - rewrite Forall_forall in Hu. apply Hu, H.
  - specialize (Hf saved E). rewrite Forall_forall in Hf. apply Hf, H.
Qed.

(** The undone line of [placingWithHistory]. *)
Lemma every_shape_is_white_witness :
  In secondLine (undoStack placingWithHistory) /\ colorOf secondLine = White.
Proof.
  assert (E : undoStack
                (handleEvents
                   [clickAt 60 35; clickAt 100 100; clickAt 200 200;
                    clickAt 60 35; clickAt 300 300; clickAt 400 400;
                    clickAt 600 30; clickAt 130 30; clickAt 300 300] initial)
              = [secondLine]) by (vm_compute; reflexivity).
  assert (E' : undoStack placingWithHistory = [secondLine])
    by (vm_compute; reflexivity).
  split; [rewrite E'; left; reflexivity|].
  destruct (every_shape_is_white
              [clickAt 60 35; clickAt 100 100; clickAt 200 200;
               clickAt 60 35; clickAt 300 300; clickAt 400 400;
               clickAt 600 30; clickAt 130 30; clickAt 300 300] secondLine)
    as [_ H].
  apply H. right. left. rewrite E. left. reflexivity.
Defined.

(** X9.  Only mouse presses drive the interaction: a queue without a mouse
    press (key states, closing, any other event) leaves the tool selection,
    the pending click with its start point, the colour and the saved
    drawing as they are; all it can do to the canvas and the undo stack is
    to empty both. *)
Theorem only_presses_drive_the_interaction (queue : list Input) (app : GraphicsApp) :
  forallb (fun inp => negb (isPress inp)) queue = true ->
  currentShapeType (handleEvents queue app) = currentShapeType app /\
  isDrawing (handleEvents queue app) = isDrawing app /\
  startPos (handleEvents queue app) = startPos app /\
  currentColor (handleEvents queue app) = currentColor app /\
  drawing_png (handleEvents queue app) = drawing_png app /\
  ((shapes (handleEvents queue app) = shapes app /\
    undoStack (handleEvents queue app) = undoStack app) \/
   (shapes (handleEvents queue app) = [] /\
    undoStack (handleEvents queue app) = [])).
Proof.
  revert app. induction queue as [|inp rest IH]; intros app Hq.
  - repeat split; try reflexivity. left. split; reflexivity.
  - cbn [forallb] in Hq. apply andb_prop in Hq. destruct Hq as [Hi Hq].
    cbn [handleEvents]. destruct (window_isOpen app).
    2: { repeat split; try reflexivity. left. split; reflexivity. }
    destruct (IH (pollBody inp app) Hq) as (Ht & Hd & Hs & Hc & Hf & Hv).
    assert (S : currentShapeType (pollBody inp app) = currentShapeType app /\
                isDrawing (pollBody inp app) = isDrawing app /\
                startPos (pollBody inp app) = startPos app /\
                currentColor (pollBody inp app) = currentColor app /\
                drawing_png (pollBody inp app) = drawing_png app /\
                ((shapes (pollBody inp app) = shapes app /\
                  undoStack (pollBody inp app) = undoStack app) \/
                 (shapes (pollBody inp app) = [] /\
                  undoStack (pollBody inp app) = []))).
    { rewrite pollBody_eq. unfold isPress in Hi.
      destruct (event inp); [|discriminate Hi|];
        destruct (keyC inp); repeat split; try reflexivity;
        solve [left; split; reflexivity | right; split; reflexivity]. }
    destruct S as (Ht' & Hd' & Hs' & Hc' & Hf' & Hv').
    rewrite Ht, Hd, Hs, Hc, Hf, Ht', Hd', Hs', Hc', Hf'.
    repeat split; try reflexivity.
    destruct Hv as [[-> ->] | [-> ->]]; [exact Hv' | right; split; reflexivity].
Qed.

(** A placement is under way; the 'C' key, the closing of the window and
    another event do not end it. *)
Lemma only_presses_drive_the_interaction_witness :
  pendingClick
    (handleEvents [mkInput OtherEvent (Vector2i.mk 0 0) true;
                   mkInput Closed (Vector2i.mk 0 0) false;
                   mkInput OtherEvent (Vector2i.mk 0 0) false] placingWithHistory)
  = Some (Vector2f.of_ints 300 300).
Proof.
  destruct (only_presses_drive_the_interaction
              [mkInput OtherEvent (Vector2i.mk 0 0) true;
               mkInput Closed (Vector2i.mk 0 0) false;
               mkInput OtherEvent (Vector2i.mk 0 0) false] placingWithHistory
              eq_refl) as (_ & Hd & Hs & _).
  unfold pendingClick. rewrite Hd, Hs. vm_compute. reflexivity.
Defined.

(** ** The presses a shape costs *)

Lemma pressesSpent_onKeyC k app :
  (pressesSpent (onKeyC k app) <= pressesSpent app)%nat.
Proof.
  destruct k; [|apply Nat.le_refl].
  unfold pressesSpent. cbn [onKeyC clear shapes undoStack currentShapeType isDrawing
    set_shapes set_undoStack List.length]. lia.
Qed.

Lemma pressesSpent_undo app : pressesSpent (undo app) = pressesSpent app.
Proof.
  destruct (undo_cases app) as [[_ ->] | (v & s & E & ->)]; [reflexivity|].
  unfold pressesSpent.
  cbn [shapes undoStack currentShapeType isDrawing set_shapes set_undoStack].
  rewrite E, !length_app. cbn [List.length]. lia.
Qed.

Lemma pressesSpent_press mousePos ex ey app :
  (pressesSpent (onMouseButtonPressed mousePos ex ey app) <= pressesSpent app + 1)%nat.
Proof.
  unfold onMouseButtonPressed. destruct (isDrawing app) eqn:Hd; cbn [negb].
  - destruct (clickWhenDrawing_cases (Vector2f.of_ints ex ey) app)
      as [[Ht ->] | (s & Hs & ->)]; unfold pressesSpent;
      cbn [shapes undoStack currentShapeType isDrawing set_shapes set_undoStack
           set_isDrawing set_currentShapeType ShapeType.eqb]; rewrite ?Hd.
    + lia.
    + assert (Ht : ShapeType.eqb (currentShapeType app) ShapeType.None = false).
      { apply committed_shapeType in Hs. rewrite <- Hs. destruct s; reflexivity. }
      rewrite Ht. unfold push_back. rewrite length_app. cbn [List.length]. lia.
  - destruct (clickWhenIdle_cases mousePos app)
      as [(t & Ht & _ & ->) | [[_ ->] | [[_ ->] | [[_ ->] | [_ ->]]]]].
    + unfold pressesSpent.
      cbn [shapes undoStack currentShapeType isDrawing set_currentShapeType].
      destruct t; [congruence | ..]; cbn [ShapeType.eqb];
        destruct (ShapeType.eqb (currentShapeType app) ShapeType.None); lia.
    + pose proof (pressesSpent_onKeyC true app) as H. cbn [onKeyC] in H. lia.
    + rewrite pressesSpent_undo. lia.
    + unfold pressesSpent. cbn. lia.
    + unfold canvasClick.
      destruct (negb (ShapeType.eqb (currentShapeType app) ShapeType.None)); [|lia].
      unfold pressesSpent.
      cbn [shapes undoStack currentShapeType isDrawing set_isDrawing set_startPos].
      rewrite Hd. lia.
Qed.

Lemma pressesSpent_handleEvents queue app :
  (pressesSpent (handleEvents queue app)
   <= pressesSpent app + List.length (filter isPress queue))%nat.
Proof.
  revert app. induction queue as [|inp rest IH]; intros app; [cbn; lia|].
  cbn [handleEvents]. destruct (window_isOpen app); [|lia].
  specialize (IH (pollBody inp app)).
  assert (S : (pressesSpent (pollBody inp app)
               <= pressesSpent app + (if isPress inp then 1 else 0))%nat).
  { rewrite pollBody_eq. unfold isPress.
    pose proof (pressesSpent_onKeyC (keyC inp)) as K.
    destruct (event inp) as [|ex ey|].
    - specialize (K (close app)). unfold pressesSpent in *. cbn in *. lia.
    - specialize (K (onMouseButtonPressed (mousePosition inp) ex ey app)).
      pose proof (pressesSpent_press (mousePosition inp) ex ey app). lia.
    - specialize (K app). lia. }
  cbn [filter]. destruct (isPress inp); cbn [List.length]; lia.
Qed.

(** X10.  A shape costs three mouse presses (the tool button, the start,
    the end): after any events from the initial state, three times the
    number of shapes on the canvas and on the undo stack is at most the
    number of mouse presses among the events. *)
Theorem three_presses_per_shape (inputs : list Input) :
  (3 * (List.length (shapes (handleEvents inputs initial))
        + List.length (undoStack (handleEvents inputs initial)))
   <= List.length (filter isPress inputs))%nat.
Proof.
  pose proof (pressesSpent_handleEvents inputs initial) as H.
  unfold pressesSpent in H at 1.
  change (pressesSpent initial) with 0%nat in H. lia.
Qed.

(** The bound is reached: [twoLines] is made by six presses. *)
Example two_lines_by_six_presses :
  List.length (shapes twoLines) = 2%nat /\
  List.length
    (filter isPress [clickAt 60 35; clickAt 100 100; clickAt 200 200;
                     clickAt 60 35; clickAt 300 300; clickAt 400 400]) = 6%nat.
Proof. split; vm_compute; reflexivity. Qed.

(** ** [drawing.png] *)

Lemma saveButton_first p :
  isClicked saveButton p = true -> forall app, clickWhenIdle p app = saveDrawing app.
Proof.
  intros H app. destruct (saveButton_only p H) as (H1 & H2 & H3 & H4).
  assert (H5 : isClicked undoButton p = false).
  { destruct (isClicked undoButton p) eqn:E; [|reflexivity].
    rewrite (undoButton_not_save p E) in H. discriminate H. }
  unfold clickWhenIdle. rewrite H1, H2, H3, H4, H5, H. reflexivity.
Qed.

Lemma pollBody_drawing_png_written inp app :
  drawing_png (pollBody inp app)
  = if isSavePress app inp then Some (shapes app) else drawing_png app.
Proof.
  rewrite pollBody_eq. unfold isSavePress.
  assert (K : forall k a, drawing_png (onKeyC k a) = drawing_png a)
    by (intros [|] a0; reflexivity).
  rewrite K. destruct (event inp) as [|ex ey|]; try reflexivity.
  unfold onMouseButtonPressed. destruct (isDrawing app) eqn:Hd; cbn [negb andb].
  - destruct (clickWhenDrawing_cases (Vector2f.of_ints ex ey) app)
      as [[_ ->] | (s & _ & ->)]; reflexivity.
  - destruct (isClicked saveButton (mousePosition inp)) eqn:Hs.
    + rewrite saveButton_first by exact Hs. reflexivity.
    + destruct (clickWhenIdle_cases (mousePosition inp) app)
        as [(t & _ & _ & ->) | [[_ ->] | [[_ ->] | [[Hs' ->] | [_ ->]]]]];
        try reflexivity.
      * destruct (undo_cases app) as [[_ ->] | (v & s & _ & ->)]; reflexivity.
      * congruence.
      * unfold canvasClick. destruct (negb _); reflexivity.
Qed.

(** X11.  [drawing.png] is written by a press on the Save button while no
    placement is under way, and by nothing else; it then holds the canvas as
    that press found it, also when the 'C' key empties the canvas in the
    same iteration.  So after any events from the initial state the file is
    either not written or holds the canvas of the state in which the last
    Save press of these events arrived. *)
Theorem drawing_png_is_the_last_saved_canvas (inputs : list Input) :
  (forall inp app,
     drawing_png (pollBody inp app)
     = if isSavePress app inp then Some (shapes app) else drawing_png app) /\
  (drawing_png (handleEvents inputs initial) = None \/
   exists before press after,
     inputs = before ++ press :: after /\
     window_isOpen (handleEvents before initial) = true /\
     isSavePress (handleEvents before initial) press = true /\
     drawing_png (handleEvents inputs initial)
     = Some (shapes (handleEvents before initial)) /\
     forall after1 inp after2, after = after1 ++ inp :: after2 ->
       window_isOpen (handleEvents (before ++ press :: after1) initial)
       && isSavePress (handleEvents (before ++ press :: after1) initial) inp
       = false).
Proof.
  split; [exact pollBody_drawing_png_written|].
  induction inputs as [|inp inputs IH] using rev_ind; [left; reflexivity|].
  assert (Step :
    drawing_png (handleEvents (inputs ++ [inp]) initial)
    = if window_isOpen (handleEvents inputs initial)
         && isSavePress (handleEvents inputs initial) inp
      then Some (shapes (handleEvents inputs initial))
      else drawing_png (handleEvents inputs initial)).
  { rewrite handleEvents_last.
    destruct (window_isOpen (handleEvents inputs initial)); [|reflexivity].
    apply pollBody_drawing_png_written. }
  destruct (window_isOpen (handleEvents inputs initial)
            && isSavePress (handleEvents inputs initial) inp) eqn:Hs.
  - apply andb_prop in Hs. destruct Hs as [Hopen Hs].
    right. exists inputs, inp, [].
    repeat split; try assumption.
    intros after1 inp' after2 Es. destruct after1; discriminate Es.
  - rewrite Step.
    destruct IH as [H | (before & press & after & E & Ho & Hp & Hf & Hlast)];
      [left; exact H|].
    right. exists before, press, (after ++ [inp]).
    split; [rewrite E, <- app_assoc; reflexivity|].
    split; [exact Ho|]. split; [exact Hp|]. split; [exact Hf|].
    intros after1 inp' after2 Es.
    change (inp' :: after2) with ([inp'] ++ after2) in Es.
    rewrite app_assoc in Es.
    destruct (snoc_split after inp (after1 ++ [inp']) after2 Es)
      as [[-> E1] | (l2' & -> & E1)].
    + apply app_inj_tail in E1. destruct E1 as [<- <-].
      rewrite <- E. exact Hs.
    + apply (Hlast after1 inp' l2'). rewrite E1, <- app_assoc. reflexivity.
Qed.

(** Two lines are placed, the drawing is saved with the 'C' key down, and a
    third line is placed: the file holds the two lines, the canvas the
    third. *)
Example saved_then_cleared :
  handleEvents
    [mkInput (MouseButtonPressed 500 30) (Vector2i.mk 500 30) true;
     clickAt 60 35; clickAt 10 100; clickAt 20 200] twoLines
  = mkApp true
      [Line (Vector2f.of_ints 10 100) (Vector2f.of_ints 20 200) White]
      White ShapeType.None false (Vector2f.of_ints 10 100) []
      (Some [firstLine; secondLine]).
Proof. vm_compute. reflexivity. Qed.

(** ** Where a shape starts *)

Lemma hitsNoButton_onAButton p :
  hitsNoButton p = negb (onAButton (toVector2f p)).
Proof.
  unfold hitsNoButton, onAButton, buttons, buttonActions.
  cbn [map fst existsb].
  change (contains (getGlobalBounds lineButton) (toVector2f p))
    with (isClicked lineButton p).
  change (contains (getGlobalBounds rectButton) (toVector2f p))
    with (isClicked rectButton p).
  change (contains (getGlobalBounds circleButton) (toVector2f p))
    with (isClicked circleButton p).
  change (contains (getGlobalBounds clearButton) (toVector2f p))
    with (isClicked clearButton p).
  change (contains (getGlobalBounds undoButton) (toVector2f p))
    with (isClicked undoButton p).
  change (contains (getGlobalBounds saveButton) (toVector2f p))
    with (isClicked saveButton p).
  destruct (isClicked lineButton p), (isClicked rectButton p),
    (isClicked circleButton p), (isClicked clearButton p),
    (isClicked undoButton p), (isClicked saveButton p); reflexivity.
Qed.

Lemma handleEvents_startsOffButtons queue app :
  startsOffButtons app -> startsOffButtons (handleEvents queue app).
Proof.
  apply handleEvents_invariant; clear app; unfold startsOffButtons.
  - intros app H. exact H.
  - intros t app H _. exact H.
  - intros app (Hp & _ & _). repeat split; auto.
  - intros app (Hp & Hs & Hu) Hd.
    destruct (undo_cases app) as [[_ ->] | (v & s & E & ->)]; [auto|].
    cbn [isDrawing startPos shapes undoStack set_shapes set_undoStack].
    rewrite E in Hs. apply Forall_app in Hs. destruct Hs as [Hv Hs].
    repeat split; auto. apply Forall_app. split; assumption.
  - intros app H _. exact H.
  - intros p app (Hp & Hs & Hu) Hd Hn. unfold canvasClick.
    destruct (negb _); [|repeat split; assumption].
    cbn [isDrawing startPos shapes undoStack set_isDrawing set_startPos].
    repeat split; auto. intros _.
    rewrite hitsNoButton_onAButton in Hn. apply negb_true_iff in Hn. exact Hn.
  - intros endPos app (Hp & Hs & Hu) Hd.
    destruct (clickWhenDrawing_cases endPos app) as [[_ ->] | (s & Hcm & ->)].
    + cbn [isDrawing startPos shapes undoStack set_isDrawing].
      repeat split; auto; discriminate.
    + cbn [isDrawing startPos shapes undoStack set_shapes set_isDrawing
           set_currentShapeType].
      repeat split; auto; try discriminate.
      apply Forall_app. split; [exact Hs|].
      constructor; [|constructor].
      rewrite (committed_startOf _ _ _ Hcm). apply Hp, Hd.
Qed.

(** X12.  No shape starts on a button: after any events from the initial
    state, the pending start point and the start point of every shape of the
    canvas and of the undo stack (the first vertex of a line, the position
    of a rectangle or of a circle) lie outside the bounds of the six
    buttons.  Only the end of a placement can be put on a button. *)
Theorem shapes_start_off_the_buttons (inputs : list Input) :
  (isDrawing (handleEvents inputs initial) = true ->
   onAButton (startPos (handleEvents inputs initial)) = false) /\
  (forall s,
     In s (shapes (handleEvents inputs initial)) \/
     In s (undoStack (handleEvents inputs initial)) ->
     onAButton (startOf s) = false).
Proof.
  assert (I : startsOffButtons initial).
  { repeat split; try constructor; discriminate. }
  destruct (handleEvents_startsOffButtons inputs initial I) as (Hp & Hs & Hu).
  split; [exact Hp|].
  intros s [H | H].
  - rewrite Forall_forall in Hs. apply Hs, H.
  - rewrite Forall_forall in Hu. apply Hu, H.
Qed.

(** The rectangle being placed in [placingRectangle] starts at
    [(300, 300)]. *)
Lemma shapes_start_off_the_buttons_witness :
  isDrawing placingRectangle = true /\
  onAButton (startPos placingRectangle) = false.
Proof.
  assert (D : isDrawing (handleEvents [clickAt 130 30; clickAt 300 300] initial)
              = true) by (vm_compute; reflexivity).
  destruct (shapes_start_off_the_buttons [clickAt 130 30; clickAt 300 300])
    as [H _].
  split; [exact D | exact (H D)].
Defined.

(** ** Closing the window *)

Lemma pollBody_Closed inp app :
  event inp = Closed -> window_isOpen (pollBody inp app) = false.
Proof.
  intros E. rewrite pollBody_eq, E. destruct (keyC inp); reflexivity.
Qed.

(** X13.  The closing event ends the run: the events queued behind it and
    the frames after it are not processed, the window is closed at the end
    and is not opened again.  The iteration of the closing event itself
    still looks at the 'C' key, so closing with the key down empties the
    canvas and the undo stack. *)
Theorem closed_event_ends_the_run
    (before after : list (list Input)) (queue1 queue2 : list Input)
    (inp : Input) (app : GraphicsApp) :
  event inp = Closed ->
  run (before ++ (queue1 ++ inp :: queue2) :: after) app
  = run (before ++ [queue1 ++ [inp]]) app /\
  window_isOpen (run (before ++ [queue1 ++ [inp]]) app) = false /\
  run (before ++ [queue1 ++ [inp]]) app
  = (let app1 := run (before ++ [queue1]) app in
     if window_isOpen app1 then onKeyC (keyC inp) (close app1) else app1).
Proof.
  intros E. rewrite !run_concat, !concat_app. cbn [List.concat].
  rewrite !app_nil_r, !handleEvents_app.
  set (app0 := handleEvents (List.concat before) app).
  set (app1 := handleEvents queue1 app0).
  cbn [handleEvents].
  assert (P : pollBody inp app1 = onKeyC (keyC inp) (close app1))
    by (rewrite pollBody_eq, E; reflexivity).
  destruct (window_isOpen app1) eqn:Hopen.
  - pose proof (pollBody_Closed inp app1 E) as Hc.
    rewrite (handleEvents_closed queue2) by exact Hc.
    rewrite handleEvents_closed by exact Hc.
    repeat split; [exact Hc | exact P].
  - rewrite handleEvents_closed by exact Hopen.
    repeat split. exact Hopen.
Qed.

(** The Line button is pressed, the window is closed, and two presses that
    would place a line are queued behind: Line stays selected, nothing is
    placed. *)
Lemma closed_event_ends_the_run_witness :
  run [[clickAt 60 35; mkInput Closed (Vector2i.mk 0 0) false; clickAt 300 300];
       [clickAt 400 400]] initial
  = set_window_isOpen false lineSelected.
Proof.
  destruct (closed_event_ends_the_run [] [[clickAt 400 400]] [clickAt 60 35]
              [clickAt 300 300] (mkInput Closed (Vector2i.mk 0 0) false) initial
              eq_refl) as (H & _ & _).
  cbn [app] in H. rewrite H. vm_compute. reflexivity.
Defined.

Lemma pollBody_window inp app :
  window_isOpen (pollBody inp app) = window_isOpen app && negb (isClosing inp).
Proof.
  rewrite pollBody_eq. unfold isClosing.
  assert (K : forall k a, window_isOpen (onKeyC k a) = window_isOpen a)
    by (intros [|] a0; reflexivity).
  rewrite K. destruct (event inp) as [|ex ey|].
  - cbn [negb]. rewrite andb_false_r. reflexivity.
  - cbn [negb]. rewrite andb_true_r.
    unfold onMouseButtonPressed. destruct (isDrawing app); cbn [negb].
    + destruct (clickWhenDrawing_cases (Vector2f.of_ints ex ey) app)
        as [[_ ->] | (s & _ & ->)]; reflexivity.
    + destruct (clickWhenIdle_cases (mousePosition inp) app)
        as [(t & _ & _ & ->) | [[_ ->] | [[_ ->] | [[_ ->] | [_ ->]]]]];
        try reflexivity.
      * destruct (undo_cases app) as [[_ ->] | (v & s & _ & ->)]; reflexivity.
      * unfold canvasClick. destruct (negb _); reflexivity.
  - cbn [negb]. rewrite andb_true_r. reflexivity.
Qed.

(** X14.  Nothing but the closing event closes the window, and nothing
    opens it again: at the end of a run the window is open exactly when it
    was open at the start and no closing event is among the events of the
    frames. *)
Theorem window_closes_on_the_closing_event_only
    (frames : list (list Input)) (app : GraphicsApp) :
  window_isOpen (run frames app)
  = window_isOpen app && forallb (fun inp => negb (isClosing inp)) (List.concat frames).
Proof.
  rewrite run_concat. generalize (List.concat frames) as queue. intros queue.
  revert app. induction queue as [|inp rest IH]; intros app.
  - cbn [handleEvents forallb]. rewrite andb_true_r. reflexivity.
  - cbn [handleEvents forallb]. destruct (window_isOpen app) eqn:Hopen.
    + rewrite IH, pollBody_window, Hopen. reflexivity.
    + rewrite Hopen. reflexivity.
Qed.

(** ** Placements of no extent *)

(** X15.  The second press on the start point itself is not rejected: for
    a start point in the pixel range it appends a line whose two vertices
    are that point, a rectangle of size [(0, 0)] or a circle of radius [0],
    by the tool (and nothing when no tool is selected, which the program
    does not reach). *)
Theorem second_click_on_the_start_point
    (app : GraphicsApp) (cursor : Vector2i.t) (px py : Z) :
  Z.abs px < 2 ^ 23 -> Z.abs py < 2 ^ 23 ->
  isDrawing app = true -> startPos app = Vector2f.of_ints px py ->
  shapes (onMouseButtonPressed cursor px py app)
  = shapes app ++
    match currentShapeType app with
    | ShapeType.None => []
    | ShapeType.Line =>
        [Line (Vector2f.of_ints px py) (Vector2f.of_ints px py) (currentColor app)]
    | ShapeType.Rectangle =>
        [Rectangle (Vector2f.of_ints px py) (Vector2f.of_ints 0 0) (currentColor app)]
    | ShapeType.Circle =>
        [Circle (Vector2f.of_ints px py) (Float.of_Z 0) (currentColor app)]
    end.
Proof.
  intros Hx Hy Hd Hs. unfold onMouseButtonPressed. rewrite Hd. cbn [negb].
  unfold clickWhenDrawing. rewrite Hs.
  destruct (currentShapeType app);
    cbn [shapes set_isDrawing set_currentShapeType set_shapes]; unfold push_back.
  - symmetry. apply app_nil_r.
  - reflexivity.
  - do 3 f_equal. unfold Vector2f.sub, Vector2f.of_ints.
    cbn [Vector2f.x Vector2f.y]. unfold Float.sub.
    destruct (FloatFacts.add_sub_of_Z px px Hx Hx) as [_ ->].
    destruct (FloatFacts.add_sub_of_Z py py Hy Hy) as [_ ->].
    rewrite !Z.sub_diag. reflexivity.
  - do 3 f_equal.
    rewrite RadiusFacts.circleRadius_of_ints by assumption.
    rewrite !Z.sub_diag. reflexivity.
Qed.

(** A circle is being placed from [(0, 0)] and the second press is at
    [(0, 0)] too. *)
Lemma second_click_on_the_start_point_witness :
  shapes (onMouseButtonPressed (Vector2i.mk 0 0) 0 0 placingCircle)
  = [Circle (Vector2f.of_ints 0 0) (Float.of_Z 0) White].
Proof.
  assert (D : isDrawing placingCircle = true) by (vm_compute; reflexivity).
  assert (S : startPos placingCircle = Vector2f.of_ints 0 0)
    by (vm_compute; reflexivity).
  rewrite (second_click_on_the_start_point placingCircle (Vector2i.mk 0 0) 0 0
             ltac:(reflexivity) ltac:(reflexivity) D S).
  vm_compute. reflexivity.
Defined.

(** ** The radius of a circle and the order of the two points *)

(** Rounding does not look at the sign: the operations on opposite
    operands give opposite results, and a square forgets the sign. *)
Module SymmetryFacts.
Import Float.

Section Opposite.
Variables prec emax : Z.

Lemma binary_round_aux_opp s m e l :
  binary_round_aux prec emax (negb s) m e l
  = SFopp (binary_round_aux prec emax s m e l).
Proof.
  unfold binary_round_aux.
  destruct (shr_fexp prec emax m e l) as [mrs' e'].
  destruct (shr_fexp prec emax _ e' loc_Exact) as [mrs'' e''].
  destruct (shr_m mrs''); [reflexivity | | reflexivity].
  destruct (e'' <=? emax - prec); reflexivity.
Qed.

Lemma binary_round_opp s m e :
  binary_round prec emax (negb s) m e = SFopp (binary_round prec emax s m e).
Proof.
  unfold binary_round.
  destruct (shl_align m e _) as [mz ez]. apply binary_round_aux_opp.
Qed.

Lemma binary_normalize_opp m e szero :
  binary_normalize prec emax (- m) e (negb szero)
  = SFopp (binary_normalize prec emax m e szero).
Proof.
  destruct m as [|p|p]; cbn [Z.opp binary_normalize]; [reflexivity | |].
  - apply (binary_round_opp false).
  - apply (binary_round_opp true).
Qed.

Lemma SFmul_opp x : SFmul prec emax (SFopp x) (SFopp x) = SFmul prec emax x x.
Proof. destruct x as [s|s| |s m e]; try destruct s; reflexivity. Qed.

Lemma SFadd_comm x y : SFadd prec emax x y = SFadd prec emax y x.
Proof.
  destruct x as [sx|sx| |sx mx ex], y as [sy|sy| |sy my ey];
    try reflexivity; try (destruct sx, sy; reflexivity).
  cbn [SFadd]. rewrite (Z.min_comm ey ex). f_equal. apply Z.add_comm.
Qed.

(** [b - a] is the opposite of [a - b], or both are [+0]. *)
Lemma SFsub_swap a b :
  SFsub prec emax b a = SFopp (SFsub prec emax a b) \/
  (SFsub prec emax a b = S754_zero false /\ SFsub prec emax b a = S754_zero false).
Proof.
  destruct a as [sa|sa| |sa ma ea], b as [sb|sb| |sb mb eb];
    try (left; reflexivity);
    try (destruct sa, sb; (left; reflexivity) || (right; split; reflexivity));
    try (left; cbn [SFsub SFopp]; rewrite negb_involutive; reflexivity).
  cbn [SFsub]. rewrite (Z.min_comm eb ea).
  set (ez := Z.min ea eb).
  set (A := cond_Zopp sa (Zpos (fst (shl_align ma ea ez)))).
  set (B := cond_Zopp sb (Zpos (fst (shl_align mb eb ez)))).
  destruct (Z.eq_dec (A - B) 0) as [E | N].
  - right. replace (B - A) with 0 by lia. rewrite E. split; reflexivity.
  - left. replace (B - A) with (- (A - B)) by lia.
    destruct (A - B) as [|p|p]; [congruence | |].
    + apply (binary_round_opp false).
    + apply (binary_round_opp true).
Qed.
End Opposite.

Lemma to_double_opp x : to_double (SFopp x) = SFopp (to_double x).
Proof.
  destruct x as [s|s| |s m e]; try reflexivity.
  cbn [SFopp to_double]. unfold signed_mantissa.
  replace (cond_Zopp (negb s) (Zpos m)) with (- cond_Zopp s (Zpos m))
    by (destruct s; reflexivity).
  apply binary_normalize_opp.
Qed.

(** The square of a difference does not depend on its direction. *)
Lemma dpow2_sub_swap a b :
  dpow2 (to_double (sub b a)) = dpow2 (to_double (sub a b)).
Proof.
  unfold sub. destruct (SFsub_swap 24 128 a b) as [-> | [-> ->]]; [|reflexivity].
  rewrite to_double_opp. apply SFmul_opp.
Qed.

End SymmetryFacts.

(** X16.  The radius of a circle does not depend on which of the two
    points is the start, whatever the floats of the two points are (the
    squares forget the signs of the differences); nor does it change when
    the two axes are exchanged. *)
Theorem circle_radius_is_symmetric (p q : Vector2f.t) :
  circleRadius p q = circleRadius q p /\
  circleRadius (Vector2f.mk (Vector2f.y p) (Vector2f.x p))
               (Vector2f.mk (Vector2f.y q) (Vector2f.x q))
  = circleRadius p q.
Proof.
  unfold circleRadius. cbn [Vector2f.x Vector2f.y]. split.
  - rewrite (SymmetryFacts.dpow2_sub_swap (Vector2f.x p) (Vector2f.x q)).
    rewrite (SymmetryFacts.dpow2_sub_swap (Vector2f.y p) (Vector2f.y q)).
    reflexivity.
  - unfold Float.dadd. rewrite SymmetryFacts.SFadd_comm. reflexivity.
Qed.

(** ** The error of the radius *)

(** Rounding to nearest keeps a value between two numbers that the format
    holds: the square root in double precision and its narrowing to single
    precision stay between the integer square root and its successor. *)
Module BracketFacts.
Import Float FloatFacts.

Lemma digits_eq n d : 0 < d -> 2 ^ (d - 1) <= n < 2 ^ d -> digits n = d.
Proof.
  intros Hd H. unfold digits.
  assert (Z.log2 n = d - 1); [|lia].
  apply Z.log2_unique; [lia|].
  replace (Z.succ (d - 1)) with d by lia. exact H.
Qed.

Lemma digits_spec n : 0 < n -> 2 ^ (digits n - 1) <= n < 2 ^ digits n.
Proof.
  intros Hn. unfold digits. pose proof (Z.log2_spec n Hn).
  replace (Z.log2 n + 1 - 1) with (Z.log2 n) by lia.
  replace (Z.log2 n + 1) with (Z.succ (Z.log2 n)) by lia. exact H.
Qed.

Lemma digits_le a b : 0 < a -> a <= b -> digits a <= digits b.
Proof.
  intros Ha Hab. unfold digits.
  assert (Z.log2 a <= Z.log2 b) by (apply Z.log2_le_mono; exact Hab). lia.
Qed.

(** The integer square root has half the digits. *)
Lemma digits_sqrt n :
  0 < n -> digits (Z.sqrt n) = (digits n + 1) / 2 /\ 0 < Z.sqrt n.
Proof.
  intros Hn.
  pose proof (Z.sqrt_spec n ltac:(lia)) as [Hlo Hhi].
  set (k := Z.sqrt n) in *.
  assert (Hk : 0 < k).
  { destruct (Z_lt_le_dec 0 k) as [H | H]; [exact H|].
    pose proof (Z.sqrt_nonneg n) as Hk0. fold k in Hk0.
    assert (Ek : k = 0) by lia. rewrite Ek in Hhi. simpl in Hhi. lia. }
  split; [|exact Hk].
  pose proof (half_bounds (digits n + 1)) as Hh.
  pose proof (digits_square_ge k Hk) as H1.
  pose proof (digits_le (k * k) n ltac:(nia) Hlo) as H2.
  pose proof (digits_spec k Hk) as [_ Hk2].
  pose proof (digits_pos k Hk) as Hdk.
  assert (H3 : digits n <= 2 * digits k).
  { apply digits_bound; [exact Hn | lia |].
    replace (2 * digits k) with (digits k + digits k) by lia.
    rewrite Z.pow_add_r by lia.
    unfold Z.succ in Hhi. nia. }
  lia.
Qed.

Lemma shr_1_half mrs : 0 <= shr_m mrs -> shr_m (shr_1 mrs) = shr_m mrs / 2.
Proof.
  destruct mrs as [m r s]. cbn [shr_m]. intros Hm.
  rewrite <- Z.div2_div.
  destruct m as [|[p|p|]|p]; try reflexivity. lia.
Qed.

Lemma shr_floor mrs n :
  0 <= shr_m mrs ->
  shr_m (iter_pos shr_1 n mrs) = shr_m mrs / 2 ^ Zpos n.
Proof.
  intros Hm. rewrite iter_pos_iter.
  induction n using Pos.peano_ind.
  - cbn [Pos.iter]. rewrite shr_1_half by exact Hm. reflexivity.
  - rewrite Pos.iter_succ, shr_1_half.
    + rewrite IHn, Pos2Z.inj_succ, Z.pow_succ_r by lia.
      rewrite Z.div_div by (try apply Z.pow_pos_nonneg; lia).
      f_equal. lia.
    + rewrite IHn. apply Z.div_pos; [exact Hm | apply Z.pow_pos_nonneg; lia].
Qed.

Lemma loc_of_shr_record_of_loc m l :
  loc_of_shr_record (shr_record_of_loc m l) = l.
Proof. destruct l as [|[| |]]; reflexivity. Qed.

Lemma round_nearest_even_bounds m l :
  m <= round_nearest_even m l <= m + 1.
Proof.
  destruct l as [|[| |]]; cbn [round_nearest_even]; try lia.
  destruct (Z.even m); lia.
Qed.

Section Bracket.
Variables prec emax : Z.
Hypothesis Hprec : 2 <= prec.
Hypothesis Hemax : prec < emax.

(** The mantissa after the first shift and the rounding. *)
Lemma shr_fexp_round m e l n lo hi :
  0 <= n -> digits (Zpos m) = prec + n -> 1 <= prec + n + e ->
  lo * 2 ^ n <= Zpos m ->
  Zpos m < hi * 2 ^ n \/ (Zpos m = hi * 2 ^ n /\ l = loc_Exact) ->
  exists mrs,
    shr_fexp prec emax (Zpos m) e l = (mrs, e + n) /\
    lo <= round_nearest_even (shr_m mrs) (loc_of_shr_record mrs) <= hi /\
    2 ^ (prec - 1) <= round_nearest_even (shr_m mrs) (loc_of_shr_record mrs)
                   <= 2 ^ prec.
Proof.
  intros Hn Hd Hfe Hlo Hhi.
  pose proof (digits_spec (Zpos m) ltac:(lia)) as Hm. rewrite Hd in Hm.
  assert (P : 0 < 2 ^ n) by (apply Z.pow_pos_nonneg; lia).
  assert (Hmt : 2 ^ (prec - 1) <= Zpos m / 2 ^ n < 2 ^ prec).
  { split.
    - apply Z.div_le_lower_bound; [exact P|].
      rewrite <- Z.pow_add_r by lia.
      replace (n + (prec - 1)) with (prec + n - 1) by lia. lia.
    - apply Z.div_lt_upper_bound; [exact P|].
      rewrite <- Z.pow_add_r by lia.
      replace (n + prec) with (prec + n) by lia. lia. }
  unfold shr_fexp. rewrite Zdigits2_digits, Hd, fexp_digits by lia.
  replace (prec + n + e - prec - e) with n by lia.
  unfold shr. destruct n as [|p|p]; [| |lia].
  - rewrite Z.add_0_r. eexists. split; [reflexivity|].
    rewrite loc_of_shr_record_of_loc.
    assert (S : shr_m (shr_record_of_loc (Zpos m) l) = Zpos m)
      by (destruct l as [|[| |]]; reflexivity).
    rewrite S. change (2 ^ 0) with 1 in *. rewrite Z.div_1_r in Hmt.
    pose proof (round_nearest_even_bounds (Zpos m) l) as Hr.
    destruct Hhi as [Hhi | [Hhi ->]]; [lia|].
    cbn [round_nearest_even] in *. lia.
  - eexists. split; [reflexivity|].
    destruct Hhi as [Hhi | [Hhi ->]].
    + assert (S : shr_m (iter_pos shr_1 p (shr_record_of_loc (Zpos m) l))
                  = Zpos m / 2 ^ Zpos p).
      { rewrite shr_floor by (rewrite shr_record_of_loc_m; lia).
        rewrite shr_record_of_loc_m. reflexivity. }
      rewrite S.
      pose proof (round_nearest_even_bounds (Zpos m / 2 ^ Zpos p)
                    (loc_of_shr_record
                       (iter_pos shr_1 p (shr_record_of_loc (Zpos m) l)))) as Hr.
      assert (Hlo' : lo <= Zpos m / 2 ^ Zpos p).
      { apply Z.div_le_lower_bound; [exact P | lia]. }
      assert (Zpos m / 2 ^ Zpos p < hi)
        by (apply Z.div_lt_upper_bound; [exact P | lia]).
      lia.
    + assert (Hhp : 0 < hi) by nia.
      assert (R : iter_pos shr_1 p (shr_record_of_loc (Zpos m) loc_Exact)
                  = Build_shr_record hi false false).
      { cbn [shr_record_of_loc].
        replace (Zpos m) with (Zpos (Pos.iter xO (Z.to_pos hi) p))
          by (rewrite iter_xO_pow2, Z2Pos.id by lia; symmetry; exact Hhi).
        rewrite shr_exact, Z2Pos.id by lia. reflexivity. }
      rewrite R. cbn [shr_m loc_of_shr_record round_nearest_even].
      assert (lo <= hi).
      { rewrite Hhi in Hlo. apply Z.mul_le_mono_pos_r in Hlo; assumption. }
      rewrite Hhi, Z.div_mul in Hmt by lia. lia.
Qed.

(** A mantissa that the rounding has taken to [2 ^ prec] is shifted once
    more. *)
Lemma shr_fexp_again mr e :
  1 <= prec + e -> 2 ^ (prec - 1) <= mr <= 2 ^ prec ->
  shr_fexp prec emax mr e loc_Exact
  = if mr <? 2 ^ prec then (Build_shr_record mr false false, e)
    else (Build_shr_record (2 ^ (prec - 1)) false false, e + 1).
Proof.
  intros Hfe Hmr.
  assert (P : 0 < 2 ^ (prec - 1)) by (apply Z.pow_pos_nonneg; lia).
  destruct mr as [|m|m]; try lia.
  unfold shr_fexp. rewrite Zdigits2_digits.
  destruct (Z.ltb_spec (Zpos m) (2 ^ prec)) as [Hlt | Hge].
  - rewrite (digits_eq (Zpos m) prec) by lia.
    rewrite fexp_digits by lia.
    replace (prec + e - prec - e) with 0 by lia. reflexivity.
  - assert (E : Zpos m = 2 ^ prec) by lia.
    assert (E' : 2 ^ prec = 2 ^ (prec - 1) * 2 ^ 1).
    { rewrite <- Z.pow_add_r by lia. f_equal. lia. }
    rewrite (digits_eq (Zpos m) (prec + 1)).
    + rewrite fexp_digits by lia.
      replace (prec + 1 + e - prec - e) with 1 by lia.
      cbn [shr shr_record_of_loc iter_pos].
      assert (Em : Zpos m = Zpos (Pos.iter xO (Z.to_pos (2 ^ (prec - 1))) 1)).
      { rewrite iter_xO_pow2, Z2Pos.id by lia. lia. }
      rewrite Em. cbn [Pos.iter shr_1]. rewrite Z2Pos.id by lia. reflexivity.
    + lia.
    + replace (prec + 1 - 1) with prec by lia. split; [lia|].
      rewrite E. apply Z.pow_lt_mono_r; lia.
Qed.

(** Rounding a value between two multiples of the unit of the result gives
    a result between them. *)
Lemma binary_round_aux_bracket m e l n lo hi :
  0 <= n -> digits (Zpos m) = prec + n -> 1 <= prec + n + e ->
  e + n + 1 <= emax - prec ->
  lo * 2 ^ n <= Zpos m ->
  Zpos m < hi * 2 ^ n \/ (Zpos m = hi * 2 ^ n /\ l = loc_Exact) ->
  exists mf,
    (binary_round_aux prec emax false (Zpos m) e l = S754_finite false mf (e + n) /\
     lo <= Zpos mf <= hi /\ digits (Zpos mf) = prec) \/
    (binary_round_aux prec emax false (Zpos m) e l
     = S754_finite false mf (e + n + 1) /\
     Zpos mf = 2 ^ (prec - 1) /\ 2 ^ prec <= hi).
Proof.
  intros Hn Hd Hfe Hmax Hlo Hhi.
  destruct (shr_fexp_round m e l n lo hi Hn Hd Hfe Hlo Hhi)
    as (mrs & E1 & Hb & Hr).
  unfold binary_round_aux. rewrite E1.
  set (mr := round_nearest_even (shr_m mrs) (loc_of_shr_record mrs)) in *.
  rewrite shr_fexp_again by lia.
  assert (P : 0 < 2 ^ (prec - 1)) by (apply Z.pow_pos_nonneg; lia).
  destruct (Z.ltb_spec mr (2 ^ prec)) as [Hlt | Hge]; cbn [shr_m].
  - destruct mr as [|mf|mf] eqn:Emr; try lia.
    exists mf. left.
    replace (e + n <=? emax - prec) with true by (symmetry; apply Z.leb_le; lia).
    split; [reflexivity|]. split; [lia|].
    apply digits_eq; lia.
  - destruct (2 ^ (prec - 1)) as [|mf|mf] eqn:Emf; try lia.
    exists mf. right.
    replace (e + n + 1 <=? emax - prec) with true by (symmetry; apply Z.leb_le; lia).
    split; [reflexivity|]. split; [reflexivity | lia].
Qed.
End Bracket.

(** Positive floats with full mantissas compare as their values do. *)
Lemma compare_normal P m1 e1 m2 e2 c :
  0 < P -> digits (Zpos m1) = P -> digits (Zpos m2) = P -> c <= e1 -> c <= e2 ->
  SFcompare (S754_finite false m1 e1) (S754_finite false m2 e2)
  = Some (Zpos m1 * 2 ^ (e1 - c) ?= Zpos m2 * 2 ^ (e2 - c)).
Proof.
  intros HP H1 H2 Hc1 Hc2. cbn [SFcompare]. f_equal.
  pose proof (digits_spec (Zpos m1) ltac:(lia)) as B1. rewrite H1 in B1.
  pose proof (digits_spec (Zpos m2) ltac:(lia)) as B2. rewrite H2 in B2.
  assert (Q1 : 0 < 2 ^ (e1 - c)) by (apply Z.pow_pos_nonneg; lia).
  assert (Q2 : 0 < 2 ^ (e2 - c)) by (apply Z.pow_pos_nonneg; lia).
  destruct (Z.compare_spec e1 e2) as [E | E | E].
  - subst e2. rewrite Pos.compare_cont_spec.
    replace (Pos.switch_Eq Eq (m1 ?= m2)%positive) with (m1 ?= m2)%positive
      by (destruct (m1 ?= m2)%positive; reflexivity).
    change (Pos.compare m1 m2) with (Zpos m1 ?= Zpos m2).
    apply Zmult_compare_compat_r. lia.
  - symmetry. apply Z.compare_lt_iff.
    replace (e2 - c) with ((e2 - e1 - 1) + 1 + (e1 - c)) by lia.
    rewrite !Z.pow_add_r by lia.
    assert (0 < 2 ^ (e2 - e1 - 1)) by (apply Z.pow_pos_nonneg; lia).
    assert (2 ^ P = 2 ^ (P - 1) * 2 ^ 1)
      by (rewrite <- Z.pow_add_r by lia; f_equal; lia).
    change (2 ^ 1) with 2 in *.
    assert (Zpos m1 < 2 * Zpos m2) by lia.
    assert (Zpos m1 * 2 ^ (e1 - c) < 2 * Zpos m2 * 2 ^ (e1 - c))
      by (apply Z.mul_lt_mono_pos_r; lia).
    assert (0 < Zpos m2 * 2 ^ (e1 - c)) by (apply Z.mul_pos_pos; lia).
    nia.
  - symmetry. apply Z.compare_gt_iff.
    replace (e1 - c) with ((e1 - e2 - 1) + 1 + (e2 - c)) by lia.
    rewrite !Z.pow_add_r by lia.
    assert (0 < 2 ^ (e1 - e2 - 1)) by (apply Z.pow_pos_nonneg; lia).
    assert (2 ^ P = 2 ^ (P - 1) * 2 ^ 1)
      by (rewrite <- Z.pow_add_r by lia; f_equal; lia).
    change (2 ^ 1) with 2 in *.
    assert (Zpos m2 < 2 * Zpos m1) by lia.
    assert (Zpos m2 * 2 ^ (e2 - c) < 2 * Zpos m1 * 2 ^ (e2 - c))
      by (apply Z.mul_lt_mono_pos_r; lia).
    assert (0 < Zpos m1 * 2 ^ (e2 - c)) by (apply Z.mul_pos_pos; lia).
    nia.
Qed.

(** An integer of at most 24 digits against a float with a full mantissa. *)
Lemma compare_of_Z_finite T mf ef c :
  0 < T -> digits T <= 24 -> digits (Zpos mf) = 24 ->
  c <= digits T - 24 -> c <= ef ->
  SFcompare (of_Z T) (S754_finite false mf ef)
  = Some (T * 2 ^ (- c) ?= Zpos mf * 2 ^ (ef - c)) /\
  SFcompare (S754_finite false mf ef) (of_Z T)
  = Some (Zpos mf * 2 ^ (ef - c) ?= T * 2 ^ (- c)).
Proof.
  intros HT Hd Hmf Hc Hef.
  pose proof (digits_pos T HT) as Hd1.
  destruct (of_Z_exact T HT Hd) as [-> _].
  destruct (canonical_mantissa_value 24 false T HT Hd) as (m & -> & Hm).
  assert (Dm : digits (Zpos m) = 24).
  { rewrite Hm, digits_shift by lia. lia. }
  assert (V : Zpos m * 2 ^ (digits T - 24 - c) = T * 2 ^ (- c)).
  { rewrite Hm, <- Z.mul_assoc, <- Z.pow_add_r by lia. f_equal. f_equal. lia. }
  rewrite (compare_normal 24 m (digits T - 24) mf ef c) by (assumption || lia).
  rewrite (compare_normal 24 mf ef m (digits T - 24) c) by (assumption || lia).
  rewrite V. split; reflexivity.
Qed.

(** The sum of the squares of two pixel differences, in double precision. *)
Lemma sum_of_squares dx dy :
  Z.abs dx < 2 ^ 23 -> Z.abs dy < 2 ^ 23 -> dx * dx + dy * dy <> 0 ->
  dadd (dpow2 (to_double (of_Z dx))) (dpow2 (to_double (of_Z dy)))
  = canonical 53 false (dx * dx + dy * dy).
Proof.
  intros Hx Hy Hn.
  assert (P23 : 2 ^ 23 = 8388608) by reflexivity.
  assert (P24 : 2 ^ 24 = 16777216) by reflexivity.
  destruct (Z.eq_dec dx 0) as [Ex | Nx], (Z.eq_dec dy 0) as [Ey | Ny].
  - exfalso. rewrite Ex, Ey in Hn. lia.
  - rewrite Ex. change (dpow2 (to_double (of_Z 0))) with (S754_zero false).
    rewrite RadiusFacts.dpow2_of_Z by lia. reflexivity.
  - rewrite Ey. change (dpow2 (to_double (of_Z 0))) with (S754_zero false).
    rewrite RadiusFacts.dpow2_of_Z by lia. rewrite Z.add_0_r. reflexivity.
  - rewrite !RadiusFacts.dpow2_of_Z by lia. unfold dadd.
    apply SFadd_exact; try lia; try nia.
    apply digits_bound; [nia | lia |].
    assert (dx * dx < 2 ^ 46) by (change (2 ^ 46) with (8388608 * 8388608); nia).
    assert (dy * dy < 2 ^ 46) by (change (2 ^ 46) with (8388608 * 8388608); nia).
    change (2 ^ 53) with (128 * 2 ^ 46). lia.
Qed.

(** The double-precision square root of an integer [n] lies between the
    integer square root of [n] and its successor. *)
Lemma dsqrt_bracket n :
  0 < n -> digits n <= 47 ->
  (exists md,
     dsqrt (canonical 53 false n) = S754_finite false md ((digits n + 1) / 2 - 53) /\
     Z.sqrt n * 2 ^ (53 - (digits n + 1) / 2) <= Zpos md
       <= (Z.sqrt n + 1) * 2 ^ (53 - (digits n + 1) / 2) /\
     digits (Zpos md) = 53) \/
  dsqrt (canonical 53 false n) = canonical 53 false (Z.sqrt n + 1).
Proof.
  intros Hn Hd.
  pose proof (digits_pos n Hn) as Hd1.
  destruct (digits_sqrt n Hn) as [Hdk Hk].
  pose proof (Z.sqrt_spec n ltac:(lia)) as [Hlo Hhi].
  set (k := Z.sqrt n) in *.
  set (h := (digits n + 1) / 2) in *.
  assert (Hh : 2 * h <= digits n + 1 < 2 * h + 2) by (subst h; apply half_bounds).
  destruct (canonical_mantissa_value 53 false n Hn ltac:(lia)) as (m & -> & Hm).
  unfold dsqrt. cbn [SFsqrt]. unfold SFsqrt_core_binary.
  rewrite Zdigits2_digits, Hm, digits_shift by lia.
  replace (digits n + (53 - digits n) + (digits n - 53) + 1) with (digits n + 1) by lia.
  rewrite !Z.div2_div. fold h.
  rewrite (fexp_digits 53 1024) by lia.
  pose proof (half_bounds (digits n - 53)) as Hq.
  replace (Z.min (h - 53) ((digits n - 53) / 2)) with (h - 53) by lia.
  set (j := 53 - h).
  assert (Hj : 0 <= j) by (subst j; lia).
  replace (digits n - 53 - 2 * (h - 53)) with (digits n - 53 + 2 * j) by (subst j; lia).
  assert (Hs : 0 < digits n - 53 + 2 * j) by (subst j; lia).
  destruct (digits n - 53 + 2 * j) as [|sh|sh] eqn:Esh; try lia.
  rewrite Z.shiftl_mul_pow2 by lia.
  assert (P : 0 < 2 ^ j) by (apply Z.pow_pos_nonneg; lia).
  assert (EN : n * 2 ^ (53 - digits n) * 2 ^ Zpos sh = n * (2 ^ j * 2 ^ j)).
  { rewrite <- Esh, <- Z.mul_assoc, <- !Z.pow_add_r by lia. f_equal. f_equal. lia. }
  rewrite EN.
  set (N := n * (2 ^ j * 2 ^ j)).
  assert (HN : 0 < N) by (subst N; nia).
  pose proof (Z.sqrtrem_spec N ltac:(lia)) as Hspec.
  pose proof (Z.sqrtrem_sqrt N) as Hsq.
  destruct (Z.sqrtrem N) as [q r]. cbn [fst] in Hsq.
  destruct Hspec as [Hq1 Hq2].
  assert (Hkq : k * 2 ^ j <= q).
  { rewrite Hsq. apply Z.sqrt_le_square; [lia | nia |]. subst N. nia. }
  assert (Hqk : q < (k + 1) * 2 ^ j).
  { rewrite Hsq. apply Z.sqrt_lt_square; [lia | nia |]. subst N.
    unfold Z.succ in Hhi. nia. }
  assert (Dq : digits q = 53).
  { rewrite Hsq. destruct (digits_sqrt N HN) as [-> _].
    subst N. rewrite <- Z.pow_add_r, digits_shift by lia.
    replace (digits n + (j + j) + 1) with (digits n + 1 + j * 2) by lia.
    rewrite Z.div_add by lia. fold h. subst j. lia. }
  destruct q as [|mq|mq]; [nia | | nia].
  destruct (binary_round_aux_bracket 53 1024 ltac:(lia) ltac:(lia) mq (h - 53)
              (if r =? 0 then loc_Exact
               else loc_Inexact (if r <=? Zpos mq then Lt else Gt))
              0 (k * 2 ^ j) ((k + 1) * 2 ^ j))
    as (mf & [(E & Hb & Dm) | (E & Em & Hov)]); try lia.
  - left. exists mf. rewrite E. replace (h - 53 + 0) with (h - 53) by lia.
    repeat split; try lia.
  - right. rewrite E.
    pose proof (digits_spec k Hk) as [_ Hk2]. rewrite Hdk in Hk2.
    assert (Hk1 : k + 1 = 2 ^ h).
    { assert (2 ^ 53 = 2 ^ h * 2 ^ j)
        by (rewrite <- Z.pow_add_r by lia; f_equal; subst j; lia).
      nia. }
    rewrite Hk1. unfold canonical.
    assert (Dh : digits (2 ^ h) = h + 1).
    { unfold digits. rewrite Z.log2_pow2 by lia. reflexivity. }
    rewrite Dh. f_equal; [|lia].
    replace (2 ^ h * 2 ^ (53 - (h + 1))) with (Zpos mf).
    + reflexivity.
    + rewrite Em, <- Z.pow_add_r by lia. f_equal. lia.
Qed.

(** Narrowing a double between two multiples of the unit of the float. *)
Lemma of_double_bracket md h lo hi :
  1 <= h <= 24 -> digits (Zpos md) = 53 ->
  lo * 2 ^ 29 <= Zpos md <= hi * 2 ^ 29 ->
  exists mf,
    (of_double (S754_finite false md (h - 53)) = S754_finite false mf (h - 24) /\
     lo <= Zpos mf <= hi /\ digits (Zpos mf) = 24) \/
    (of_double (S754_finite false md (h - 53)) = S754_finite false mf (h - 23) /\
     Zpos mf = 2 ^ 23 /\ 2 ^ 24 <= hi).
Proof.
  intros Hh Dm Hb.
  cbn [of_double]. unfold signed_mantissa. cbn [cond_Zopp binary_normalize].
  unfold binary_round.
  change (Zpos (digits2_pos md)) with (Zdigits2 (Zpos md)).
  rewrite Zdigits2_digits, Dm, (fexp_digits 24 128) by lia.
  unfold shl_align.
  replace (53 + (h - 53) - 24 - (h - 53)) with 29 by lia.
  assert (Hhi : Zpos md < hi * 2 ^ 29 \/
                (Zpos md = hi * 2 ^ 29 /\ loc_Exact = loc_Exact)).
  { destruct (Z.eq_dec (Zpos md) (hi * 2 ^ 29)); [right; split; auto | left; lia]. }
  destruct (binary_round_aux_bracket 24 128 ltac:(lia) ltac:(lia) md (h - 53)
              loc_Exact 29 lo hi ltac:(lia) ltac:(lia) ltac:(lia) ltac:(lia)
              ltac:(lia) Hhi)
    as (mf & [(E & Hb' & Dm') | (E & Em & Hov)]).
  - exists mf. left. rewrite E. replace (h - 53 + 29) with (h - 24) by lia.
    repeat split; try lia.
  - exists mf. right. rewrite E. replace (h - 53 + 29 + 1) with (h - 23) by lia.
    repeat split; try lia.
Qed.

Lemma radiusOfDifferences_bracket dx dy :
  Z.abs dx < 2 ^ 23 -> Z.abs dy < 2 ^ 23 ->
  leb (of_Z (Z.sqrt (dx * dx + dy * dy))) (radiusOfDifferences dx dy) = true /\
  leb (radiusOfDifferences dx dy) (of_Z (Z.sqrt (dx * dx + dy * dy) + 1)) = true.
Proof.
  intros Hx Hy.
  assert (P23 : 2 ^ 23 = 8388608) by reflexivity.
  assert (P24 : 2 ^ 24 = 16777216) by reflexivity.
  set (n := dx * dx + dy * dy).
  destruct (Z.eq_dec n 0) as [E0 | N0].
  { assert (dx = 0) by (subst n; nia). assert (dy = 0) by (subst n; nia).
    subst dx dy. subst n. split; vm_compute; reflexivity. }
  assert (Hn : 0 < n) by (subst n; nia).
  assert (Hn47 : n < 2 ^ 47).
  { subst n. change (2 ^ 47) with (2 * (8388608 * 8388608)). nia. }
  assert (Hd : digits n <= 47) by (apply digits_bound; lia).
  pose proof (digits_pos n Hn) as Hd1.
  unfold radiusOfDifferences. rewrite sum_of_squares by assumption. fold n.
  destruct (digits_sqrt n Hn) as [Hdk Hk].
  pose proof (Z.sqrt_spec n ltac:(lia)) as [Hlo Hhi].
  set (k := Z.sqrt n) in *.
  set (h := (digits n + 1) / 2) in *.
  assert (Hh : 2 * h <= digits n + 1 < 2 * h + 2) by (subst h; apply half_bounds).
  assert (Hk24 : k + 1 < 2 ^ 24).
  { change (2 ^ 47) with 140737488355328 in Hn47. rewrite P24. nia. }
  assert (Dk1 : digits (k + 1) <= 24) by (apply digits_bound; lia).
  assert (Dk : digits k <= 24) by lia.
  pose proof (digits_le k (k + 1) Hk ltac:(lia)) as Dkk.
  pose proof (digits_spec k Hk) as [_ Hk2]. rewrite Hdk in Hk2.
  assert (Q : 0 < 2 ^ (24 - h)) by (apply Z.pow_pos_nonneg; lia).
  assert (Q' : 2 ^ 24 = 2 ^ h * 2 ^ (24 - h))
    by (rewrite <- Z.pow_add_r by lia; f_equal; lia).
  unfold leb, SFleb.
  destruct (dsqrt_bracket n Hn Hd) as [(md & -> & Hb & Dm) | ->].
  - fold h k in Hb |- *.
    assert (S : 2 ^ (53 - h) = 2 ^ (24 - h) * 2 ^ 29)
      by (rewrite <- Z.pow_add_r by lia; f_equal; lia).
    destruct (of_double_bracket md h (k * 2 ^ (24 - h)) ((k + 1) * 2 ^ (24 - h)))
      as (mf & [(-> & Hb' & Dm') | (-> & Em & Hov)]); try lia.
    + destruct (compare_of_Z_finite k mf (h - 24) (h - 24)) as [-> _]; try lia.
      destruct (compare_of_Z_finite (k + 1) mf (h - 24) (h - 24)) as [_ ->]; try lia.
      rewrite Z.sub_diag. change (2 ^ 0) with 1. rewrite Z.mul_1_r.
      replace (- (h - 24)) with (24 - h) by lia.
      split.
      * destruct (Z.compare_spec (k * 2 ^ (24 - h)) (Zpos mf)); try reflexivity; lia.
      * destruct (Z.compare_spec (Zpos mf) ((k + 1) * 2 ^ (24 - h)));
          try reflexivity; lia.
    + assert (Dmf : digits (Zpos mf) = 24)
        by (rewrite Em; unfold digits; rewrite Z.log2_pow2 by lia; reflexivity).
      destruct (compare_of_Z_finite k mf (h - 23) (h - 24)) as [-> _]; try lia.
      destruct (compare_of_Z_finite (k + 1) mf (h - 23) (h - 24)) as [_ ->]; try lia.
      replace (h - 23 - (h - 24)) with 1 by lia.
      replace (- (h - 24)) with (24 - h) by lia.
      rewrite Em. change (2 ^ 23 * 2 ^ 1) with (2 ^ 24).
      split.
      * destruct (Z.compare_spec (k * 2 ^ (24 - h)) (2 ^ 24)); try reflexivity.
        nia.
      * destruct (Z.compare_spec (2 ^ 24) ((k + 1) * 2 ^ (24 - h)));
          try reflexivity; lia.
  - fold k. rewrite of_double_exact by lia.
    destruct (of_Z_exact (k + 1) ltac:(lia) Dk1) as [<- _].
    rewrite !compare_of_Z by lia.
    split.
    + destruct (Z.compare_spec k (k + 1)); try reflexivity; lia.
    + rewrite Z.compare_refl. reflexivity.
Qed.

End BracketFacts.

(** X17.  The stored radius is off by less than one pixel: for two points
    with coordinates below 2^22 in magnitude it is a float between the
    integer part of the Euclidean distance and that integer plus one, both
    included; in particular it is finite and not a NaN. *)
Theorem circle_radius_within_a_pixel (sx sy ex ey : Z) :
  Z.abs sx < 2 ^ 22 -> Z.abs sy < 2 ^ 22 ->
  Z.abs ex < 2 ^ 22 -> Z.abs ey < 2 ^ 22 ->
  Float.leb
    (Float.of_Z (Z.sqrt ((ex - sx) * (ex - sx) + (ey - sy) * (ey - sy))))
    (circleRadius (Vector2f.of_ints sx sy) (Vector2f.of_ints ex ey)) = true /\
  Float.leb
    (circleRadius (Vector2f.of_ints sx sy) (Vector2f.of_ints ex ey))
    (Float.of_Z (Z.sqrt ((ex - sx) * (ex - sx) + (ey - sy) * (ey - sy)) + 1))
  = true.
Proof.
  intros Bsx Bsy Bex Bey.
  assert (P22 : 2 ^ 22 = 4194304) by reflexivity.
  assert (P23 : 2 ^ 23 = 8388608) by reflexivity.
  rewrite RadiusFacts.circleRadius_of_ints by lia.
  apply BracketFacts.radiusOfDifferences_bracket; lia.
Qed.

(** From [(0, 0)] to [(1, 1)]: the radius lies between 1 and 2. *)
Lemma circle_radius_within_a_pixel_witness :
  Float.leb (Float.of_Z 1)
    (circleRadius (Vector2f.of_ints 0 0) (Vector2f.of_ints 1 1)) = true /\
  Float.leb (circleRadius (Vector2f.of_ints 0 0) (Vector2f.of_ints 1 1))
    (Float.of_Z 2) = true.
Proof.
  exact (circle_radius_within_a_pixel 0 0 1 1 ltac:(reflexivity) ltac:(reflexivity)
           ltac:(reflexivity) ltac:(reflexivity)).
Defined.
